(** * Communage: utterance segmentation, frame normalisation, device
      selection and the recognition / translation retry protocols

    A shallow embedding of the parts of the Communage speech-to-speech
    translator that its specification makes testable statements about:

    - [voice_activity_detector.py]: [LoopbackDeviceStrategy.select_device],
      [VoiceActivityDetector.resample_and_convert_chunk] and
      [VoiceActivityDetector.vad_generator];
    - [google_api.py]: [SpeechRecognizer.__call__] and
      [SentenceTranslator.__call__];
    - [main.py]: [AbstractStreamHandler.run] and
      [AbstractProcessor.process_result_of_queue_processing].

    Python values are modelled as follows.  [bytes] is a list of
    [Byte.byte]; [str] is a [string] that holds the UTF-8 bytes of its
    code points (see [Str]); Python [int] is [Z] (or [nat] where
    the value is a length or an index); [None] is [None] of an option;
    a raised exception is the [Raise] constructor of [Py.result]. *)

From Stdlib Require Import ZArith List Lia Bool String Ascii Strings.Byte.
From Stdlib Require Import Floats Uint63 QArith.
From stdpp Require Import base tactics option list.

Local Open Scope nat_scope.

Definition bytes := list Byte.byte.

(** ** Python control flow: exceptions *)

Module Py.

(** The exception classes that occur in the modelled code.  [Exception_]
    stands for any instance of [Exception] that is not listed on its
    own; [BaseException_] for an instance of [BaseException] that is
    neither an [Exception] nor a [KeyboardInterrupt] (for example
    [SystemExit] or [asyncio.CancelledError]). *)
Inductive exc : Type :=
| AttributeError
| IndexError
| TypeError
| ValueError
| ZeroDivisionError
| RuntimeError (msg : string)
| UnicodeDecodeError
| Exception_ (name : string)
| KeyboardInterrupt
| BaseException_ (name : string).

(** [isinstance(e, Exception)] *)
Definition is_Exception (e : exc) : bool :=
  match e with
  | KeyboardInterrupt | BaseException_ _ => false
  | _ => true
  end.

Inductive result (A : Type) : Type :=
| Return (a : A)
| Raise (e : exc).
Arguments Return {A} a.
Arguments Raise {A} e.

Definition bind {A B} (m : result A) (k : A -> result B) : result B :=
  match m with
  | Return a => k a
  | Raise e => Raise e
  end.

End Py.

Notation "'do' x <- m ; k" := (Py.bind m (fun x => k))
  (at level 10, x name, m at level 100, k at level 200).

(** ** The voice activity segmenter: [VoiceActivityDetector.vad_generator] *)

Module Vad.

(** What the generator makes observable: the two callbacks and the
    yielded utterance. *)
Inductive event : Type :=
| SpeechStarted                (* on_start_detection() *)
| SpeechEnded                  (* on_end_detection()   *)
| Utterance (sentence : bytes) (* yield of the joined voiced_frames *).

(** The local variables of [vad_generator]. *)
Record state : Type := State {
  ring_buffer : list bytes;          (* collections.deque(maxlen=NUM_PADDING_CHUNKS) *)
  triggered : bool;
  voiced_frames : list bytes;
  ring_buffer_flags : list nat;
  ring_buffer_index : nat;
  ring_buffer_flags_end : list nat;
  ring_buffer_index_end : nat
}.

(** [l[i] = v] on a Python list: [IndexError] out of range. *)
Definition list_setitem (l : list nat) (i : nat) (v : nat) : Py.result (list nat) :=
  if decide (i < length l) then Py.Return (<[i:=v]> l) else Py.Raise Py.IndexError.

(** [a % b] on non-negative ints. *)
Definition py_mod (a b : nat) : Py.result nat :=
  match b with
  | 0 => Py.Raise Py.ZeroDivisionError
  | _ => Py.Return (a mod b)
  end.

(** [deque.append] on a deque with [maxlen]: the oldest element is
    evicted once the capacity is reached; with [maxlen = 0] nothing is
    kept. *)
Definition deque_append (maxlen : nat) (d : list bytes) (x : bytes) : list bytes :=
  let d' := d ++ [x] in drop (length d' - maxlen) d'.

(** [num_voiced > 0.8 * NUM_WINDOW_CHUNKS].  The product is a binary64
    float in the source.  It rounds to 4n/5 when that is an integer and
    otherwise stays on the same side of every integer as 4n/5, for every
    window size below 2^53, so that the comparison with the integer
    [num_voiced] is the exact one, which is what is modelled; the
    binary64 comparisons follow, to be evaluated against it. *)
Definition exceeds_080 (num_voiced n : nat) : bool :=
  (8 * Z.of_nat n <? 10 * Z.of_nat num_voiced)%Z.

(** [num_unvoiced > 0.90 * NUM_WINDOW_CHUNKS_END], with
    [num_unvoiced = NUM_WINDOW_CHUNKS_END - sum(ring_buffer_flags_end)]. *)
Definition exceeds_090 (num_unvoiced : Z) (n : nat) : bool :=
  (9 * Z.of_nat n <? 10 * num_unvoiced)%Z.

(** The two comparisons as the source evaluates them. *)
Definition float_of_nat (n : nat) : float :=
  PrimFloat.of_uint63 (Uint63.of_Z (Z.of_nat n)).
#[warnings="-inexact-float"]
Definition float_exceeds_080 (num_voiced n : nat) : bool :=
  PrimFloat.ltb (PrimFloat.mul 0.8%float (float_of_nat n)) (float_of_nat num_voiced).
#[warnings="-inexact-float"]
Definition float_exceeds_090 (num_unvoiced n : nat) : bool :=
  PrimFloat.ltb (PrimFloat.mul 0.90%float (float_of_nat n)) (float_of_nat num_unvoiced).

(** Two comparisons agree on every count up to the window size, for
    every window size up to [bound]. *)
Definition agree_up_to (f g : nat -> nat -> bool) (bound : nat) : bool :=
  forallb (fun n => forallb (fun k => Bool.eqb (f k n) (g k n)) (seq 0 (S n)))
          (seq 0 (S bound)).

(** The attributes that [__init__] computes from its arguments. *)
Definition CHUNK_SIZE (rate chunk_duration_ms : nat) : nat :=
  rate * chunk_duration_ms / 1000.
Definition NUM_PADDING_CHUNKS_of (padding_duration_ms chunk_duration_ms : nat) : nat :=
  padding_duration_ms / chunk_duration_ms.
Definition NUM_WINDOW_CHUNKS_of (chunk_duration_ms : nat) : nat :=
  400 / chunk_duration_ms.

Section Segmenter.

(** [self.vad.is_speech(chunk, self.RATE)]: the external classifier,
    which raises on a frame that it does not accept. *)
Variable is_speech : bytes -> Py.result bool.
Variable NUM_PADDING_CHUNKS : nat.
Variable NUM_WINDOW_CHUNKS : nat.

Definition NUM_WINDOW_CHUNKS_END : nat := NUM_WINDOW_CHUNKS * 2.

Definition init : state :=
  {| ring_buffer := [];
     triggered := false;
     voiced_frames := [];
     ring_buffer_flags := replicate NUM_WINDOW_CHUNKS 0;
     ring_buffer_index := 0;
     ring_buffer_flags_end := replicate NUM_WINDOW_CHUNKS_END 0;
     ring_buffer_index_end := 0 |}.

Definition num_voiced (s : state) : nat := sum_list (ring_buffer_flags s).
Definition num_unvoiced (s : state) : Z :=
  (Z.of_nat NUM_WINDOW_CHUNKS_END - Z.of_nat (sum_list (ring_buffer_flags_end s)))%Z.

(** The two threshold tests, on the rings of a state. *)
Definition short_exceeds (s : state) : bool :=
  exceeds_080 (num_voiced s) NUM_WINDOW_CHUNKS.
Definition long_exceeds (s : state) : bool :=
  exceeds_090 (num_unvoiced s) NUM_WINDOW_CHUNKS_END.

(** One iteration of the [while not self.leave] loop, on the chunk
    that [resample_and_convert_chunk] returned. *)
Definition step (s : state) (chunk : bytes) : Py.result (state * list event) :=
  do active <- is_speech chunk;
  do flags <- list_setitem (ring_buffer_flags s) (ring_buffer_index s)
                (if active then 1 else 0);
  do index <- py_mod (ring_buffer_index s + 1) NUM_WINDOW_CHUNKS;
  do flags_end <- list_setitem (ring_buffer_flags_end s) (ring_buffer_index_end s)
                    (if active then 1 else 0);
  do index_end <- py_mod (ring_buffer_index_end s + 1) NUM_WINDOW_CHUNKS_END;
  let s1 := {| ring_buffer := ring_buffer s;
               triggered := triggered s;
               voiced_frames := voiced_frames s;
               ring_buffer_flags := flags;
               ring_buffer_index := index;
               ring_buffer_flags_end := flags_end;
               ring_buffer_index_end := index_end |} in
  if negb (triggered s) then
    let rb := deque_append NUM_PADDING_CHUNKS (ring_buffer s) chunk in
    if short_exceeds s1 then
      Py.Return ({| ring_buffer := [];
                    triggered := true;
                    voiced_frames := voiced_frames s ++ rb;
                    ring_buffer_flags := flags;
                    ring_buffer_index := index;
                    ring_buffer_flags_end := flags_end;
                    ring_buffer_index_end := index_end |},
                 [SpeechStarted])
    else
      Py.Return ({| ring_buffer := rb;
                    triggered := false;
                    voiced_frames := voiced_frames s;
                    ring_buffer_flags := flags;
                    ring_buffer_index := index;
                    ring_buffer_flags_end := flags_end;
                    ring_buffer_index_end := index_end |},
                 [])
  else
    let vf := voiced_frames s ++ [chunk] in
    let rb := deque_append NUM_PADDING_CHUNKS (ring_buffer s) chunk in
    if long_exceeds s1 then
      Py.Return ({| ring_buffer := rb;
                    triggered := false;
                    voiced_frames := [];
                    ring_buffer_flags := flags;
                    ring_buffer_index := index;
                    ring_buffer_flags_end := flags_end;
                    ring_buffer_index_end := index_end |},
                 [SpeechEnded; Utterance (concat vf)])
    else
      Py.Return ({| ring_buffer := rb;
                    triggered := true;
                    voiced_frames := vf;
                    ring_buffer_flags := flags;
                    ring_buffer_index := index;
                    ring_buffer_flags_end := flags_end;
                    ring_buffer_index_end := index_end |},
                 []).

(** The loop over the chunks read before [leave] is set.  The trace
    lists, per iteration that completed, the state it left and what
    it made observable; an iteration that raises ends the generator. *)
Fixpoint trace (s : state) (chunks : list bytes) : list (state * list event) :=
  match chunks with
  | [] => []
  | chunk :: rest =>
      match step s chunk with
      | Py.Return (s', evs) => (s', evs) :: trace s' rest
      | Py.Raise _ => []
      end
  end.

(** The utterances the consumer of the generator receives, in order. *)
Definition utterances_of (evs : list event) : list bytes :=
  omap (fun e => match e with Utterance u => Some u | _ => None end) evs.

Definition vad_generator (chunks : list bytes) : list bytes :=
  utterances_of (concat (map snd (trace init chunks))).

(** An iteration yields. *)
Definition yields (evs : list event) : bool :=
  match utterances_of evs with [] => false | _ => true end.

(** *** The two flag rings *)

(** Both rings are written on every iteration, whatever the state,
    at indices that stay congruent modulo the short ring's size: a
    slot of the short ring always holds the flag of one of the two
    slots of the long ring that it shadows. *)
Definition rings_ok (s : state) : Prop :=
  length (ring_buffer_flags s) = NUM_WINDOW_CHUNKS /\
  length (ring_buffer_flags_end s) = NUM_WINDOW_CHUNKS_END /\
  (ring_buffer_index_end s = ring_buffer_index s \/
   ring_buffer_index_end s = NUM_WINDOW_CHUNKS + ring_buffer_index s) /\
  (0 < NUM_WINDOW_CHUNKS -> ring_buffer_index s < NUM_WINDOW_CHUNKS) /\
  (forall p x, ring_buffer_flags s !! p = Some x ->
     ring_buffer_flags_end s !! p = Some x \/
     ring_buffer_flags_end s !! (NUM_WINDOW_CHUNKS + p) = Some x).

(** Consecutive iterations of the loop. *)
Inductive run : state -> list (state * list event) -> Prop :=
| run_nil s : run s []
| run_cons s chunk s' evs tr :
    step s chunk = Py.Return (s', evs) ->
    run s' tr ->
    run s ((s', evs) :: tr).

(** The state that a trace leaves. *)
Definition final (s : state) (tr : list (state * list event)) : state :=
  default s (fst <$> last tr).

(** A trace splits at a point where the short window exceeds its
    threshold and after which the long window does not exceed its
    own. *)
Definition started_and_not_ended (tr : list (state * list event)) : Prop :=
  exists pre si ei mid,
    tr = pre ++ (si, ei) :: mid /\
    short_exceeds si = true /\
    Forall (fun x => long_exceeds (fst x) = false) mid.

(** A chunk is in exactly one of the utterance accumulator and the
    padding buffer. *)
Definition in_exactly_one (s : state) (chunk : bytes) : Prop :=
  ((chunk ∈ voiced_frames s) /\ (chunk ∉ ring_buffer s)) \/
  ((chunk ∉ voiced_frames s) /\ (chunk ∈ ring_buffer s)).

(** The accumulator is empty while Idle; while Recording it is, like
    the padding buffer at any time, a run of the most recent chunks. *)
Definition frames_ok (s : state) (processed : list bytes) : Prop :=
  ring_buffer s `suffix_of` processed /\
  (if triggered s then voiced_frames s `suffix_of` processed
   else voiced_frames s = []).

End Segmenter.

(** Concrete streams, to evaluate the segmenter on.  A frame is two
    bytes (one 16-bit sample): the first tells the stand-in classifier
    whether the frame is voiced, the second numbers the frame so that
    frames of a stream are pairwise distinct. *)
Module Scenario.

Definition is_speech (chunk : bytes) : Py.result bool :=
  match chunk with
  | b :: _ => Py.Return (negb (Byte.eqb b x00))
  | [] => Py.Raise (Py.Exception_ "webrtcvad.Error")
  end.

Definition frame (i : nat) (voiced : bool) : bytes :=
  [if voiced then x01 else x00; default x00 (Byte.of_nat i)].

Definition stream (flags : list bool) : list bytes := imap frame flags.

(** The default configuration: 30 ms chunks, 1500 ms of padding. *)
Definition padding : nat := NUM_PADDING_CHUNKS_of 1500 30.
Definition window : nat := NUM_WINDOW_CHUNKS_of 30.

(** Scenario A: 10 silent chunks, 15 voiced chunks, 60 silent chunks. *)
Definition scenario_A : list bytes :=
  stream (replicate 10 false ++ replicate 15 true ++ replicate 60 false).

(** Scenario A, then speech again: 15 voiced and 30 silent chunks. *)
Definition two_utterances : list bytes :=
  stream (replicate 10 false ++ replicate 15 true ++ replicate 60 false
          ++ replicate 15 true ++ replicate 30 false).

End Scenario.

End Vad.

(** ** The frame normaliser: [VoiceActivityDetector.resample_and_convert_chunk] *)

Module Normalizer.

Local Open Scope Z_scope.

(** One little-endian signed 16-bit sample. *)
Definition int16_of_le (lo hi : Byte.byte) : Z :=
  let u := Z.of_N (Byte.to_N lo) + 256 * Z.of_N (Byte.to_N hi) in
  if u <? 32768 then u else u - 65536.

Definition le_of_int16 (v : Z) : bytes :=
  let u := v mod 65536 in
  [default x00 (Byte.of_N (Z.to_N (u mod 256)));
   default x00 (Byte.of_N (Z.to_N (u / 256)))].

(** [np.frombuffer(chunk, dtype=np.int16)]: [ValueError] when the
    buffer size is not a multiple of the element size. *)
Fixpoint frombuffer (chunk : bytes) : Py.result (list Z) :=
  match chunk with
  | [] => Py.Return []
  | [_] => Py.Raise Py.ValueError
  | lo :: hi :: rest =>
      do samples <- frombuffer rest;
      Py.Return (int16_of_le lo hi :: samples)
  end.

(** [audio_data.tobytes()] *)
Definition tobytes (audio_data : list Z) : bytes :=
  concat (map le_of_int16 audio_data).

(** [audio_data.reshape(-1, channels)]: [ValueError] when the size is
    not a multiple of [channels]. *)
Definition reshape_rows (audio_data : list Z) (channels : nat) : Py.result (list (list Z)) :=
  if (length audio_data mod channels =? 0)%nat
  then Py.Return (reshape (replicate (length audio_data / channels) channels) audio_data)
  else Py.Raise Py.ValueError.

Definition sum_Z (row : list Z) : Z := foldr Z.add 0 row.

(** One row of [audio_data.mean(axis=1).astype(np.int16)]: the mean is
    a float, the cast truncates it toward zero.  The sum of the int16
    samples of a row is exact in binary64, and the quotient of two such
    integers is never rounded across an integer. *)
Definition mean_int16 (row : list Z) : Z :=
  Z.quot (sum_Z row) (Z.of_nat (length row)).

(** [round(p / q)] for [q > 0]: to nearest, ties to even. *)
Definition py_round_div (p q : Z) : Z :=
  let f := p / q in
  let r := p mod q in
  if 2 * r <? q then f
  else if q <? 2 * r then f + 1
  else if Z.even f then f else f + 1.

(** [p / q] on positive ints, as CPython computes it: the quotient
    rounded to binary64, to nearest with ties to even.  The result is a
    mantissa of 53 bits and a power of two: the exponent is chosen so
    that the scaled quotient lies between 2^52 and 2^53, and the scaled
    quotient is rounded to an integer. *)
Definition true_divide (p q : Z) : Z * Z :=
  let scaled e := if 0 <=? e then (p, q * 2 ^ e) else (p * 2 ^ (- e), q) in
  let e0 := Z.log2 p - Z.log2 q - 53 in
  let '(n0, d0) := scaled e0 in
  let e := if 2 ^ 53 * d0 <=? n0 then e0 + 1 else e0 in
  let '(n, d) := scaled e in
  (py_round_div n d, e).

(** [int(a / b)] on ints: true division, then truncation toward zero.
    The division raises [OverflowError] when the rounded quotient is
    2^1024 or more.  A quotient below 2^-1022 is rounded more coarsely
    than to 53 bits, and truncates to 0 all the same. *)
Definition py_int_div (a b : Z) : Py.result Z :=
  if b =? 0 then Py.Raise Py.ZeroDivisionError
  else if a =? 0 then Py.Return 0
  else
    let '(m, e) := true_divide (Z.abs a) (Z.abs b) in
    if 0 <=? e then
      if 2 ^ 1024 <=? m * 2 ^ e then Py.Raise (Py.Exception_ "OverflowError")
      else Py.Return (Z.sgn a * Z.sgn b * (m * 2 ^ e))
    else Py.Return (Z.sgn a * Z.sgn b * (m / 2 ^ (- e))).

Section Normalizer.

(** [scipy.signal.resample(x, num).astype(np.int16)]: the external
    band-limited resampler, which raises when it is asked for no sample
    or for a negative number of them. *)
Variable resample : list Z -> Z -> Py.result (list Z).

Variable input_channels : Z.
Variable input_rate : Z.
Variable RATE : Z.

(** The down-mix that the function computes into [audio_data]. *)
Definition downmix (audio_data : list Z) : Py.result (list Z) :=
  if 1 <? input_channels then
    do rows <- reshape_rows audio_data (Z.to_nat input_channels);
    Py.Return (map mean_int16 rows)
  else Py.Return audio_data.

Definition resample_and_convert_chunk (chunk : bytes) : Py.result bytes :=
  do audio_data <- frombuffer chunk;
  do audio_data <- downmix audio_data;
  if negb (input_rate =? RATE) then
    do num <- py_int_div (Z.of_nat (length audio_data) * RATE) input_rate;
    do audio_data <- resample audio_data num;
    Py.Return (tobytes audio_data)
  else
    Py.Return chunk.

End Normalizer.

(** A stand-in for the external resampler, to evaluate the normaliser
    on: silence of the requested length, and an exception when no
    sample or a negative number of samples is requested. *)
Module Scenario.

Definition resample (x : list Z) (num : Z) : Py.result (list Z) :=
  if num <? 0 then Py.Raise Py.IndexError
  else if num =? 0 then Py.Raise Py.ValueError
  else Py.Return (replicate (Z.to_nat num) 0).

End Scenario.

End Normalizer.

(** ** Device selection: [LoopbackDeviceStrategy.select_device] and
       [VoiceActivityDetector.__init__] *)

Module Device.

(** [hay.startswith(needle)] *)
Fixpoint starts_with (needle hay : string) : bool :=
  match needle with
  | EmptyString => true
  | String a needle' =>
      match hay with
      | EmptyString => false
      | String b hay' => Ascii.eqb a b && starts_with needle' hay'
      end
  end.

(** [needle in hay] on [str]. *)
Fixpoint contains (needle hay : string) : bool :=
  starts_with needle hay ||
  match hay with
  | EmptyString => false
  | String _ hay' => contains needle hay'
  end.

(** The fields of a PyAudio device-info dictionary that are read. *)
Record device_info : Type := {
  index : Z;
  name : string;
  isLoopbackDevice : bool;
  maxInputChannels : Z;
  defaultSampleRate : Z * positive   (* a float, as a fraction *)
}.

(** The dictionary a strategy returns. *)
Record selection : Type := {
  sel_index : Z;
  channels : Z;
  frame_rate : Z
}.

(** What the PyAudio instance answers: the device behind
    [wasapi_info["defaultOutputDevice"]]; what
    [get_default_input_device_info()] gives, which raises when there is
    no default input device; the loopback devices in the order of
    [get_loopback_device_info_generator()]; and the exception that
    [open] raises, if any, for the index, the channels and the rate of a
    selection, its other arguments being those of the constructor
    call. *)
Record pyaudio : Type := {
  default_output_device : device_info;
  default_input_device : Py.result device_info;
  loopback_devices : list device_info;
  open : selection -> option Py.exc
}.

(** [int(x)] on a float. *)
Definition int_of_float (x : Z * positive) : Z := Z.quot (fst x) (Z.pos (snd x)).

(** The [for ... else] search of the loopback strategy. *)
Fixpoint first_loopback (wanted : string) (devices : list device_info)
  : Py.result device_info :=
  match devices with
  | [] => Py.Raise (Py.RuntimeError "No suitable loopback device found.")
  | loopback :: rest =>
      if contains wanted (name loopback) then Py.Return loopback
      else first_loopback wanted rest
  end.

Inductive strategy : Type := DefaultDeviceStrategy | LoopbackDeviceStrategy.

Definition select_device (st : strategy) (pa : pyaudio) : Py.result selection :=
  match st with
  | DefaultDeviceStrategy =>
      do default_device_info <- default_input_device pa;
      Py.Return {| sel_index := index default_device_info;
                   channels := 1;
                   frame_rate := 16000 |}
  | LoopbackDeviceStrategy =>
      let default_speakers := default_output_device pa in
      do default_speakers <-
        (if negb (isLoopbackDevice default_speakers)
         then first_loopback (name default_speakers) (loopback_devices pa)
         else Py.Return default_speakers);
      Py.Return {| sel_index := index default_speakers;
                   channels := maxInputChannels default_speakers;
                   frame_rate := int_of_float (defaultSampleRate default_speakers) |}
  end.

(** The attributes of a constructed [VoiceActivityDetector] that depend
    on the device. *)
Record detector : Type := {
  input_channels : Z;
  input_rate : Z;
  input_device_index : Z
}.

(** [VoiceActivityDetector.__init__], from the selection of the device
    on: neither the strategy's exception nor that of [self.pa.open] is
    handled, so that no detector is constructed then. *)
Definition VoiceActivityDetector (st : strategy) (pa : pyaudio) : Py.result detector :=
  do device_info <- select_device st pa;
  match open pa device_info with
  | Some e => Py.Raise e
  | None =>
      Py.Return {| input_channels := channels device_info;
                   input_rate := frame_rate device_info;
                   input_device_index := sel_index device_info |}
  end.

(** Two device lists, to evaluate the loopback strategy on: the default
    output device is the speakers; its loopback twin is listed second in
    the first list and missing from the second. *)
Module Scenario.

Local Open Scope string_scope.
Local Open Scope Z_scope.

Definition speakers : device_info :=
  {| index := 4; name := "Speakers (Realtek Audio)"; isLoopbackDevice := false;
     maxInputChannels := 0; defaultSampleRate := (48000, 1%positive) |}.
Definition headphones_loopback : device_info :=
  {| index := 11; name := "Headphones (USB Audio) [Loopback]"; isLoopbackDevice := true;
     maxInputChannels := 2; defaultSampleRate := (44100, 1%positive) |}.
Definition speakers_loopback : device_info :=
  {| index := 12; name := "Speakers (Realtek Audio) [Loopback]"; isLoopbackDevice := true;
     maxInputChannels := 2; defaultSampleRate := (48000, 1%positive) |}.
Definition microphone : device_info :=
  {| index := 1; name := "Microphone (Realtek Audio)"; isLoopbackDevice := false;
     maxInputChannels := 2; defaultSampleRate := (44100, 1%positive) |}.

Definition with_twin : pyaudio :=
  {| default_output_device := speakers;
     default_input_device := Py.Return microphone;
     loopback_devices := [headphones_loopback; speakers_loopback];
     open := fun _ => None |}.
Definition without_twin : pyaudio :=
  {| default_output_device := speakers;
     default_input_device := Py.Return microphone;
     loopback_devices := [headphones_loopback];
     open := fun _ => None |}.

(** The same devices without a default input device, and with a
    microphone that cannot be opened at 16 kHz. *)
Definition without_microphone : pyaudio :=
  {| default_output_device := speakers;
     default_input_device := Py.Raise (Py.Exception_ "OSError");
     loopback_devices := [headphones_loopback];
     open := fun _ => None |}.
Definition rejected_rate : pyaudio :=
  {| default_output_device := speakers;
     default_input_device := Py.Return microphone;
     loopback_devices := [headphones_loopback];
     open := fun sel => if frame_rate sel =? 16000 then Some (Py.Exception_ "OSError")
                        else None |}.

End Scenario.

End Device.

(** ** [str] helpers *)

(** A Python [str] is a sequence of code points.  It is held as the
    bytes of its UTF-8 encoding, a lone surrogate, which [json.loads]
    can produce, as the three bytes that the same scheme gives its code
    point: a code point is a byte that is not a continuation byte
    followed by its continuation bytes.  Concatenation, the comparison
    with a text, the split at a newline and the test of the last
    character against the newline are the same on the bytes as on the
    code points; a slice and the white space are not, and go through the
    code points. *)

Module Str.

Local Open Scope string_scope.

Definition newline : ascii := "010"%char.

(** A byte 10xxxxxx, which continues a code point. *)
Definition is_continuation (c : ascii) : bool :=
  let n := nat_of_ascii c in ((128 <=? n) && (n <? 192))%nat.

(** The code points of [s], each as its bytes. *)
Fixpoint chars (s : string) : list string :=
  match s with
  | EmptyString => []
  | String c rest =>
      match chars rest with
      | String c' ch :: chs =>
          if is_continuation c' then String c (String c' ch) :: chs
          else String c EmptyString :: String c' ch :: chs
      | chs => String c EmptyString :: chs
      end
  end.

(** The text of a sequence of code points. *)
Definition join (chs : list string) : string := foldr String.append EmptyString chs.

(** [s[:1]] and [s[1:]]: the first code point, and what follows it. *)
Definition take1 (s : string) : string :=
  match chars s with
  | [] => EmptyString
  | ch :: _ => ch
  end.
Definition drop1 (s : string) : string :=
  match chars s with
  | [] => EmptyString
  | _ :: chs => join chs
  end.

(** [s[-1]]: [IndexError] on the empty string.  The last byte is
    given, which is the newline exactly when the last code point is. *)
Fixpoint last (s : string) : Py.result ascii :=
  match s with
  | EmptyString => Py.Raise Py.IndexError
  | String c EmptyString => Py.Return c
  | String _ rest => last rest
  end.

(** [s.split("\n")] *)
Fixpoint split_lines (s : string) : list string :=
  match s with
  | EmptyString => [EmptyString]
  | String c rest =>
      if Ascii.eqb c newline then EmptyString :: split_lines rest
      else match split_lines rest with
           | line :: lines => String c line :: lines
           | [] => [String c EmptyString]
           end
  end.

(** The number of the code point that the bytes [ch] encode: the low
    bits of the first byte, then six bits of every continuation byte. *)
Definition codepoint (ch : string) : N :=
  match ch with
  | EmptyString => 0
  | String c rest =>
      let n := N_of_ascii c in
      let lead := if n <? 128 then n
                  else if n <? 224 then n - 192
                  else if n <? 240 then n - 224
                  else n - 240 in
      fold_left (fun acc b => acc * 64 + (N_of_ascii b - 128))
                (list_ascii_of_string rest) lead
  end%N.

(** The white space of [str.strip()]: the code points that
    [str.isspace] accepts, in all of Unicode. *)
Definition isspace (cp : N) : bool :=
  ((9 <=? cp) && (cp <=? 13) || (28 <=? cp) && (cp <=? 32)
   || (cp =? 133) || (cp =? 160) || (cp =? 5760)
   || (8192 <=? cp) && (cp <=? 8202)
   || (cp =? 8232) || (cp =? 8233) || (cp =? 8239) || (cp =? 8287)
   || (cp =? 12288))%N.

Fixpoint lstrip_chars (chs : list string) : list string :=
  match chs with
  | [] => []
  | ch :: rest => if isspace (codepoint ch) then lstrip_chars rest else chs
  end.

Definition rstrip_chars (chs : list string) : list string :=
  rev (lstrip_chars (rev chs)).

Definition lstrip (s : string) : string := join (lstrip_chars (chars s)).
Definition rstrip (s : string) : string := join (rstrip_chars (chars s)).

(** [s.strip()] *)
Definition strip (s : string) : string :=
  join (rstrip_chars (lstrip_chars (chars s))).

(** [bool(s)] *)
Definition truthy (s : string) : bool :=
  match s with
  | EmptyString => false
  | _ => true
  end.

End Str.

(** ** Recognition: [SpeechRecognizer.__call__] *)

Module Recognizer.

Local Open Scope string_scope.

(** What [await self.client.post(...)] does on one attempt. *)
Inductive post_outcome : Type :=
| PostRaises (e : Py.exc)
| PostResponse (content : bytes).

(** What the handlers of the outer [try] report, through
    [error_messages_callback] or [print]. *)
Inductive report : Type :=
| Cancelling          (* "Cancelling all tasks" *)
| Failure (e : Py.exc).

Section Recognizer.

(** [content.decode("utf-8")]; [None] stands for [UnicodeDecodeError]. *)
Variable decode_utf8 : bytes -> option string.
(** [json.loads(line)["result"][0]["alternative"][0]["transcript"]]
    when that is a [str]; [None] when any step of the inner [try]
    raises, which the bare [except] turns into [continue]. *)
Variable transcript_of_line : string -> option string.
(** [str.upper] *)
Variable upper : string -> string.
(** The outcome of the i-th call of [self.client.post], from 0. *)
Variable post : nat -> post_outcome.

(** [line[:1].upper() + line[1:]] *)
Definition capitalize_first (line : string) : string :=
  upper (Str.take1 line) ++ Str.drop1 line.

(** The [for line in ...] loop. *)
Fixpoint scan_lines (lines : list string) : option string :=
  match lines with
  | [] => None
  | line :: rest =>
      match transcript_of_line line with
      | Some transcript => Some (capitalize_first transcript)
      | None => scan_lines rest
      end
  end.

(** The [for i in range(self.retries)] loop with [n] iterations
    left, [i] calls of [post] made so far.  The second component
    counts the calls made. *)
Fixpoint attempt_loop (n i : nat) : Py.result (option string) * nat :=
  match n with
  | 0 => (Py.Return None, i)
  | S n' =>
      match post i with
      | PostRaises e =>
          if Py.is_Exception e then attempt_loop n' (S i)
          else (Py.Raise e, S i)
      | PostResponse content =>
          match decode_utf8 content with
          | None => (Py.Raise Py.UnicodeDecodeError, S i)
          | Some body =>
              match scan_lines (Str.split_lines body) with
              | Some text => (Py.Return (Some text), S i)
              | None => attempt_loop n' (S i)
              end
          end
      end
  end.

(** The handlers of the outer [try]. *)
Definition handlers (r : Py.result (option string))
  : Py.result (option string) * option report :=
  match r with
  | Py.Return v => (Py.Return v, None)
  | Py.Raise Py.KeyboardInterrupt => (Py.Return None, Some Cancelling)
  | Py.Raise e =>
      if Py.is_Exception e then (Py.Return None, Some (Failure e))
      else (Py.Raise e, None)
  end.

Record outcome : Type := {
  result : Py.result (option string);
  attempts : nat;
  reported : option report
}.

Definition recognize (retries : Z) : outcome :=
  let '(r, k) := attempt_loop (Z.to_nat retries) 0 in
  let '(r', rep) := handlers r in
  {| result := r'; attempts := k; reported := rep |}.

(** An attempt that gives no transcript. *)
Definition attempt_fails (o : post_outcome) : Prop :=
  match o with
  | PostRaises e => Py.is_Exception e = true \/ e = Py.KeyboardInterrupt
  | PostResponse content =>
      match decode_utf8 content with
      | None => True
      | Some body => scan_lines (Str.split_lines body) = None
      end
  end.

End Recognizer.

(** Stand-ins for the external functions, to evaluate the recogniser
    on: the content is decoded byte by byte, a non-empty line is its own
    transcript, and [upper] maps the letters a to z. *)
Module Scenario.

Definition decode_utf8 (content : bytes) : option string :=
  Some (string_of_list_ascii (map ascii_of_byte content)).

Definition transcript_of_line (line : string) : option string :=
  if String.eqb line EmptyString then None else Some line.

Definition upper_ascii (c : ascii) : ascii :=
  let n := nat_of_ascii c in
  if ((97 <=? n) && (n <=? 122))%nat then ascii_of_nat (n - 32) else c.

Fixpoint upper (s : string) : string :=
  match s with
  | EmptyString => EmptyString
  | String c rest => String (upper_ascii c) (upper rest)
  end.

(** The first attempt fails in the transport, the second answers. *)
Definition post (i : nat) : post_outcome :=
  match i with
  | 0 => PostRaises (Py.Exception_ "ConnectError")
  | _ => PostResponse [x0a; x68; x69; x20; x74; x68; x65; x72; x65; x0a]
  end.

(** Every attempt fails in the transport. *)
Definition post_down (i : nat) : post_outcome :=
  PostRaises (Py.Exception_ "ConnectError").

Definition recognize_once (retries : Z) : outcome :=
  recognize decode_utf8 transcript_of_line upper post retries.
Definition recognize_down (retries : Z) : outcome :=
  recognize decode_utf8 transcript_of_line upper post_down retries.

End Scenario.

End Recognizer.

(** ** Translation: [SentenceTranslator.__call__] *)

Module Translator.

Local Open Scope string_scope.

(** [<coroutine object>.text]: the call [self.GoogleTranslate(...)]
    in the loop is not awaited before [.text] is looked up on it (the
    attribute reference binds tighter than [await]), and a coroutine
    object has no such attribute. *)
Definition coroutine_text {A : Type} : Py.result A := Py.Raise Py.AttributeError.

(** [translated_sentence[-1] == "\n"]: [TypeError] on [None]. *)
Definition ends_with_newline (translated_sentence : option string) : Py.result bool :=
  match translated_sentence with
  | None => Py.Raise Py.TypeError
  | Some s => do c <- Str.last s; Py.Return (Ascii.eqb c Str.newline)
  end.

Section Translator.

(** What the i-th awaited call of [self.GoogleTranslate], from 0,
    returns for a text; [None] is Python's [None]. *)
Variable GoogleTranslate : nat -> string -> option string.

(** The [while fail_to_translate and patience] loop; [calls] counts
    the calls of [GoogleTranslate] awaited so far.  [None]: the fuel
    ran out. *)
Fixpoint retry_loop (fuel calls : nat) (translated_sentence : option string)
    (fail_to_translate : bool) (patience : Z)
  : option (Py.result (option string) * nat) :=
  if fail_to_translate && negb (patience =? 0)%Z then
    match fuel with
    | 0 => None
    | S fuel' =>
        match coroutine_text with
        | Py.Raise e => Some (Py.Raise e, calls)
        | Py.Return translated_sentence =>
            match ends_with_newline translated_sentence with
            | Py.Raise e => Some (Py.Raise e, S calls)
            | Py.Return true =>
                if (patience =? -1)%Z
                then retry_loop fuel' (S calls) translated_sentence true patience
                else retry_loop fuel' (S calls) translated_sentence true (patience - 1)%Z
            | Py.Return false =>
                retry_loop fuel' (S calls) translated_sentence false patience
            end
        end
    end
  else Some (Py.Return translated_sentence, calls).

(** The body of the [try]. *)
Definition translate_body (fuel : nat) (patience : Z) (sentence : string)
  : option (Py.result (option string) * nat) :=
  if negb (Str.truthy sentence) then Some (Py.Return None, 0)
  else
    let translated_sentence := GoogleTranslate 0 sentence in
    match ends_with_newline translated_sentence with
    | Py.Raise e => Some (Py.Raise e, 1)
    | Py.Return fail_to_translate =>
        retry_loop fuel 1 translated_sentence fail_to_translate patience
    end.

Record outcome : Type := {
  result : Py.result (option string);
  calls : nat;
  reported : option Recognizer.report
}.

(** [SentenceTranslator.__call__], with the handlers of its [try]. *)
Definition translate (fuel : nat) (patience : Z) (sentence : string) : option outcome :=
  match translate_body fuel patience sentence with
  | None => None
  | Some (r, k) =>
      let '(r', rep) := Recognizer.handlers r in
      Some {| result := r'; calls := k; reported := rep |}
  end.

End Translator.

(** Translation contracts, to evaluate the translator on. *)
Module Scenario.

Definition sentinel (s : string) : string := s ++ String Str.newline EmptyString.

(** Scenario B: a sentinel-terminated failure twice, then a success. *)
Definition fails_twice (i : nat) (text : string) : option string :=
  match i with
  | 0 | 1 => Some (sentinel "hallo")
  | _ => Some "hallo welt"
  end.

(** Scenario C: a sentinel-terminated failure on every call. *)
Definition always_fails (i : nat) (text : string) : option string :=
  Some (sentinel "hallo").

(** The ideographic space U+3000, three bytes, which [str.strip]
    removes, and a contract whose every answer is blank: that space and
    the sentinel. *)
Definition ideographic_space : string :=
  String "227"%char (String "128"%char (String "128"%char EmptyString)).
Definition answers_blank (i : nat) (text : string) : option string :=
  Some (sentinel ideographic_space).

End Scenario.

End Translator.

(** ** The pipeline: [AbstractProcessor] *)

Module Pipeline.

Local Open Scope string_scope.

(** What an item makes observable. *)
Inductive published : Type :=
| NewTranslation (text : string)   (* self.new_translation_signal.emit(text) *)
| Action (text : string)           (* action(text) *).

(** [process_result_of_queue_processing]; [action] tells whether
    [on_translated] is set. *)
Definition process_result_of_queue_processing
    (translated_text : option string) (action : bool) : list published :=
  match translated_text with
  | Some text =>
      if Str.truthy text && negb (String.eqb (Str.strip text) EmptyString) then
        NewTranslation text :: (if action then [Action text] else [])
      else []
  | None => []
  end.

(** The part of the loop body of [async_run] that follows the
    transcription of an item.  An exception is caught by the loop. *)
Definition process_transcription
    (GoogleTranslate : nat -> string -> option string) (fuel : nat) (patience : Z)
    (action : bool) (transcription : option string) : option (list published) :=
  match transcription with
  | Some text =>
      if Str.truthy text && negb (String.eqb (Str.strip text) EmptyString) then
        match Translator.translate GoogleTranslate fuel patience text with
        | None => None
        | Some o =>
            match Translator.result o with
            | Py.Return translation =>
                Some (process_result_of_queue_processing translation action)
            | Py.Raise _ => Some []
            end
        end
      else Some []
  | None => Some []
  end.

End Pipeline.

(** ** The stream handler: [AbstractStreamHandler.run] *)

Module Handler.

(** The statements of [run], and of the generator it iterates, that
    matter for the order of events. *)
Inductive action : Type :=
| SetInitialized                     (* self.initialized = True *)
| ProcessorStart                     (* self.processor.start() *)
| StartStream                        (* self.stream.start_stream() *)
| ReadChunk (chunk : bytes)          (* self.stream.read(self.CHUNK_SIZE) *)
| Waveform (speaking : bool)         (* self.update_waveform_signal.emit(_) *)
| ProcessWavData (sentence : bytes)  (* self.process_wav_data(sentence) *)
| StopStream                         (* stop_stream(); close(); terminate() *)
| PrintException (e : Py.exc)
| StopProcessing                     (* self.stop_processing() *).

Definition action_of_event (e : Vad.event) : action :=
  match e with
  | Vad.SpeechStarted => Waveform true
  | Vad.SpeechEnded => Waveform false
  | Vad.Utterance sentence => ProcessWavData sentence
  end.

Section Handler.

Variable is_speech : bytes -> Py.result bool.
Variable NUM_PADDING_CHUNKS : nat.
Variable NUM_WINDOW_CHUNKS : nat.

(** The generator, driven by the [for] loop of [run], over the
    chunks that the device produces before [leave] is set. *)
Fixpoint generator_actions (s : Vad.state) (chunks : list bytes) : list action :=
  match chunks with
  | [] => [StopStream]
  | chunk :: rest =>
      ReadChunk chunk ::
      match Vad.step is_speech NUM_PADDING_CHUNKS NUM_WINDOW_CHUNKS s chunk with
      | Py.Raise e => [PrintException e]
      | Py.Return (s', evs) => map action_of_event evs ++ generator_actions s' rest
      end
  end.

Definition run (chunks : list bytes) : list action :=
  SetInitialized :: ProcessorStart :: StartStream ::
  generator_actions (Vad.init NUM_WINDOW_CHUNKS) chunks ++ [StopProcessing].

End Handler.

(** The [initialized] attribute once the actions [done] have run, on
    a handler that [__init__] left with [initialized = False]. *)
Definition initialized (done : list action) : bool :=
  existsb (fun a => match a with SetInitialized => true | _ => false end) done.

(** The number of frames the device stream has produced. *)
Definition frames_produced (done : list action) : nat :=
  length (List.filter (fun a => match a with ReadChunk _ => true | _ => false end) done).

End Handler.

(** ** The segmenter's windows and events, read on the stream *)

Module VadStream.

(** A ring of flags read from its write index on, oldest flag first. *)
Definition unrolled (index : nat) (flags : list nat) : list nat :=
  drop index flags ++ take index flags.

(** A ring of [n] slots that was filled with zeros and then written with
    the flags [hist], one after the other, holds the last [n] of them. *)
Definition ring_holds (n index : nat) (flags hist : list nat) : Prop :=
  length flags = n /\ index < n /\
  unrolled index flags = drop (length hist) (replicate n 0 ++ hist).

(** The order in which the generator calls back and yields: a start, then
    an end followed at once by the utterance, and so on. *)
Fixpoint protocol (recording : bool) (evs : list Vad.event) : bool :=
  match evs with
  | [] => true
  | Vad.SpeechStarted :: rest => negb recording && protocol true rest
  | Vad.SpeechEnded :: Vad.Utterance _ :: rest => recording && protocol false rest
  | _ => false
  end.

Definition count_started (evs : list Vad.event) : nat :=
  length (List.filter (fun e => match e with Vad.SpeechStarted => true | _ => false end) evs).
Definition count_ended (evs : list Vad.event) : nat :=
  length (List.filter (fun e => match e with Vad.SpeechEnded => true | _ => false end) evs).

Section Stream.

Variable is_speech : bytes -> Py.result bool.
Variable NUM_PADDING_CHUNKS : nat.
Variable NUM_WINDOW_CHUNKS : nat.

(** The flag that an iteration writes into both rings for a chunk. *)
Definition heard (chunk : bytes) : nat :=
  match is_speech chunk with
  | Py.Return true => 1
  | _ => 0
  end.

(** The number of voiced chunks among the last [n] chunks processed. *)
Definition voiced_in_last (n : nat) (processed : list bytes) : nat :=
  sum_list (heard <$> drop (length processed - n) processed).

Definition windows_ok (s : Vad.state) (processed : list bytes) : Prop :=
  ring_holds NUM_WINDOW_CHUNKS (Vad.ring_buffer_index s) (Vad.ring_buffer_flags s)
    (heard <$> processed) /\
  ring_holds (Vad.NUM_WINDOW_CHUNKS_END NUM_WINDOW_CHUNKS) (Vad.ring_buffer_index_end s)
    (Vad.ring_buffer_flags_end s) (heard <$> processed).

(** Everything the generator makes observable on a stream, in order. *)
Definition events (chunks : list bytes) : list Vad.event :=
  concat (map snd (Vad.trace is_speech NUM_PADDING_CHUNKS NUM_WINDOW_CHUNKS
                     (Vad.init NUM_WINDOW_CHUNKS) chunks)).

(** No voiced flag is held and the machine is Idle. *)
Definition quiet (s : Vad.state) : Prop :=
  Vad.triggered s = false /\
  Vad.ring_buffer_flags s = replicate NUM_WINDOW_CHUNKS 0.

End Stream.

(** A stream of silence under the default configuration. *)
Definition silence : list bytes := Vad.Scenario.stream (replicate 100 false).

End VadStream.

(** ** Samples: the int16 range, [int2float] and [play_audio] of the
       detector *)

Module Audio.

Local Open Scope Z_scope.

Definition is_int16 (v : Z) : Prop := -32768 <= v < 32768.

(** [np.abs] on an int16 array: the most negative value has no positive
    counterpart and comes back as it is. *)
Definition abs_int16 (v : Z) : Z :=
  if v =? -32768 then -32768 else Z.abs v.

(** [a.max()]: [ValueError] on an empty array. *)
Definition np_max (a : list Z) : Py.result Z :=
  match a with
  | [] => Py.Raise Py.ValueError
  | v :: rest => Py.Return (foldl Z.max v rest)
  end.

(** [VoiceActivityDetector.int2float].  The samples become float32, which
    holds every int16 exactly, and are multiplied by [1 / 32768], a power
    of two, which is exact as well: the values are the rationals below. *)
Definition int2float (sound : list Z) : Py.result (list Q) :=
  do abs_max <- np_max (map abs_int16 sound);
  Py.Return (map (fun v => if 0 <? abs_max then Qmake v 32768 else inject_Z v) sound).

(** What [play_audio] hands to the speaker for a buffer. *)
Definition play_audio (audio_buffer : bytes) : Py.result (list Q) :=
  do sound <- Normalizer.frombuffer audio_buffer;
  int2float sound.

End Audio.

(** ** The attempts of the recogniser, and the JSON of a response line *)

Module RecognizerAttempts.

Section Attempts.

Variable decode_utf8 : bytes -> option string.
Variable transcript_of_line : string -> option string.
Variable upper : string -> string.

(** An attempt after which the loop goes on to the next one: the
    transport raised an [Exception], or the response has no line with a
    transcript. *)
Definition retried (o : Recognizer.post_outcome) : Prop :=
  match o with
  | Recognizer.PostRaises e => Py.is_Exception e = true
  | Recognizer.PostResponse content =>
      exists body,
        decode_utf8 content = Some body /\
        Recognizer.scan_lines transcript_of_line upper (Str.split_lines body) = None
  end.

End Attempts.

(** Stand-ins: a decoder that rejects the byte ff, a transport that
    answers with it on the second attempt, and one that is interrupted
    there. *)
Module Scenario.

Definition decode_strict (content : bytes) : option string :=
  if existsb (Byte.eqb xff) content then None
  else Recognizer.Scenario.decode_utf8 content.

Definition post_garbled (i : nat) : Recognizer.post_outcome :=
  match i with
  | 0 => Recognizer.PostRaises (Py.Exception_ "ConnectError")
  | 1 => Recognizer.PostResponse [x68; xff]
  | _ => Recognizer.PostResponse [x68; x69]
  end.

Definition post_interrupted (i : nat) : Recognizer.post_outcome :=
  match i with
  | 0 => Recognizer.PostRaises (Py.Exception_ "ConnectError")
  | 1 => Recognizer.PostRaises Py.KeyboardInterrupt
  | _ => Recognizer.PostResponse [x68; x69]
  end.

End Scenario.

End RecognizerAttempts.

Module Json.

Local Open Scope string_scope.

(** A value that [json.loads] returns.  The members of an object are
    those of the parsed [dict], each key once. *)
#[warnings="-register-all"]
Inductive value : Type :=
| Null
| Bool (b : bool)
| Number (literal : string)
| Str (s : string)
| Array (items : list value)
| Object (members : list (string * value)).

Fixpoint member (key : string) (members : list (string * value)) : option value :=
  match members with
  | [] => None
  | (k, v) :: rest => if String.eqb k key then Some v else member key rest
  end.

(** [v[key]] for a [str] key. *)
Definition getitem_key (v : value) (key : string) : Py.result value :=
  match v with
  | Object members =>
      match member key members with
      | Some x => Py.Return x
      | None => Py.Raise (Py.Exception_ "KeyError")
      end
  | _ => Py.Raise Py.TypeError
  end.

(** [v[i]] for an [int] index. *)
Definition getitem_index (v : value) (i : nat) : Py.result value :=
  match v with
  | Array items =>
      match nth_error items i with
      | Some x => Py.Return x
      | None => Py.Raise Py.IndexError
      end
  | Str s =>
      match nth_error (Str.chars s) i with
      | Some ch => Py.Return (Str ch)
      | None => Py.Raise Py.IndexError
      end
  | Object _ => Py.Raise (Py.Exception_ "KeyError")
  | _ => Py.Raise Py.TypeError
  end.

(** [line["result"][0]["alternative"][0]["transcript"]], and whether
    [line[:1].upper() + line[1:]] can be computed on it: only a [str] has
    both a slice and [upper]. *)
Definition transcript_of (line : value) : Py.result string :=
  do result <- getitem_key line "result";
  do first <- getitem_index result 0;
  do alternative <- getitem_key first "alternative";
  do best <- getitem_index alternative 0;
  do transcript <- getitem_key best "transcript";
  match transcript with
  | Str s => Py.Return s
  | Array _ => Py.Raise Py.AttributeError
  | _ => Py.Raise Py.TypeError
  end.

(** The inner [try] of the recogniser on a line, for a parser [loads]
    that gives [None] where [json.loads] raises. *)
Definition transcript_of_line (loads : string -> option value) (line : string)
  : option string :=
  match loads line with
  | None => None
  | Some v =>
      match transcript_of v with
      | Py.Return s => Some s
      | Py.Raise _ => None
      end
  end.

(** The two lines that the service answers with. *)
Module Scenario.

Definition no_result : value := Object [("result", Array [])].

Definition one_result : value :=
  Object [("result",
           Array [Object [("alternative",
                           Array [Object [("transcript", Str "hi there");
                                          ("confidence", Number "0.9")]]);
                          ("final", Bool true)]]);
          ("result_index", Number "0")].

End Scenario.

End Json.

(** ** Responses of the recognition service, to evaluate the recogniser on *)

Module Service.

Local Open Scope string_scope.

(** The text of valid UTF-8 content: the same bytes. *)
Definition text_of (content : bytes) : string :=
  string_of_list_ascii (map ascii_of_byte content).

(** The line without a result that the service sends first,
    [{"result":[]}], and the line with the result for a transcript
    without quotes or escapes,
    [{"result":[{"alternative":[{"transcript":"...","confidence":0.9}],
    "final":true}],"result_index":0}]. *)
Definition no_result_line : bytes :=
  [x7b; x22; x72; x65; x73; x75; x6c; x74; x22; x3a; x5b; x5d; x7d].

Definition result_line (transcript : bytes) : bytes :=
  ([x7b; x22; x72; x65; x73; x75; x6c; x74; x22; x3a; x5b; x7b; x22; x61; x6c; x74;
   x65; x72; x6e; x61; x74; x69; x76; x65; x22; x3a; x5b; x7b; x22; x74; x72; x61;
   x6e; x73; x63; x72; x69; x70; x74; x22; x3a; x22]
  ++ transcript ++
  [x22; x2c; x22; x63; x6f; x6e; x66; x69; x64; x65; x6e; x63; x65; x22; x3a; x30;
   x2e; x39; x7d; x5d; x2c; x22; x66; x69; x6e; x61; x6c; x22; x3a; x74; x72; x75;
   x65; x7d; x5d; x2c; x22; x72; x65; x73; x75; x6c; x74; x5f; x69; x6e; x64; x65;
   x78; x22; x3a; x30; x7d])%list.

(** The content of a response: the two lines, each ended by a newline. *)
Definition content (transcript : bytes) : bytes :=
  (no_result_line ++ [x0a] ++ result_line transcript ++ [x0a])%list.

(** What [json.loads] gives for the line with a result. *)
Definition result_of (transcript : string) : Json.value :=
  Json.Object
    [("result",
      Json.Array
        [Json.Object
           [("alternative",
             Json.Array [Json.Object [("transcript", Json.Str transcript);
                                      ("confidence", Json.Number "0.9")]]);
            ("final", Json.Bool true)]]);
     ("result_index", Json.Number "0")].

(** Two transcripts: "hi there", and the Russian for "hello", six
    letters of two bytes each. *)
Definition hi_there : bytes := [x68; x69; x20; x74; x68; x65; x72; x65].
Definition privet : bytes :=
  [xd0; xbf; xd1; x80; xd0; xb8; xd0; xb2; xd0; xb5; xd1; x82].

(** [json.loads] on the lines of these responses.  The line that
    follows the last newline is empty, and [json.loads] raises on it; no
    other line occurs. *)
Definition loads (line : string) : option Json.value :=
  if String.eqb line (text_of no_result_line) then Some (Json.Object [("result", Json.Array [])])
  else if String.eqb line (text_of (result_line hi_there))
  then Some (result_of (text_of hi_there))
  else if String.eqb line (text_of (result_line privet))
  then Some (result_of (text_of privet))
  else None.

(** The bytes of a code point below 2048. *)
Definition encode (cp : N) : string :=
  if (cp <? 128)%N then String (ascii_of_N cp) EmptyString
  else String (ascii_of_N (192 + cp / 64))
         (String (ascii_of_N (128 + cp mod 64)) EmptyString).

(** [str.upper] on the letters a to z and on the Russian letters from
    U+0430 to U+044F, whose capitals are 32 code points below them; any
    other code point of these transcripts is its own. *)
Definition upper_char (ch : string) : string :=
  let cp := Str.codepoint ch in
  if ((97 <=? cp) && (cp <=? 122) || (1072 <=? cp) && (cp <=? 1103))%N
  then encode (cp - 32)
  else ch.

Definition upper (s : string) : string := Str.join (map upper_char (Str.chars s)).

(** The first attempt fails in the transport, the second answers. *)
Definition post (transcript : bytes) (i : nat) : Recognizer.post_outcome :=
  match i with
  | 0 => Recognizer.PostRaises (Py.Exception_ "ConnectError")
  | _ => Recognizer.PostResponse (content transcript)
  end.

Definition recognize (transcript : bytes) (retries : Z) : Recognizer.outcome :=
  Recognizer.recognize Recognizer.Scenario.decode_utf8 (Json.transcript_of_line loads)
    upper (post transcript) retries.

End Service.

(** ** [SpeechRecognizer_V2.__call__] *)

Module RecognizerV2.

(** What the inner [try] does up to the binding of [response], the call
    [self.client.recognize(config=config, audio=audio)]: it raises, or
    returns a response, of which the transcripts of the alternatives of
    each result are kept. *)
Inductive recognize_outcome : Type :=
| RecognizeRaises (e : Py.exc)
| RecognizeResponse (results : list (list string)).

(** [response.results[0].alternatives[0].transcript] *)
Definition first_transcript (results : list (list string)) : Py.result string :=
  match results with
  | [] => Py.Raise Py.IndexError
  | alternatives :: _ =>
      match alternatives with
      | [] => Py.Raise Py.IndexError
      | transcript :: _ => Py.Return transcript
      end
  end.

Section V2.

(** The outcome of the i-th call of [self.client.recognize], from 0. *)
Variable client_recognize : nat -> recognize_outcome.

(** The [for i in range(self.retries)] loop with [n] iterations to make.
    Its body leaves the loop in the first iteration whatever happens: it
    returns the transcript, or its handler runs, which prints [response]
    and breaks.  When the call itself raised, [response] is not bound
    yet and printing it raises [UnboundLocalError]. *)
Definition attempt_loop (n : nat) : Py.result (option string) * nat :=
  match n with
  | 0 => (Py.Return None, 0)
  | S _ =>
      match client_recognize 0 with
      | RecognizeRaises e =>
          if Py.is_Exception e
          then (Py.Raise (Py.Exception_ "UnboundLocalError"), 1)
          else (Py.Raise e, 1)
      | RecognizeResponse results =>
          match first_transcript results with
          | Py.Return transcript => (Py.Return (Some transcript), 1)
          | Py.Raise _ => (Py.Return None, 1)
          end
      end
  end.

Definition recognize (retries : Z) : Recognizer.outcome :=
  let '(r, k) := attempt_loop (Z.to_nat retries) in
  let '(r', rep) := Recognizer.handlers r in
  {| Recognizer.result := r'; Recognizer.attempts := k; Recognizer.reported := rep |}.

End V2.

End RecognizerV2.

(** ** [SentenceTranslator.GoogleTranslate] *)

Module TranslateRequest.

Local Open Scope string_scope.

(** What [await self.client.get(...)] does: it raises, or returns a
    response with its [status_code] and with what [response.json()]
    gives when it is called. *)
Inductive get_outcome : Type :=
| GetRaises (e : Py.exc)
| GetResponse (status_code : Z) (json : Py.result Json.value).

(** [len(v)] *)
Definition len (v : Json.value) : Py.result nat :=
  match v with
  | Json.Array items => Py.Return (length items)
  | Json.Str s => Py.Return (length (Str.chars s))
  | Json.Object members => Py.Return (length members)
  | _ => Py.Raise Py.TypeError
  end.

(** [translation + v] for a [str] on the left. *)
Definition add (translation : string) (v : Json.value) : Py.result string :=
  match v with
  | Json.Str s => Py.Return (translation ++ s)
  | _ => Py.Raise Py.TypeError
  end.

(** The [for i in range(length)] loop, at index [i] with [n]
    iterations to make. *)
Fixpoint join_segments (response_json : Json.value) (translation : string) (i n : nat)
  : Py.result string :=
  match n with
  | 0 => Py.Return translation
  | S n' =>
      do segment <- Json.getitem_index response_json i;
      do first <- Json.getitem_index segment 0;
      do translation <- add translation first;
      join_segments response_json translation (S i) n'
  end.

(** The body of the [try]. *)
Definition body (o : get_outcome) : Py.result (option string) :=
  match o with
  | GetRaises e => Py.Raise e
  | GetResponse status_code json =>
      if (status_code =? 200)%Z then
        do parsed <- json;
        do response_json <- Json.getitem_index parsed 0;
        do length <- len response_json;
        do translation <- join_segments response_json EmptyString 0 length;
        Py.Return (Some translation)
      else Py.Return None
  end.

Section Handlers.

(** [isinstance(e, requests.exceptions.ConnectionError)] *)
Variable is_ConnectionError : Py.exc -> bool.

(** The three handlers, in the order of the source. *)
Definition handlers (r : Py.result (option string))
  : Py.result (option string) * option Recognizer.report :=
  match r with
  | Py.Return v => (Py.Return v, None)
  | Py.Raise e =>
      if is_ConnectionError e then (Py.Return None, None)
      else match e with
           | Py.KeyboardInterrupt => (Py.Return None, Some Recognizer.Cancelling)
           | _ => if Py.is_Exception e then (Py.Return None, Some (Recognizer.Failure e))
                  else (Py.Raise e, None)
           end
  end.

Definition GoogleTranslate (o : get_outcome)
  : Py.result (option string) * option Recognizer.report :=
  handlers (body o).

End Handlers.

(** The texts of the segments, joined. *)
Definition joined (parts : list string) : string :=
  foldr String.append EmptyString parts.

(** A segment of the response whose first element is the text [s]. *)
Definition segment_of (segment : Json.value) (s : string) : Prop :=
  exists others, segment = Json.Array (Json.Str s :: others).

Module Scenario.

Definition two_segments : Json.value :=
  Json.Array
    [Json.Array [Json.Array [Json.Str "Hallo. "; Json.Str "Hello. "; Json.Null];
                 Json.Array [Json.Str "Wie geht's?"; Json.Str "How are you?"; Json.Null]];
     Json.Null; Json.Str "en"].

End Scenario.

End TranslateRequest.

(** ** [EdgeTTSEngine]: the voice of a language *)

Module EdgeTTS.

Local Open Scope string_scope.

(** [d.get(key, default)]: only a [dict] has the method. *)
Definition dict_get (d : Json.value) (key : string) (default : Json.value)
  : Py.result Json.value :=
  match d with
  | Json.Object members =>
      Py.Return (match Json.member key members with
                 | Some v => v
                 | None => default
                 end)
  | _ => Py.Raise Py.AttributeError
  end.

(** [_load_voice_mapping], on the parsed settings file. *)
Definition _load_voice_mapping (settings : Json.value) : Py.result Json.value :=
  dict_get settings "edge_tts_voice_mapping" (Json.Object []).

Definition default_voices : Json.value :=
  Json.Object [("male", Json.Str "en-US-SteffanNeural");
               ("female", Json.Str "en-US-MichelleNeural")].

(** The first part of [text_to_speech]: the voice that is handed to
    [_convert_async], [None] when the method returns at once. *)
Definition voice_of (language_and_voice_mapping : Json.value) (lang : option string)
  : Py.result (option Json.value) :=
  match lang with
  | None => Py.Return None
  | Some l =>
      if Str.truthy l then
        do entry <- dict_get language_and_voice_mapping l default_voices;
        do voice <- Json.getitem_key entry "male";
        Py.Return (Some voice)
      else Py.Return None
  end.

Section Engine.

(** What [text_to_speech] returns for a text and a [str] voice once the
    voice is chosen: the conversion by the service and the decoding of
    its audio, which may raise. *)
Variable tts_result : Type.
Variable convert : string -> string -> Py.result tts_result.

(** [text + " *** " + voice] in [_convert_async] needs a [str]. *)
Definition text_to_speech (language_and_voice_mapping : Json.value)
    (text : string) (lang : option string) : Py.result (option tts_result) :=
  do voice <- voice_of language_and_voice_mapping lang;
  match voice with
  | None => Py.Return None
  | Some (Json.Str v) => do r <- convert text v; Py.Return (Some r)
  | Some _ => Py.Raise Py.TypeError
  end.

End Engine.

Module Scenario.

Definition entries : list (string * Json.value) :=
  [("de", Json.Object [("male", Json.Str "de-DE-ConradNeural");
                       ("female", Json.Str "de-DE-KatjaNeural")]);
   ("fr", Json.Object [("female", Json.Str "fr-FR-DeniseNeural")])].

Definition settings : Json.value :=
  Json.Object
    [("language_names", Json.Object [("de", Json.Str "German")]);
     ("edge_tts_voice_mapping", Json.Object entries)].

Definition convert (text voice : string) : Py.result (string * string) :=
  Py.Return (text, voice).

End Scenario.

End EdgeTTS.

(** ** The stream handler and what it hands on *)

Module StreamHandler.

(** [process_wav_data], up to the array that it decodes, which
    [int2float] then scales and [self.processor.process] queues; [None]
    when the method returns at once. *)
Definition process_wav_data (wav_data : bytes) : Py.result (option (list Z)) :=
  match wav_data with
  | [] => Py.Return None
  | _ =>
      do new_sound <- Normalizer.frombuffer wav_data;
      Py.Return (Some new_sound)
  end.

(** What the body of the [for] loop of [run] does with what one
    iteration of the generator makes observable: the callbacks emit, a
    yielded sentence goes to [process_wav_data], and an exception there
    leaves the loop. *)
Fixpoint deliver (evs : list Vad.event) : list Handler.action * option Py.exc :=
  match evs with
  | [] => ([], None)
  | Vad.Utterance sentence :: rest =>
      match process_wav_data sentence with
      | Py.Return _ =>
          let '(actions, raised) := deliver rest in
          (Handler.ProcessWavData sentence :: actions, raised)
      | Py.Raise e => ([Handler.ProcessWavData sentence], Some e)
      end
  | e :: rest =>
      let '(actions, raised) := deliver rest in
      (Handler.action_of_event e :: actions, raised)
  end.

Section StreamHandler.

Variable is_speech : bytes -> Py.result bool.
Variable NUM_PADDING_CHUNKS : nat.
Variable NUM_WINDOW_CHUNKS : nat.

(** The generator driven by the loop, as [Handler.generator_actions],
    with the loop left when [process_wav_data] raises: the generator is
    not resumed then and does not reach the statements after its loop. *)
Fixpoint generator_actions (s : Vad.state) (chunks : list bytes) : list Handler.action :=
  match chunks with
  | [] => [Handler.StopStream]
  | chunk :: rest =>
      Handler.ReadChunk chunk ::
      match Vad.step is_speech NUM_PADDING_CHUNKS NUM_WINDOW_CHUNKS s chunk with
      | Py.Raise e => [Handler.PrintException e]
      | Py.Return (s', evs) =>
          match deliver evs with
          | (actions, None) => actions ++ generator_actions s' rest
          | (actions, Some e) => actions ++ [Handler.PrintException e]
          end
      end
  end.

Definition run (chunks : list bytes) : list Handler.action :=
  Handler.SetInitialized :: Handler.ProcessorStart :: Handler.StartStream ::
  generator_actions (Vad.init NUM_WINDOW_CHUNKS) chunks ++ [Handler.StopProcessing].

End StreamHandler.

(** The sentences handed to [process_wav_data], and the chunks read. *)
Definition sentences (done : list Handler.action) : list bytes :=
  omap (fun a => match a with Handler.ProcessWavData s => Some s | _ => None end) done.

Definition chunks_read (done : list Handler.action) : list bytes :=
  omap (fun a => match a with Handler.ReadChunk c => Some c | _ => None end) done.

Definition even_length (chunk : bytes) : Prop := Nat.even (length chunk) = true.

End StreamHandler.

(** * Properties *)

(** ** The segmenter *)

Section SegmenterFacts.

Import Vad.

Variable is_speech : bytes -> Py.result bool.
Variable NUM_PADDING_CHUNKS : nat.
Variable NUM_WINDOW_CHUNKS : nat.

Local Abbreviation N := NUM_WINDOW_CHUNKS.
Local Abbreviation step := (step is_speech NUM_PADDING_CHUNKS NUM_WINDOW_CHUNKS).
Local Abbreviation trace := (trace is_speech NUM_PADDING_CHUNKS NUM_WINDOW_CHUNKS).
Local Abbreviation run := (run is_speech NUM_PADDING_CHUNKS NUM_WINDOW_CHUNKS).
Local Abbreviation init := (init NUM_WINDOW_CHUNKS).
Local Abbreviation rings_ok := (rings_ok NUM_WINDOW_CHUNKS).
Local Abbreviation short_exceeds := (short_exceeds NUM_WINDOW_CHUNKS).
Local Abbreviation long_exceeds := (long_exceeds NUM_WINDOW_CHUNKS).
Local Abbreviation started_and_not_ended := (started_and_not_ended NUM_WINDOW_CHUNKS).

Lemma list_setitem_Return l i v l' :
  list_setitem l i v = Py.Return l' -> i < length l /\ l' = <[i:=v]> l.
Proof.
  unfold list_setitem. destruct (decide (i < length l)); [|discriminate].
  intros [= <-]. auto.
Qed.

Lemma py_mod_Return a b r :
  py_mod a b = Py.Return r -> 0 < b /\ r = a mod b.
Proof.
  destruct b; simpl; [discriminate|]. intros [= <-]. split; [lia|reflexivity].
Qed.

(** What an iteration that does not raise did to the rings. *)
Lemma step_rings s chunk s' evs :
  step s chunk = Py.Return (s', evs) ->
  exists active, is_speech chunk = Py.Return active /\
  let b := if active then 1 else 0 in
  0 < N /\
  ring_buffer_index s < length (ring_buffer_flags s) /\
  ring_buffer_index_end s < length (ring_buffer_flags_end s) /\
  ring_buffer_flags s' = <[ring_buffer_index s := b]> (ring_buffer_flags s) /\
  ring_buffer_index s' = (ring_buffer_index s + 1) mod N /\
  ring_buffer_flags_end s' = <[ring_buffer_index_end s := b]> (ring_buffer_flags_end s) /\
  ring_buffer_index_end s' = (ring_buffer_index_end s + 1) mod (NUM_WINDOW_CHUNKS_END N).
Proof.
  unfold Vad.step. intros H.
  destruct (is_speech chunk) as [active|]; [|discriminate]. cbn [Py.bind] in H.
  exists active. split; [reflexivity|]. revert H.
  destruct (list_setitem (ring_buffer_flags s) _ _) as [fl|] eqn:E1; [|discriminate].
  destruct (py_mod (ring_buffer_index s + 1) _) as [ix|] eqn:E2; [|discriminate].
  destruct (list_setitem (ring_buffer_flags_end s) _ _) as [fle|] eqn:E3; [|discriminate].
  destruct (py_mod (ring_buffer_index_end s + 1) _) as [ixe|] eqn:E4; [|discriminate].
  apply list_setitem_Return in E1 as [? ->].
  apply py_mod_Return in E2 as [? ->].
  apply list_setitem_Return in E3 as [? ->].
  apply py_mod_Return in E4 as [? ->].
  cbn [Py.bind].
  destruct (negb (triggered s));
    [destruct (Vad.short_exceeds _ _) | destruct (Vad.long_exceeds _ _)];
    intros [= <- <-]; cbn; auto 10.
Qed.

(** The transition function of the two-state machine, read off an
    iteration: it yields exactly when it leaves Recording, and it
    leaves Idle exactly when the short window exceeds its threshold. *)
Lemma step_transition s chunk s' evs :
  step s chunk = Py.Return (s', evs) ->
  yields evs = triggered s && long_exceeds s' /\
  triggered s' = (if triggered s then negb (long_exceeds s') else short_exceeds s').
Proof.
  unfold Vad.step.
  destruct (is_speech chunk) as [active|]; [|discriminate]. cbn [Py.bind].
  destruct (list_setitem (ring_buffer_flags s) _ _) as [fl|]; [|discriminate].
  destruct (py_mod (ring_buffer_index s + 1) _) as [ix|]; [|discriminate].
  destruct (list_setitem (ring_buffer_flags_end s) _ _) as [fle|]; [|discriminate].
  destruct (py_mod (ring_buffer_index_end s + 1) _) as [ixe|]; [|discriminate].
  cbn [Py.bind].
  unfold Vad.short_exceeds, Vad.long_exceeds, num_voiced, num_unvoiced; cbn.
  destruct (triggered s); cbn.
  - destruct (exceeds_090 _ _) eqn:E; intros [= <- <-]; cbn; rewrite ?E; auto.
  - destruct (exceeds_080 _ _) eqn:E; intros [= <- <-]; cbn; rewrite ?E; auto.
Qed.

(** *** The thresholds in binary64 *)

(** For every window of up to 100 chunks (200 for the long window) and
    every count in it, the comparisons in binary64 decide as the exact
    ones. *)
Lemma thresholds_float_exact :
  agree_up_to float_exceeds_080 exceeds_080 100 = true /\
  agree_up_to float_exceeds_090 (fun k n => exceeds_090 (Z.of_nat k) n) 200 = true.
Proof. split; vm_compute; reflexivity. Qed.

(** *** The rings stay aligned *)

Lemma rings_ok_init : rings_ok init.
Proof.
  unfold Vad.rings_ok, Vad.init, NUM_WINDOW_CHUNKS_END; cbn.
  rewrite !length_replicate. repeat split; auto; try lia.
  intros p x [-> Hp]%lookup_replicate. left.
  apply lookup_replicate. split; [reflexivity|lia].
Qed.

Lemma rings_ok_step s chunk s' evs :
  rings_ok s -> step s chunk = Py.Return (s', evs) -> rings_ok s'.
Proof.
  intros (Hl & Hle & Hix & Hlt & Hpair) Hstep.
  apply step_rings in Hstep as (active & _ & HN & Hi & Hie & E1 & E2 & E3 & E4).
  specialize (Hlt HN).
  unfold Vad.rings_ok, NUM_WINDOW_CHUNKS_END in *.
  rewrite E1, E2, E3, E4, !length_insert. clear E1 E2 E3 E4.
  split; [assumption|]. split; [assumption|]. split; [|split].
  - destruct (decide (ring_buffer_index s + 1 = N)) as [Heq|Hne].
    + rewrite Heq, Nat.Div0.mod_same.
      destruct Hix as [-> | ->].
      * right. rewrite Heq, Nat.mod_small by lia. lia.
      * left. replace (N + ring_buffer_index s + 1) with (N * 2) by lia.
        now rewrite Nat.Div0.mod_same.
    + rewrite (Nat.mod_small (ring_buffer_index s + 1) N) by lia.
      rewrite Nat.mod_small by lia. lia.
  - intros _. apply Nat.mod_upper_bound. lia.
  - intros p x Hp.
    destruct (decide (p = ring_buffer_index s)) as [-> | Hne].
    + rewrite list_lookup_insert_eq in Hp by lia. injection Hp as <-.
      destruct Hix as [Heq | Heq]; rewrite Heq in *.
      * left. apply list_lookup_insert_eq. lia.
      * right. apply list_lookup_insert_eq. lia.
    + rewrite list_lookup_insert_ne in Hp by congruence.
      assert (p < N) by (apply lookup_lt_Some in Hp; lia).
      rewrite !list_lookup_insert_ne by lia. auto.
Qed.

(** A list whose slots each repeat the same slot of one of two other
    lists sums to at most their sums together. *)
Lemma sum_list_shadow (l l1 l2 : list nat) :
  (forall p x, l !! p = Some x -> l1 !! p = Some x \/ l2 !! p = Some x) ->
  sum_list l <= sum_list l1 + sum_list l2.
Proof.
  revert l1 l2. induction l as [|x l IH]; intros l1 l2 H; cbn; [lia|].
  assert (Htl : forall p y, l !! p = Some y ->
                  tail l1 !! p = Some y \/ tail l2 !! p = Some y).
  { intros p y Hp. destruct (H (S p) y Hp) as [H1|H2].
    - left. now rewrite lookup_tail.
    - right. now rewrite lookup_tail. }
  specialize (IH _ _ Htl).
  destruct (H 0 x eq_refl) as [H1|H2].
  - destruct l1 as [|y l1]; [discriminate|]. injection H1 as ->.
    cbn in *. destruct l2; cbn in *; lia.
  - destruct l2 as [|y l2]; [discriminate|]. injection H2 as ->.
    cbn in *. destruct l1; cbn in *; lia.
Qed.

(** The long window holds every voiced flag that the short one holds. *)
Lemma rings_ok_sum s :
  rings_ok s ->
  sum_list (ring_buffer_flags s) <= sum_list (ring_buffer_flags_end s).
Proof.
  intros (Hl & Hle & _ & _ & Hpair).
  rewrite <- (take_drop N (ring_buffer_flags_end s)) at 1.
  rewrite sum_list_with_app. apply sum_list_shadow.
  intros p x Hp.
  assert (p < N) by (apply lookup_lt_Some in Hp; lia).
  destruct (Hpair p x Hp) as [H1|H2].
  - left. now rewrite lookup_take_lt.
  - right. now rewrite lookup_drop.
Qed.

(** The two thresholds are never exceeded by the same rings. *)
Lemma thresholds_exclusive s :
  rings_ok s -> short_exceeds s = true -> long_exceeds s = false.
Proof.
  intros Hok Hs. pose proof (rings_ok_sum s Hok) as Hsum.
  unfold Vad.short_exceeds, Vad.long_exceeds, exceeds_080, exceeds_090,
    num_voiced, num_unvoiced, NUM_WINDOW_CHUNKS_END in *.
  apply Z.ltb_lt in Hs. apply Z.ltb_ge. lia.
Qed.

(** *** Traces *)

Lemma list_setitem_lt l i v :
  i < length l -> list_setitem l i v = Py.Return (<[i:=v]> l).
Proof. intros H. unfold list_setitem. now destruct (decide (i < length l)). Qed.

Lemma py_mod_pos a b : 0 < b -> py_mod a b = Py.Return (a mod b).
Proof. destruct b; [lia|reflexivity]. Qed.

Lemma step_total s chunk active :
  0 < N -> is_speech chunk = Py.Return active -> rings_ok s ->
  exists s' evs, step s chunk = Py.Return (s', evs).
Proof.
  intros HN Hact (Hl & Hle & Hix & Hlt & _). specialize (Hlt HN).
  unfold NUM_WINDOW_CHUNKS_END in *.
  unfold Vad.step, NUM_WINDOW_CHUNKS_END. rewrite Hact. cbn [Py.bind].
  rewrite !list_setitem_lt, !py_mod_pos by lia. cbn [Py.bind].
  destruct (negb (triggered s));
    [destruct (Vad.short_exceeds _ _) | destruct (Vad.long_exceeds _ _)]; eauto.
Qed.

Lemma trace_run s chunks : run s (trace s chunks).
Proof.
  revert s. induction chunks as [|chunk rest IH]; intros s; cbn.
  - constructor.
  - destruct (step s chunk) as [[s' evs]|] eqn:E; econstructor; eauto.
Qed.

Lemma final_cons s x tr : final s (x :: tr) = final (fst x) tr.
Proof.
  unfold final. rewrite last_cons. destruct (last tr); reflexivity.
Qed.

Lemma final_snoc s tr x : final s (tr ++ [x]) = fst x.
Proof. unfold final. now rewrite last_snoc. Qed.

Lemma run_app s tr1 tr2 :
  run s (tr1 ++ tr2) <-> run s tr1 /\ run (final s tr1) tr2.
Proof.
  revert s. induction tr1 as [|x tr1 IH]; intros s; cbn.
  - split; [intros H; split; [constructor|exact H] | intros [_ H]; exact H].
  - rewrite final_cons. split.
    + intros H. inversion H as [|? chunk ? ? ? Hstep Hrun]; subst.
      apply IH in Hrun as [H1 H2].
      split; [econstructor; eauto | exact H2].
    + intros [H1 H2]. inversion H1 as [|? chunk ? ? ? Hstep Hrun]; subst.
      econstructor; [eassumption|]. apply IH. auto.
Qed.

Lemma run_rings_ok s tr :
  rings_ok s -> run s tr -> Forall (fun x => rings_ok (fst x)) tr.
Proof.
  intros Hok Hrun. induction Hrun as [|s chunk s' evs tr Hstep Hrun IH].
  - constructor.
  - pose proof (rings_ok_step _ _ _ _ Hok Hstep). constructor; auto.
Qed.

Lemma trace_total s chunks :
  0 < N -> Forall (fun chunk => exists active, is_speech chunk = Py.Return active) chunks ->
  rings_ok s -> length (trace s chunks) = length chunks.
Proof.
  intros HN Hacc. revert s.
  induction Hacc as [|chunk rest [active Hact] _ IH]; intros s Hok; cbn.
  - reflexivity.
  - destruct (step_total s chunk active HN Hact Hok) as (s' & evs & E). rewrite E. cbn.
    f_equal. apply IH. eapply rings_ok_step; eauto.
Qed.

(** The last step of a run. *)
Lemma run_snoc s tr x :
  run s (tr ++ [x]) ->
  run s tr /\ exists chunk, step (final s tr) chunk = Py.Return x.
Proof.
  intros [H1 H2]%run_app. split; [exact H1|].
  inversion H2 as [|? chunk ? ? ? Hstep Hrun]; subst. eauto.
Qed.

(** *** Recording, characterised on the trace *)

(** From Idle, the machine is Recording after a trace exactly when the
    short window exceeded its threshold at some iteration of it and
    the long window has not exceeded its own since. *)
Lemma triggered_final s0 tr :
  rings_ok s0 -> triggered s0 = false -> run s0 tr ->
  triggered (final s0 tr) = true <-> started_and_not_ended tr.
Proof.
  intros Hok0 Hidle. induction tr as [|[s' evs] tr IH] using rev_ind; intros Hrun.
  - unfold final; cbn. rewrite Hidle. split; [discriminate|].
    intros (pre & si & ei & mid & E & _). now destruct pre.
  - apply run_snoc in Hrun as [Hrun [chunk Hstep]].
    specialize (IH Hrun). rewrite final_snoc; cbn [fst].
    assert (Hok' : rings_ok s').
    { eapply rings_ok_step; [|exact Hstep].
      destruct tr as [|y tr'] using rev_ind; [exact Hok0|].
      rewrite final_snoc.
      pose proof (run_rings_ok _ _ Hok0 Hrun) as HF.
      apply Forall_app in HF as [_ HF]. now inversion HF. }
    apply step_transition in Hstep as [_ Htr]. rewrite Htr. clear Htr.
    destruct (triggered (final s0 tr)) eqn:Et.
    + destruct IH as [IH _]. destruct (IH eq_refl) as (pre & si & ei & mid & E & Hs & Hmid).
      split.
      * intros Hl. exists pre, si, ei, (mid ++ [(s', evs)]). repeat split.
        -- rewrite E, <- app_assoc. reflexivity.
        -- exact Hs.
        -- apply Forall_app. split; [exact Hmid|].
           constructor; [|constructor]. cbn. now destruct (long_exceeds s').
      * intros (pre' & si' & ei' & mid' & E' & Hs' & Hmid').
        destruct mid' as [|y mid' _] using rev_ind.
        -- apply app_inj_tail in E' as [_ [= <- <-]].
           now rewrite (thresholds_exclusive _ Hok' Hs').
        -- rewrite app_comm_cons, app_assoc in E'.
           apply app_inj_tail in E' as [_ <-].
           apply Forall_app in Hmid' as [_ Hy]. inversion Hy; subst.
           cbn in *. now rewrite H1.
    + split.
      * intros Hs. exists tr, s', evs, []. repeat split; auto.
      * intros (pre' & si' & ei' & mid' & E' & Hs' & Hmid').
        destruct mid' as [|y mid' _] using rev_ind.
        -- now apply app_inj_tail in E' as [_ [= <- <-]].
        -- rewrite app_comm_cons, app_assoc in E'.
           apply app_inj_tail in E' as [-> _].
           apply Forall_app in Hmid' as [Hmid' _].
           destruct IH as [_ IH]. discriminate IH.
           exists pre', si', ei', mid'. auto.
Qed.

Lemma final_rings_ok s tr : rings_ok s -> run s tr -> rings_ok (final s tr).
Proof.
  intros Hok Hrun. destruct tr as [|y tr _] using rev_ind; [exact Hok|].
  rewrite final_snoc. apply run_rings_ok in Hrun; [|exact Hok].
  apply Forall_app in Hrun as [_ HF]. now inversion HF.
Qed.

(** An iteration yields exactly when the long window exceeds its
    threshold while the machine is Recording. *)
Lemma yields_iff tr sj evs post :
  run init (tr ++ (sj, evs) :: post) ->
  (yields evs = true <-> long_exceeds sj = true /\ started_and_not_ended tr) /\
  (yields evs = true <-> triggered (final init tr) = true /\ triggered sj = false) /\
  (triggered (final init tr) = false ->
   (triggered sj = true <-> short_exceeds sj = true)).
Proof.
  intros [Hrun Hrest]%run_app.
  inversion Hrest as [|? chunk ? ? ? Hstep _]; subst.
  pose proof (triggered_final init tr rings_ok_init eq_refl Hrun) as Htrig.
  apply step_transition in Hstep as [Hy Ht]. rewrite Hy, Ht.
  rewrite <- Htrig.
  destruct (triggered (final init tr)), (long_exceeds sj); cbn; intuition congruence.
Qed.

Lemma utterances_of_app evs1 evs2 :
  utterances_of (evs1 ++ evs2) = utterances_of evs1 ++ utterances_of evs2.
Proof. apply omap_app. Qed.

Lemma utterances_nonempty (tr : list (state * list event)) :
  utterances_of (concat (map snd tr)) <> [] <->
  Exists (fun x => yields (snd x) = true) tr.
Proof.
  induction tr as [|[s evs] tr IH]; cbn [map concat snd].
  - split; [intros H; now destruct H | intros H; inversion H].
  - rewrite utterances_of_app, Exists_cons. cbn [snd]. unfold yields at 1.
    destruct (utterances_of evs) eqn:E; cbn; rewrite ?IH; intuition congruence.
Qed.

(** Once Recording, the first later iteration at which the long window
    exceeds its threshold yields. *)
Lemma first_end_yields s tr :
  run s tr -> triggered s = true ->
  Exists (fun x => long_exceeds (fst x) = true) tr ->
  Exists (fun x => yields (snd x) = true) tr.
Proof.
  intros Hrun. induction Hrun as [|s chunk s' evs tr Hstep Hrun IH]; intros Ht Hex.
  - inversion Hex.
  - apply step_transition in Hstep as [Hy Ht']. rewrite Ht in *. cbn in Hy.
    destruct (long_exceeds s') eqn:El.
    + left. exact Hy.
    + right. apply IH; [exact Ht'|]. inversion Hex; subst; cbn in *; congruence.
Qed.

Lemma not_long_forallb (tr : list (state * list event)) :
  forallb (fun x => negb (long_exceeds (fst x))) tr = true ->
  Forall (fun x => long_exceeds (fst x) = false) tr.
Proof.
  intros H. apply Forall_forall. intros x Hx.
  apply list_elem_of_In in Hx.
  rewrite forallb_forall in H. specialize (H x Hx).
  now destruct (long_exceeds (fst x)).
Qed.

(** C1.  For every stream of normalised chunks: an iteration of the
    segmenter yields an utterance exactly when the long window's
    unvoiced count exceeds 0.9 of its size there and, at an earlier
    iteration, the short window's voiced count exceeded 0.8 of its size
    with no such end in between; that iteration is the one that takes
    the machine from Recording to Idle, as the machine leaves Idle
    exactly when the short window exceeds 0.8.  Hence the generator emits an
    utterance if and only if the short window exceeds 0.8 at some
    iteration and the long window exceeds 0.9 at a later one.  With a
    non-empty window the loop completes an iteration for every chunk,
    as long as the classifier accepts the chunks. *)
Theorem vad_emits_iff_start_then_end (chunks : list bytes) :
  (0 < N ->
   Forall (fun chunk => exists active, is_speech chunk = Py.Return active) chunks ->
   length (trace init chunks) = length chunks) /\
  (forall pre sj evs post,
      trace init chunks = pre ++ (sj, evs) :: post ->
      (yields evs = true <->
         long_exceeds sj = true /\ started_and_not_ended pre) /\
      (yields evs = true <->
         triggered (final init pre) = true /\ triggered sj = false) /\
      (triggered (final init pre) = false ->
       (triggered sj = true <-> short_exceeds sj = true))) /\
  (vad_generator is_speech NUM_PADDING_CHUNKS N chunks <> [] <->
     exists pre si ei mid sj ej post,
       trace init chunks = pre ++ (si, ei) :: mid ++ (sj, ej) :: post /\
       short_exceeds si = true /\ long_exceeds sj = true).
Proof.
  pose proof (trace_run init chunks) as Hrun.
  split; [|split].
  - intros HN Hacc. apply trace_total; [exact HN | exact Hacc | apply rings_ok_init].
  - intros pre sj evs post E. rewrite E in Hrun. exact (yields_iff _ _ _ _ Hrun).
  - unfold vad_generator. rewrite utterances_nonempty. split.
    + intros Hex. apply Exists_exists in Hex as [[sj ej] [Hin Hy]].
      apply list_elem_of_split in Hin as (pre & post & E).
      rewrite E in Hrun. apply yields_iff in Hrun as [[Hy1 _] _].
      destruct (Hy1 Hy) as [Hl (pre1 & si & ei & mid & -> & Hs & _)].
      exists pre1, si, ei, mid, sj, ej, post. rewrite E, <- app_assoc. auto.
    + intros (pre & si & ei & mid & sj & ej & post & E & Hs & Hl).
      rewrite E in *.
      replace (pre ++ (si, ei) :: mid ++ (sj, ej) :: post)
        with ((pre ++ [(si, ei)]) ++ (mid ++ (sj, ej) :: post)) in Hrun |- *
        by now rewrite <- app_assoc.
      apply Exists_app. right.
      pose proof Hrun as [Hpre Hrest]%run_app.
      rewrite final_snoc in Hrest. cbn [fst] in Hrest.
      eapply first_end_yields; [exact Hrest | |].
      * pose proof (final_rings_ok _ _ rings_ok_init Hpre) as Hok.
        rewrite final_snoc in Hok. cbn [fst] in Hok.
        apply run_snoc in Hpre as [_ [chunk Hstep]].
        apply step_transition in Hstep as [_ ->].
        rewrite Hs, (thresholds_exclusive _ Hok Hs).
        now destruct (triggered _).
      * apply Exists_app. right. left. exact Hl.
Qed.

(** *** Where the frames go *)

Local Abbreviation P := NUM_PADDING_CHUNKS.

(** The buffers after an iteration, by the state it started in and the
    state it left. *)
Lemma step_frames s chunk s' evs :
  step s chunk = Py.Return (s', evs) ->
  let rb := deque_append P (ring_buffer s) chunk in
  match triggered s, triggered s' with
  | false, false => ring_buffer s' = rb /\ voiced_frames s' = voiced_frames s /\ evs = []
  | false, true => ring_buffer s' = [] /\ voiced_frames s' = voiced_frames s ++ rb /\
                   evs = [SpeechStarted]
  | true, true => ring_buffer s' = rb /\ voiced_frames s' = voiced_frames s ++ [chunk] /\
                  evs = []
  | true, false => ring_buffer s' = rb /\ voiced_frames s' = [] /\
                   evs = [SpeechEnded; Utterance (concat (voiced_frames s ++ [chunk]))]
  end.
Proof.
  unfold Vad.step.
  destruct (is_speech chunk) as [active|]; [|discriminate]. cbn [Py.bind].
  destruct (list_setitem (ring_buffer_flags s) _ _) as [fl|]; [|discriminate].
  destruct (py_mod (ring_buffer_index s + 1) _) as [ix|]; [|discriminate].
  destruct (list_setitem (ring_buffer_flags_end s) _ _) as [fle|]; [|discriminate].
  destruct (py_mod (ring_buffer_index_end s + 1) _) as [ixe|]; [|discriminate].
  cbn [Py.bind].
  destruct (triggered s); cbn [negb].
  - destruct (Vad.long_exceeds _ _); intros [= <- <-]; cbn; auto.
  - destruct (Vad.short_exceeds _ _); intros [= <- <-]; cbn; auto.
Qed.

Lemma deque_append_suffix d x processed :
  d `suffix_of` processed ->
  deque_append P d x `suffix_of` processed ++ [x].
Proof.
  intros H. unfold deque_append. etransitivity; [apply suffix_drop|].
  now apply suffix_app.
Qed.

Lemma deque_append_elem d x : 0 < P -> x ∈ deque_append P d x.
Proof.
  intros HP. unfold deque_append.
  rewrite drop_app_le by (rewrite length_app; cbn; lia).
  apply elem_of_app. right. now apply list_elem_of_singleton.
Qed.

Lemma frames_ok_step s chunk s' evs processed :
  frames_ok s processed -> step s chunk = Py.Return (s', evs) ->
  frames_ok s' (processed ++ [chunk]).
Proof.
  intros [Hrb Hvf] Hstep. apply step_frames in Hstep. unfold frames_ok.
  pose proof (deque_append_suffix _ chunk _ Hrb) as Hrb'.
  destruct (triggered s), (triggered s'); destruct Hstep as (-> & -> & _).
  - split; [exact Hrb'|]. now apply suffix_app.
  - split; [exact Hrb'|reflexivity].
  - split; [apply suffix_nil|]. now rewrite Hvf.
  - split; [exact Hrb'|exact Hvf].
Qed.

(** The iteration behind an element of the trace. *)
Lemma trace_split s chunks pre x post :
  trace s chunks = pre ++ x :: post ->
  exists chunk,
    chunks !! length pre = Some chunk /\
    step (final s pre) chunk = Py.Return x /\
    trace s (take (length pre) chunks) = pre.
Proof.
  revert s pre. induction chunks as [|c rest IH]; intros s pre E; cbn in E.
  - now destruct pre.
  - destruct (step s c) as [[s' evs]|] eqn:Hstep; [|now destruct pre].
    destruct pre as [|y pre]; cbn in E; injection E as <- E.
    + exists c. auto.
    + destruct (IH _ _ E) as (chunk & Hl & Hs & Ht).
      exists chunk. rewrite final_cons. cbn. rewrite Hstep, Ht. auto.
Qed.

Lemma frames_ok_trace s chunks processed :
  frames_ok s processed ->
  frames_ok (final s (trace s chunks))
    (processed ++ take (length (trace s chunks)) chunks).
Proof.
  revert s processed. induction chunks as [|c rest IH]; intros s processed Hok; cbn.
  - now rewrite app_nil_r.
  - destruct (step s c) as [[s' evs]|] eqn:Hstep; cbn.
    + rewrite final_cons. cbn [fst].
      rewrite (cons_middle c), app_assoc. apply IH.
      eapply frames_ok_step; eauto.
    + now rewrite app_nil_r.
Qed.

Lemma frames_ok_init : frames_ok init [].
Proof. split; [apply suffix_nil|reflexivity]. Qed.

Lemma length_concat_uniform (B : nat) (l : list bytes) :
  Forall (fun c => length c = B) l -> length (concat l) = length l * B.
Proof.
  induction 1 as [|c l Hc _ IH]; cbn; [reflexivity|].
  rewrite length_app, IH, Hc. reflexivity.
Qed.

(** C2, as the code has it.  At every iteration the incoming chunk is
    appended to the padding buffer, also while Recording, when it is
    appended to the utterance accumulator as well; at the trigger the
    padding buffer, the incoming chunk included, is moved into the
    accumulator and cleared.  An emitted utterance is the concatenation
    of the accumulated frames, which are a run of consecutive chunks of
    the stream ending with the chunk it is emitted at: its byte length
    is the number of these frames times the frame byte size. *)
Theorem vad_frames_accounting (chunks : list bytes) pre sj evs post :
  trace init chunks = pre ++ (sj, evs) :: post ->
  exists chunk,
    let s := final init pre in
    let rb := deque_append P (ring_buffer s) chunk in
    chunks !! length pre = Some chunk /\
    match triggered s, triggered sj with
    | false, false => ring_buffer sj = rb /\ voiced_frames sj = [] /\ evs = []
    | false, true => ring_buffer sj = [] /\ voiced_frames sj = rb /\ evs = [SpeechStarted]
    | true, true =>
        ring_buffer sj = rb /\ voiced_frames sj = voiced_frames s ++ [chunk] /\ evs = [] /\
        (0 < P -> (chunk ∈ voiced_frames sj) /\ (chunk ∈ ring_buffer sj))
    | true, false =>
        ring_buffer sj = rb /\ voiced_frames sj = [] /\
        evs = [SpeechEnded; Utterance (concat (voiced_frames s ++ [chunk]))] /\
        voiced_frames s ++ [chunk] `suffix_of` take (S (length pre)) chunks /\
        (forall B, Forall (fun c => length c = B) chunks ->
           length (concat (voiced_frames s ++ [chunk]))
           = length (voiced_frames s ++ [chunk]) * B)
    end.
Proof.
  intros E. destruct (trace_split _ _ _ _ _ E) as (chunk & Hl & Hstep & Hpre).
  exists chunk. cbn zeta. split; [exact Hl|].
  pose proof (frames_ok_trace init (take (length pre) chunks) [] frames_ok_init) as Hok.
  rewrite Hpre in Hok. cbn [app] in Hok. rewrite take_take, Nat.min_id in Hok.
  destruct Hok as [_ Hvf]. apply step_frames in Hstep. cbn zeta in Hstep.
  destruct (triggered (final init pre)) eqn:Et, (triggered sj) eqn:Etj.
  - destruct Hstep as (-> & -> & ->). repeat split; auto.
    + apply elem_of_app. right. apply list_elem_of_singleton. reflexivity.
    + now apply deque_append_elem.
  - destruct Hstep as (-> & -> & ->).
    assert (Hsuf : voiced_frames (final init pre) ++ [chunk]
                   `suffix_of` take (S (length pre)) chunks).
    { rewrite (take_S_r _ _ _ Hl). now apply suffix_app. }
    repeat split; auto.
    intros B HB. apply length_concat_uniform.
    destruct Hsuf as [k Hk].
    assert (HF : Forall (fun c => length c = B) (take (S (length pre)) chunks))
      by now apply Forall_take.
    rewrite Hk in HF. now apply Forall_app in HF as [_ HF].
  - destruct Hstep as (-> & -> & ->). rewrite Hvf. auto.
  - destruct Hstep as (-> & -> & ->). rewrite Hvf. auto.
Qed.

End SegmenterFacts.

(** *** The segmenter on the scenarios *)

Section SegmenterScenarios.

Import Vad Vad.Scenario.

Local Abbreviation trace_of chunks := (trace is_speech padding window (init window) chunks).
Local Abbreviation at_ tr i := (default (init window, []) (tr !! i)).

(** Scenario A triggers at its 21st chunk and yields at its 49th. *)
Lemma vad_emits_scenario_A :
  length (trace_of scenario_A) = length scenario_A /\
  yields (snd (at_ (trace_of scenario_A) 48)) = true /\
  vad_generator is_speech padding window scenario_A <> [].
Proof.
  destruct (vad_emits_iff_start_then_end is_speech padding window scenario_A)
    as (Hlen & Hstep & Hex).
  set (tr := trace_of scenario_A) in *.
  split; [|split].
  - apply Hlen; [vm_compute; lia|].
    apply Forall_forall. intros c Hc.
    apply list_elem_of_lookup in Hc as [i Hi].
    unfold scenario_A, stream in Hi.
    apply list_lookup_imap_Some in Hi as (b & _ & ->). eexists. reflexivity.
  - assert (E : tr = take 48 tr ++ (fst (at_ tr 48), snd (at_ tr 48)) :: drop 49 tr)
      by (vm_compute; reflexivity).
    destruct (Hstep _ _ _ _ E) as ([_ Hy] & _ & _). apply Hy.
    + split; [vm_compute; reflexivity|].
      exists (take 20 tr), (fst (at_ tr 20)), (snd (at_ tr 20)), (drop 21 (take 48 tr)).
      split; [vm_compute; reflexivity|].
      split; [vm_compute; reflexivity|].
      apply not_long_forallb. vm_compute. reflexivity.
  - apply Hex.
    exists (take 20 tr), (fst (at_ tr 20)), (snd (at_ tr 20)), (drop 21 (take 48 tr)),
      (fst (at_ tr 48)), (snd (at_ tr 48)), (drop 49 tr).
    split; [vm_compute; reflexivity|].
    split; vm_compute; reflexivity.
Defined.

(** The accounting theorem at the yield of scenario A: the utterance is
    made of 49 frames of two bytes each, which are the chunks 0 to 48. *)
Lemma vad_frames_scenario_A :
  exists frames,
    vad_generator is_speech padding window scenario_A = [concat frames] /\
    frames = take 49 scenario_A /\
    length (concat frames) = 49 * 2.
Proof.
  set (tr := trace_of scenario_A).
  assert (E : tr = take 48 tr ++ (fst (at_ tr 48), snd (at_ tr 48)) :: drop 49 tr)
    by (vm_compute; reflexivity).
  destruct (vad_frames_accounting is_speech padding window scenario_A _ _ _ _ E)
    as (chunk & Hl & Hm).
  cbv zeta in Hm.
  replace (triggered (final (init window) (take 48 tr))) with true in Hm
    by (vm_compute; reflexivity).
  replace (triggered (fst (at_ tr 48))) with false in Hm
    by (vm_compute; reflexivity).
  destruct Hm as (_ & _ & _ & _ & Hlen).
  exists (voiced_frames (final (init window) (take 48 tr)) ++ [chunk]).
  vm_compute in Hl. injection Hl as <-.
  split; [vm_compute; reflexivity|].
  split; [vm_compute; reflexivity|].
  rewrite (Hlen 2).
  - vm_compute. reflexivity.
  - apply Forall_forall. intros c Hc.
    apply list_elem_of_lookup in Hc as [i Hi].
    unfold scenario_A, stream in Hi.
    apply list_lookup_imap_Some in Hi as (b & _ & ->). reflexivity.
Defined.

(** C2, counterexample.  With the default configuration, chunk 21 of
    scenario A arrives while Recording and is afterwards both in the
    utterance accumulator and in the padding buffer; and when speech
    resumes after the first utterance, chunk 46, which the first
    utterance already holds, is flushed from the padding buffer into
    the second one. *)
Lemma vad_chunk_in_accumulator_and_padding :
  (exists s evs chunk,
     trace_of scenario_A !! 21 = Some (s, evs) /\
     scenario_A !! 21 = Some chunk /\
     ~ in_exactly_one s chunk) /\
  (exists frames1 frames2 chunk,
     vad_generator is_speech padding window two_utterances
     = [concat frames1; concat frames2] /\
     frames1 = take 49 two_utterances /\
     frames2 = take 78 (drop 46 two_utterances) /\
     two_utterances !! 46 = Some chunk /\
     chunk ∈ frames1 /\ chunk ∈ frames2).
Proof.
  split.
  - eexists _, _, _. split; [vm_compute; reflexivity|].
    split; [vm_compute; reflexivity|].
    intros [[_ Hn] | [Hn _]]; apply Hn; apply list_elem_of_lookup.
    + exists 0. vm_compute. reflexivity.
    + exists 21. vm_compute. reflexivity.
  - eexists _, _, _. split; [|split; [reflexivity|split; [reflexivity|]]].
    + vm_compute. reflexivity.
    + split; [vm_compute; reflexivity|].
      split; apply list_elem_of_lookup.
      * exists 46. vm_compute. reflexivity.
      * exists 0. vm_compute. reflexivity.
Qed.

End SegmenterScenarios.

(** ** The frame normaliser *)

Section NormalizerFacts.

Import Normalizer.
Local Open Scope Z_scope.

Variable resample : list Z -> Z -> Py.result (list Z).

(** What is assumed of the external resampler: asked for at least one
    sample of an array that is not empty, it returns that many samples;
    asked for none, it raises. *)
Hypothesis resample_returns :
  forall x num, x <> [] -> 0 < num ->
    exists out, resample x num = Py.Return out /\ Z.of_nat (length out) = num.
Hypothesis resample_zero : forall x, exists e, resample x 0 = Py.Raise e.

Lemma length_tobytes audio_data :
  length (tobytes audio_data) = (2 * length audio_data)%nat.
Proof.
  unfold tobytes. induction audio_data as [|v l IH]; cbn; [reflexivity|].
  rewrite IH. lia.
Qed.

(** When the rates match, the function returns its argument, whatever
    the channel count. *)
Lemma same_rate_returns_chunk input_channels RATE chunk out :
  resample_and_convert_chunk resample input_channels RATE RATE chunk = Py.Return out ->
  out = chunk.
Proof.
  unfold resample_and_convert_chunk. rewrite Z.eqb_refl. cbn [negb].
  destruct (frombuffer chunk) as [a|]; cbn; [|discriminate].
  destruct (downmix input_channels a); cbn; congruence.
Qed.

(** Rounding to nearest leaves at most half a unit. *)
Lemma py_round_div_near p q :
  0 < q -> - q <= 2 * (q * py_round_div p q - p) <= q.
Proof.
  intros Hq. unfold py_round_div.
  pose proof (Z.div_mod p q ltac:(lia)) as Hdm.
  pose proof (Z.mod_pos_bound p q Hq) as Hmod.
  destruct (Z.ltb_spec (2 * (p mod q)) q); [lia|].
  destruct (Z.ltb_spec q (2 * (p mod q))); [lia|].
  destruct (Z.even (p / q)); lia.
Qed.

(** A quotient of a numerator below 2^53, scaled to 53 bits and
    rounded, does not reach the next integer. *)
Lemma scaled_round_exact a b s :
  0 < a < 2 ^ 53 -> 0 < b -> 0 < s -> 2 ^ 52 * b <= a * s ->
  py_round_div (a * s) b / s = a / b.
Proof.
  intros Ha Hb Hs Hn.
  pose proof (py_round_div_near (a * s) b Hb) as Hm.
  set (m := py_round_div (a * s) b) in *.
  pose proof (Z.div_mod a b ltac:(lia)) as Hdm.
  pose proof (Z.mod_pos_bound a b Hb) as Hmod.
  set (k := a / b) in *. set (r := a mod b) in *.
  assert (Hbs : b < 2 * s).
  { change (2 ^ 53) with (2 * 2 ^ 52) in Ha. set (t := 2 ^ 52) in *.
    assert (0 < t) by (subst t; lia). nia. }
  symmetry. apply Z.div_unique with (r := m - k * s).
  - left. split.
    + assert (b * (k * s) <= a * s) by nia. nia.
    + assert (b * m - a * s < s) by lia. nia.
  - lia.
Qed.

(** Below 2^53 the binary64 quotient truncates to the exact quotient. *)
Lemma py_int_div_exact a b :
  0 <= a < 2 ^ 53 -> 0 < b -> py_int_div a b = Py.Return (a / b).
Proof.
  intros Ha Hb. unfold py_int_div.
  destruct (Z.eqb_spec b 0) as [?|_]; [lia|].
  destruct (Z.eqb_spec a 0) as [->|Ha0]; [now rewrite Z.div_0_l by lia|].
  assert (Hpos : 0 < a) by lia.
  rewrite (Z.abs_eq a), (Z.abs_eq b) by lia.
  rewrite (Z.sgn_pos a), (Z.sgn_pos b) by lia.
  unfold true_divide.
  pose proof (Z.log2_spec a Hpos) as [Hla1 Hla2].
  pose proof (Z.log2_spec b Hb) as [Hlb1 Hlb2].
  pose proof (Z.log2_nonneg a) as Hla0. pose proof (Z.log2_nonneg b) as Hlb0.
  assert (Hla : Z.log2 a < 53) by (apply Z.log2_lt_pow2; lia).
  set (la := Z.log2 a) in *. set (lb := Z.log2 b) in *.
  set (e0 := la - lb - 53).
  assert (He0 : e0 < 0) by (subst e0; lia).
  replace (0 <=? e0) with false by (symmetry; apply Z.leb_gt; lia).
  (* the first scaling is normalised from below *)
  assert (Hnorm : 2 ^ 52 * b < a * 2 ^ (- e0)).
  { assert (E : 2 ^ la * 2 ^ (- e0) = 2 ^ 52 * 2 ^ (Z.succ lb)).
    { rewrite <- !Z.pow_add_r by lia. f_equal. subst e0. lia. }
    assert (0 < 2 ^ (- e0)) by (apply Z.pow_pos_nonneg; lia).
    assert (0 < 2 ^ 52) by lia.
    nia. }
  assert (Hf0 : (0 <=? e0) = false) by (apply Z.leb_gt; lia).
  destruct (Z.leb_spec (2 ^ 53 * b) (a * 2 ^ (- e0))) as [Hbig|Hsmall].
  - destruct (Z_le_gt_dec 0 (e0 + 1)) as [Hz|Hneg].
    + (* the exponent is 0: the divisor is 1 *)
      assert (e0 = -1) by lia.
      assert (lb = 0 /\ la = 52) as [Elb Ela] by (subst e0; lia).
      rewrite Elb in Hlb2. change (2 ^ Z.succ 0) with 2 in Hlb2.
      assert (b = 1) as -> by lia.
      replace (e0 + 1) with 0 by lia. change (0 <=? 0) with true. cbv beta iota zeta.
      change (2 ^ 0) with 1.
      rewrite !Z.mul_1_r, !Z.mul_1_l.
      assert (Hr : py_round_div a 1 = a).
      { pose proof (py_round_div_near a 1 ltac:(lia)). lia. }
      rewrite Hr, (Z.div_1_r a).
      destruct (Z.leb_spec (2 ^ 1024) a) as [Hov|_]; [|reflexivity].
      assert (2 ^ 53 < 2 ^ 1024) by (apply Z.pow_lt_mono_r; lia). lia.
    + assert (Hf : (0 <=? e0 + 1) = false) by (apply Z.leb_gt; lia).
      rewrite Hf. cbv beta iota zeta. rewrite Hf.
      assert (Hs : 0 < 2 ^ (- (e0 + 1))) by (apply Z.pow_pos_nonneg; lia).
      assert (E : 2 ^ (- e0) = 2 * 2 ^ (- (e0 + 1))).
      { replace (- e0) with (Z.succ (- (e0 + 1))) by lia. apply Z.pow_succ_r. lia. }
      rewrite !Z.mul_1_l. f_equal. apply scaled_round_exact; lia.
  - rewrite Hf0. cbv beta iota zeta. rewrite Hf0.
    assert (Hs : 0 < 2 ^ (- e0)) by (apply Z.pow_pos_nonneg; lia).
    rewrite !Z.mul_1_l. f_equal. apply scaled_round_exact; lia.
Qed.

(** C8, as the code has it.  When the rates differ, a chunk of L mono
    samples that is long enough to give one output sample is resampled
    to floor(L * Rout / Rin) samples: that is round(L * Rout / Rin) or
    one sample less, whichever way the rounding breaks ties.  A shorter
    chunk, for which this number is 0, is not resampled: the resampler
    raises and the normaliser returns nothing. *)
Theorem resample_length_within_one_of_round
    (input_channels input_rate RATE : Z) (chunk : bytes) (samples mono : list Z) :
  0 < input_rate -> 0 < RATE -> input_rate <> RATE ->
  frombuffer chunk = Py.Return samples ->
  downmix input_channels samples = Py.Return mono ->
  let L := Z.of_nat (length mono) in
  L * RATE < 2 ^ 53 ->
  (input_rate <= L * RATE ->
   exists out,
     resample_and_convert_chunk resample input_channels input_rate RATE chunk
     = Py.Return (tobytes out) /\
     Z.of_nat (length out) = L * RATE / input_rate /\
     length (tobytes out) = (2 * length out)%nat /\
     0 <= py_round_div (L * RATE) input_rate - Z.of_nat (length out) <= 1 /\
     (forall r, 2 * Z.abs (r * input_rate - L * RATE) <= input_rate ->
                0 <= r - Z.of_nat (length out) <= 1)) /\
  (L * RATE < input_rate ->
   exists e,
     resample_and_convert_chunk resample input_channels input_rate RATE chunk
     = Py.Raise e).
Proof.
  intros Hin Hout Hne Hbuf Hmono L Hbound.
  assert (HL : 0 <= L * RATE) by (subst L; nia).
  assert (Hnum : py_int_div (L * RATE) input_rate = Py.Return (L * RATE / input_rate))
    by (apply py_int_div_exact; lia).
  assert (Hrun : resample_and_convert_chunk resample input_channels input_rate RATE chunk
                 = Py.bind (resample mono (L * RATE / input_rate))
                     (fun audio_data => Py.Return (tobytes audio_data))).
  { unfold resample_and_convert_chunk. rewrite Hbuf. cbn [Py.bind].
    rewrite Hmono. cbn [Py.bind].
    destruct (Z.eqb_spec input_rate RATE) as [?|_]; [contradiction|]. cbn [negb].
    fold L. rewrite Hnum. reflexivity. }
  rewrite Hrun. split.
  - intros Hlong.
    assert (Hdiv : 0 < L * RATE / input_rate) by (apply Z.div_str_pos; lia).
    assert (Hmono0 : mono <> []) by (intros ->; cbn in L; subst L; lia).
    destruct (resample_returns mono _ Hmono0 Hdiv) as (out & Hr & Hlen).
    exists out. rewrite Hr. cbn [Py.bind].
    split; [reflexivity|]. split; [exact Hlen|]. split; [apply length_tobytes|].
    rewrite Hlen.
    pose proof (Z.div_mod (L * RATE) input_rate ltac:(lia)) as Hdm.
    pose proof (Z.mod_pos_bound (L * RATE) input_rate Hin) as Hmod.
    split.
    + unfold py_round_div.
      repeat match goal with |- context [if ?c then _ else _] => destruct c end; lia.
    + intros r Hr'. nia.
  - intros Hshort. rewrite (Z.div_small (L * RATE) input_rate) by lia.
    destruct (resample_zero mono) as [e He]. exists e. now rewrite He.
Qed.

End NormalizerFacts.

(** The stand-in keeps to what is assumed of the resampler. *)
Lemma scenario_resample_returns (x : list Z) (num : Z) :
  x <> [] -> (0 < num)%Z ->
  exists out, Normalizer.Scenario.resample x num = Py.Return out /\
              Z.of_nat (length out) = num.
Proof.
  intros _ Hnum. unfold Normalizer.Scenario.resample.
  destruct (Z.ltb_spec num 0); [lia|]. destruct (Z.eqb_spec num 0); [lia|].
  eexists. split; [reflexivity|]. rewrite length_replicate. lia.
Qed.

Lemma scenario_resample_zero (x : list Z) :
  exists e, Normalizer.Scenario.resample x 0 = Py.Raise e.
Proof. eexists. reflexivity. Qed.

(** A chunk of three mono samples at 32 kHz: 1.5 rounds to 2, the
    output has one sample. *)
Lemma resample_length_three_samples :
  exists out,
    Normalizer.resample_and_convert_chunk Normalizer.Scenario.resample 1 32000 16000
      [x01; x00; x02; x00; x03; x00] = Py.Return (Normalizer.tobytes out) /\
    length out = 1 /\
    Normalizer.py_round_div (3 * 16000) 32000 = 2%Z.
Proof.
  destruct (resample_length_within_one_of_round Normalizer.Scenario.resample
              scenario_resample_returns scenario_resample_zero
              1 32000 16000 [x01; x00; x02; x00; x03; x00] [1; 2; 3]%Z [1; 2; 3]%Z)
    as [Hlong _]; try reflexivity; try lia.
  destruct Hlong as (out & Hr & Hl & _); [vm_compute; discriminate|].
  exists out. split; [exact Hr|]. split; [|reflexivity].
  change (Z.of_nat (length out) = 1%Z) in Hl. lia.
Defined.

(** C8, counterexample.  A chunk of one mono sample at 48 kHz for a
    working rate of 16 kHz: round(1/3) is 0, and no chunk is returned,
    of 0 samples or of any other length; the resampler raises. *)
Lemma resample_one_sample_raises :
  Normalizer.py_round_div (1 * 16000) 48000 = 0%Z /\
  (exists e,
     Normalizer.resample_and_convert_chunk Normalizer.Scenario.resample 1 48000 16000
       [x01; x00] = Py.Raise e) /\
  (forall out,
     Normalizer.resample_and_convert_chunk Normalizer.Scenario.resample 1 48000 16000
       [x01; x00] <> Py.Return out).
Proof.
  split; [reflexivity|]. split.
  - eexists. vm_compute. reflexivity.
  - intros out. vm_compute. discriminate.
Qed.

(** C3, the failing input.  A stereo chunk at the working rate is
    returned as it came, two channels wide: the down-mix to the mono
    sample 150 is computed and dropped. *)
Theorem normalizer_stereo_same_rate_unchanged
    (resample : list Z -> Z -> Py.result (list Z)) :
  let chunk := [x64; x00; xc8; x00] in
  Normalizer.frombuffer chunk = Py.Return [100; 200]%Z /\
  Normalizer.downmix 2 [100; 200]%Z = Py.Return [150]%Z /\
  Normalizer.resample_and_convert_chunk resample 2 16000 16000 chunk = Py.Return chunk /\
  Normalizer.resample_and_convert_chunk resample 2 16000 16000 chunk
  <> Py.Return (Normalizer.tobytes [150]%Z).
Proof. cbn. repeat split; discriminate. Qed.

(** ** Device selection *)

Section DeviceFacts.

Import Device.
Local Open Scope string_scope.

Lemma starts_with_spec (a b : string) :
  starts_with a b = true <-> exists post, b = a ++ post.
Proof.
  revert b. induction a as [|c a IH]; intros b; cbn.
  - split; [intros _; exists b; reflexivity | reflexivity].
  - destruct b as [|d b]; cbn.
    + split; [discriminate | intros [post H]; discriminate].
    + destruct (Ascii.eqb_spec c d) as [->|Hne]; cbn.
      * rewrite IH. split; intros [post H]; exists post; congruence.
      * split; [discriminate | intros [post H]; congruence].
Qed.

(** [contains] is the substring test. *)
Lemma contains_spec (needle hay : string) :
  contains needle hay = true <-> exists pre post, hay = pre ++ needle ++ post.
Proof.
  induction hay as [|c hay IH]; cbn [contains].
  - rewrite orb_false_r, starts_with_spec. split.
    + intros [post H]. exists EmptyString, post. exact H.
    + intros (pre & post & H). destruct pre; cbn in H.
      * exists post. exact H.
      * discriminate.
  - rewrite orb_true_iff, starts_with_spec, IH. split.
    + intros [[post H] | (pre & post & H)].
      * exists EmptyString, post. exact H.
      * exists (String c pre), post. cbn. congruence.
    + intros (pre & post & H). destruct pre as [|d pre]; cbn in H.
      * left. exists post. exact H.
      * right. exists pre, post. congruence.
Qed.

Lemma first_loopback_none wanted devices :
  (forall d, d ∈ devices -> contains wanted (name d) = false) ->
  first_loopback wanted devices
  = Py.Raise (Py.RuntimeError "No suitable loopback device found.").
Proof.
  induction devices as [|d devices IH]; intros H; cbn; [reflexivity|].
  rewrite (H d) by (left). apply IH. intros d' Hd'. apply H. now right.
Qed.

Lemma first_loopback_first wanted pre d post :
  (forall d', d' ∈ pre -> contains wanted (name d') = false) ->
  contains wanted (name d) = true ->
  first_loopback wanted (pre ++ d :: post)%list = Py.Return d.
Proof.
  induction pre as [|d' pre IH]; intros Hpre Hd; cbn.
  - now rewrite Hd.
  - rewrite (Hpre d') by (left). apply IH; [|exact Hd].
    intros d'' Hd''. apply Hpre. now right.
Qed.

(** C6.  When the default output device is not a loopback device: if
    no enumerated loopback device has a name that contains the default
    device's name, the strategy raises [RuntimeError] - no other device is
    taken - and so does the construction of the detector; if some have,
    the first of them in the enumeration is selected. *)
Theorem loopback_selection (pa : pyaudio) :
  isLoopbackDevice (default_output_device pa) = false ->
  let wanted := name (default_output_device pa) in
  ((forall d, d ∈ loopback_devices pa -> contains wanted (name d) = false) ->
   select_device LoopbackDeviceStrategy pa
   = Py.Raise (Py.RuntimeError "No suitable loopback device found.") /\
   VoiceActivityDetector LoopbackDeviceStrategy pa
   = Py.Raise (Py.RuntimeError "No suitable loopback device found.")) /\
  (forall pre d post,
     loopback_devices pa = (pre ++ d :: post)%list ->
     (forall d', d' ∈ pre -> contains wanted (name d') = false) ->
     contains wanted (name d) = true ->
     select_device LoopbackDeviceStrategy pa
     = Py.Return {| sel_index := index d;
                    channels := maxInputChannels d;
                    frame_rate := int_of_float (defaultSampleRate d) |}).
Proof.
  intros Hnl wanted. split.
  - intros Hnone. unfold VoiceActivityDetector, select_device.
    rewrite Hnl. cbn [negb]. fold wanted.
    rewrite (first_loopback_none _ _ Hnone). split; reflexivity.
  - intros pre d post E Hpre Hd. unfold select_device.
    rewrite Hnl, E. cbn [negb]. fold wanted.
    rewrite (first_loopback_first _ _ _ _ Hpre Hd). reflexivity.
Qed.

End DeviceFacts.

(** The two device lists: the loopback twin of the speakers is found
    behind the headphones' loopback device; without it the construction
    fails. *)
Lemma loopback_selection_scenarios :
  Device.select_device Device.LoopbackDeviceStrategy Device.Scenario.with_twin
  = Py.Return {| Device.sel_index := 12; Device.channels := 2; Device.frame_rate := 48000 |} /\
  Device.VoiceActivityDetector Device.LoopbackDeviceStrategy Device.Scenario.without_twin
  = Py.Raise (Py.RuntimeError "No suitable loopback device found.").
Proof.
  split.
  - destruct (loopback_selection Device.Scenario.with_twin eq_refl) as [_ Hfirst].
    apply (Hfirst [Device.Scenario.headphones_loopback]
             Device.Scenario.speakers_loopback []).
    + reflexivity.
    + intros d Hd. apply list_elem_of_singleton in Hd as ->. reflexivity.
    + reflexivity.
  - destruct (loopback_selection Device.Scenario.without_twin eq_refl) as [Hnone _].
    apply Hnone.
    intros d Hd. apply list_elem_of_singleton in Hd as ->. reflexivity.
Defined.

(** ** Code points *)

Section StrFacts.

Local Open Scope string_scope.

(** The code points of a text are the text, cut in pieces. *)
Lemma join_chars (s : string) : Str.join (Str.chars s) = s.
Proof.
  induction s as [|c rest IH]; [reflexivity|]. cbn [Str.chars].
  destruct (Str.chars rest) as [|[|c' ch] chs]; cbn in *; try now rewrite IH.
  destruct (Str.is_continuation c'); cbn; now rewrite IH.
Qed.

(** [s[:1] + s[1:]] is [s]. *)
Lemma take1_drop1 (s : string) : Str.take1 s ++ Str.drop1 s = s.
Proof.
  pose proof (join_chars s) as H. unfold Str.take1, Str.drop1.
  destruct (Str.chars s) as [|ch chs]; exact H.
Qed.

(** White space outside ASCII is stripped: a text between a no-break
    space, an en quad and an ideographic space on the left and a next
    line, an Ogham space and a medium mathematical space on the right;
    inside the text it stays. *)
Lemma strip_unicode_white_space :
  Str.strip (Service.text_of [xc2; xa0; xe2; x80; x80; xe3; x80; x80;
                              x68; xe2; x80; x83; x69;
                              xc2; x85; xe1; x9a; x80; xe2; x81; x9f])
  = Service.text_of [x68; xe2; x80; x83; x69].
Proof. vm_compute. reflexivity. Qed.

End StrFacts.

(** ** Recognition *)

Section RecognizerFacts.

Import Recognizer.

Variable decode_utf8 : bytes -> option string.
Variable transcript_of_line : string -> option string.
Variable upper : string -> string.
Variable post : nat -> post_outcome.

Local Abbreviation attempt_loop := (attempt_loop decode_utf8 transcript_of_line upper post).
Local Abbreviation scan_lines := (scan_lines transcript_of_line upper).
Local Abbreviation recognize := (recognize decode_utf8 transcript_of_line upper post).
Local Abbreviation attempt_fails := (attempt_fails decode_utf8 transcript_of_line upper).

(** The loop calls [post] at consecutive indices, at most once per
    iteration, and at least once if it iterates at all. *)
Lemma attempt_loop_calls n i :
  i <= snd (attempt_loop n i) <= i + n /\
  (0 < n -> i < snd (attempt_loop n i)).
Proof.
  revert i. induction n as [|n IH]; intros i; cbn; [lia|].
  pose proof (IH (S i)) as [IH1 IH2].
  destruct (post i) as [e|content].
  - destruct (Py.is_Exception e); cbn; lia.
  - destruct (decode_utf8 content) as [body|]; cbn; [|lia].
    destruct (scan_lines _); cbn; lia.
Qed.

(** A transport failure is followed by the next attempt while
    iterations are left. *)
Lemma attempt_loop_proceeds n i0 i e :
  i0 <= i < snd (attempt_loop n i0) ->
  post i = PostRaises e -> Py.is_Exception e = true ->
  S i < i0 + n -> S i < snd (attempt_loop n i0).
Proof.
  revert i0. induction n as [|n IH]; intros i0 Hi Hp He Hn; cbn in *; [lia|].
  destruct (decide (i = i0)) as [->|Hne].
  - rewrite Hp, He in *. apply attempt_loop_calls. lia.
  - destruct (post i0) as [e0|content].
    + destruct (Py.is_Exception e0); cbn in *; [apply IH; auto; lia | lia].
    + destruct (decode_utf8 content) as [body|]; cbn in *; [|lia].
      destruct (scan_lines _); cbn in *; [lia | apply IH; auto; lia].
Qed.

(** What the loop can leave with. *)
Lemma attempt_loop_raises n i e :
  fst (attempt_loop n i) = Py.Raise e ->
  e = Py.UnicodeDecodeError \/
  (Py.is_Exception e = false /\
   exists k, i <= k < snd (attempt_loop n i) /\ post k = PostRaises e).
Proof.
  revert i. induction n as [|n IH]; intros i; cbn; [discriminate|].
  pose proof (attempt_loop_calls n (S i)) as [Hc _].
  destruct (post i) as [e0|content] eqn:Hp.
  - destruct (Py.is_Exception e0) eqn:He; cbn.
    + intros H. destruct (IH _ H) as [?|(? & k & ? & ?)]; [now left|].
      right. split; [assumption|]. exists k. split; [lia|assumption].
    + intros [= <-]. right. split; [assumption|]. exists i. split; [lia|assumption].
  - destruct (decode_utf8 content) as [body|]; cbn.
    + destruct (scan_lines _); cbn; [discriminate|].
      intros H. destruct (IH _ H) as [?|(? & k & ? & ?)]; [now left|].
      right. split; [assumption|]. exists k. split; [lia|assumption].
    + intros [= <-]. now left.
Qed.

Lemma attempt_loop_all_fail n i :
  (forall k, i <= k < i + n -> attempt_fails (post k)) ->
  fst (attempt_loop n i) = Py.Return None \/
  exists e, fst (attempt_loop n i) = Py.Raise e /\
            (Py.is_Exception e = true \/ e = Py.KeyboardInterrupt).
Proof.
  revert i. induction n as [|n IH]; intros i Hall; cbn; [now left|].
  assert (Hrest : forall k, S i <= k < S i + n -> attempt_fails (post k))
    by (intros k Hk; apply Hall; lia).
  pose proof (Hall i ltac:(lia)) as Hi. unfold Recognizer.attempt_fails in Hi.
  destruct (post i) as [e|content].
  - destruct (Py.is_Exception e) eqn:He; [now apply IH|].
    right. exists e. cbn. destruct Hi as [Hi|Hi]; [congruence|auto].
  - destruct (decode_utf8 content) as [body|]; cbn.
    + rewrite Hi. now apply IH.
    + right. exists Py.UnicodeDecodeError. auto.
Qed.

(** A text that the loop returns. *)
Lemma attempt_loop_returns n i text :
  fst (attempt_loop n i) = Py.Return (Some text) ->
  exists k content body,
    i <= k < snd (attempt_loop n i) /\
    post k = PostResponse content /\
    decode_utf8 content = Some body /\
    scan_lines (Str.split_lines body) = Some text.
Proof.
  revert i. induction n as [|n IH]; intros i; cbn; [discriminate|].
  pose proof (attempt_loop_calls n (S i)) as [Hc _].
  destruct (post i) as [e|content] eqn:Hp.
  - destruct (Py.is_Exception e); cbn; [|discriminate].
    intros H. destruct (IH _ H) as (k & c & b & ? & ? & ? & ?).
    exists k, c, b. repeat split; auto; lia.
  - destruct (decode_utf8 content) as [body|] eqn:Hd; cbn; [|discriminate].
    destruct (scan_lines _) as [t|] eqn:Hs; cbn.
    + intros [= <-]. exists i, content, body. repeat split; auto; lia.
    + intros H. destruct (IH _ H) as (k & c & b & ? & ? & ? & ?).
      exists k, c, b. repeat split; auto; lia.
Qed.

Lemma scan_lines_Some lines text :
  scan_lines lines = Some text ->
  exists line transcript,
    line ∈ lines /\ transcript_of_line line = Some transcript /\
    text = capitalize_first upper transcript.
Proof.
  induction lines as [|line lines IH]; cbn; [discriminate|].
  destruct (transcript_of_line line) as [t|] eqn:Ht.
  - intros [= <-]. exists line, t. repeat split; auto. now left.
  - intros H. destruct (IH H) as (l & t & ? & ? & ?).
    exists l, t. repeat split; auto. now right.
Qed.

Lemma handlers_result r :
  fst (handlers r) =
  match r with
  | Py.Return v => Py.Return v
  | Py.Raise e =>
      if Py.is_Exception e then Py.Return None
      else match e with Py.KeyboardInterrupt => Py.Return None | _ => Py.Raise e end
  end.
Proof. destruct r as [v|e]; [reflexivity|]. destruct e; reflexivity. Qed.

Lemma recognize_unfold retries :
  result (recognize retries) = fst (handlers (fst (attempt_loop (Z.to_nat retries) 0))) /\
  attempts (recognize retries) = snd (attempt_loop (Z.to_nat retries) 0).
Proof.
  unfold Recognizer.recognize.
  destruct (attempt_loop _ _) as [r k]. cbn [fst snd].
  destruct (handlers r) as [r' rep]. split; reflexivity.
Qed.

(** C7.  The recogniser calls the transport at most [retries] times; an
    attempt that fails in the transport is followed by the next attempt;
    when every attempt fails the call returns [None]; and an exception
    leaves the call only when the transport raised one that is neither
    an [Exception] nor a [KeyboardInterrupt]. *)
Theorem recognizer_bounded_attempts (retries : Z) :
  let o := recognize retries in
  attempts o <= Z.to_nat retries /\
  (forall i e, i < attempts o -> post i = PostRaises e -> Py.is_Exception e = true ->
               S i < Z.to_nat retries -> S i < attempts o) /\
  ((forall i, i < Z.to_nat retries -> attempt_fails (post i)) ->
   result o = Py.Return None) /\
  (forall e, result o = Py.Raise e ->
             Py.is_Exception e = false /\ e <> Py.KeyboardInterrupt /\
             exists i, i < attempts o /\ post i = PostRaises e).
Proof.
  cbn zeta. destruct (recognize_unfold retries) as [-> ->].
  rewrite handlers_result.
  split; [|split; [|split]].
  - pose proof (attempt_loop_calls (Z.to_nat retries) 0). lia.
  - intros i e Hi Hp He Hn. apply (attempt_loop_proceeds _ 0 i e); auto; lia.
  - intros Hall.
    destruct (attempt_loop_all_fail (Z.to_nat retries) 0) as [-> | (e & -> & He)].
    + intros k Hk. apply Hall. lia.
    + reflexivity.
    + destruct He as [-> | ->]; reflexivity.
  - intros e. destruct (fst (attempt_loop _ _)) as [v|e'] eqn:Hr; [discriminate|].
    destruct (Py.is_Exception e') eqn:He'; [discriminate|].
    intros H. assert (e' = e /\ e <> Py.KeyboardInterrupt) as [-> Hk]
      by (destruct e'; try discriminate; injection H as <-; split; congruence).
    split; [exact He'|]. split; [exact Hk|].
    destruct (attempt_loop_raises _ _ _ Hr) as [-> | (_ & k & Hk' & Hp)].
    + discriminate.
    + exists k. split; [lia|exact Hp].
Qed.

(** C10.  A text that the recogniser returns is the transcript of a line
    of a response, with [upper] applied to its first character and the
    rest as it was. *)
Theorem recognizer_capitalizes_first (retries : Z) (text : string) :
  result (recognize retries) = Py.Return (Some text) ->
  exists i content body line transcript,
    i < attempts (recognize retries) /\
    post i = PostResponse content /\
    decode_utf8 content = Some body /\
    line ∈ Str.split_lines body /\
    transcript_of_line line = Some transcript /\
    text = (upper (Str.take1 transcript) ++ Str.drop1 transcript)%string.
Proof.
  destruct (recognize_unfold retries) as [-> ->]. rewrite handlers_result.
  destruct (fst (attempt_loop _ _)) as [v|e] eqn:Hr.
  - intros [= ->].
    destruct (attempt_loop_returns _ _ _ Hr) as (k & content & body & Hk & Hp & Hd & Hs).
    destruct (scan_lines_Some _ _ Hs) as (line & transcript & Hin & Ht & ->).
    exists k, content, body, line, transcript. repeat split; auto. lia.
  - destruct (Py.is_Exception e); [discriminate|]. destruct e; discriminate.
Qed.

End RecognizerFacts.

(** On the stand-ins: with the transport down, three attempts are made
    and the call returns [None]; when only the first attempt fails in
    the transport, the second is made. *)
Lemma recognizer_attempts_scenarios :
  Recognizer.result (Recognizer.Scenario.recognize_down 3) = Py.Return None /\
  Recognizer.attempts (Recognizer.Scenario.recognize_down 3) <= 3 /\
  1 < Recognizer.attempts (Recognizer.Scenario.recognize_once 3).
Proof.
  unfold Recognizer.Scenario.recognize_down, Recognizer.Scenario.recognize_once.
  destruct (recognizer_bounded_attempts Recognizer.Scenario.decode_utf8
              Recognizer.Scenario.transcript_of_line Recognizer.Scenario.upper
              Recognizer.Scenario.post_down 3) as (Hle & _ & Hnone & _).
  destruct (recognizer_bounded_attempts Recognizer.Scenario.decode_utf8
              Recognizer.Scenario.transcript_of_line Recognizer.Scenario.upper
              Recognizer.Scenario.post 3) as (_ & Hnext & _ & _).
  split; [|split].
  - apply Hnone. intros i _. left. reflexivity.
  - exact Hle.
  - apply (Hnext 0 (Py.Exception_ "ConnectError")).
    + vm_compute. lia.
    + reflexivity.
    + reflexivity.
    + vm_compute. lia.
Defined.

(** On two responses of the service: the transcript "hi there" is
    returned as "Hi there", and the Russian one, whose first letter has
    two bytes, with that letter as a capital, d0 9f for d0 bf. *)
Lemma recognizer_capitalizes_scenario :
  (exists transcript,
     transcript = "hi there"%string /\
     "Hi there"%string
     = (Service.upper (Str.take1 transcript) ++ Str.drop1 transcript)%string) /\
  (exists transcript,
     transcript = Service.text_of Service.privet /\
     Service.text_of [xd0; x9f; xd1; x80; xd0; xb8; xd0; xb2; xd0; xb5; xd1; x82]
     = (Service.upper (Str.take1 transcript) ++ Str.drop1 transcript)%string).
Proof.
  split.
  - destruct (recognizer_capitalizes_first Recognizer.Scenario.decode_utf8
                (Json.transcript_of_line Service.loads) Service.upper
                (Service.post Service.hi_there) 3 "Hi there" eq_refl)
      as (i & content & body & line & transcript & Hi & Hp & Hd & Hin & Ht & Htext).
    exists transcript. split; [|exact Htext].
    destruct i as [|i]; [discriminate|].
    injection Hp as <-. injection Hd as <-.
    vm_compute in Hin.
    repeat (apply elem_of_cons in Hin as [-> | Hin]; [vm_compute in Ht; congruence|]).
    now apply elem_of_nil in Hin.
  - destruct (recognizer_capitalizes_first Recognizer.Scenario.decode_utf8
                (Json.transcript_of_line Service.loads) Service.upper
                (Service.post Service.privet) 3
                (Service.text_of [xd0; x9f; xd1; x80; xd0; xb8; xd0; xb2; xd0; xb5; xd1; x82])
                eq_refl)
      as (i & content & body & line & transcript & Hi & Hp & Hd & Hin & Ht & Htext).
    exists transcript. split; [|exact Htext].
    destruct i as [|i]; [discriminate|].
    injection Hp as <-. injection Hd as <-.
    vm_compute in Hin.
    repeat (apply elem_of_cons in Hin as [-> | Hin];
            [vm_compute in Ht; vm_compute; congruence|]).
    now apply elem_of_nil in Hin.
Defined.

(** ** Translation and the pipeline *)

Section TranslatorFacts.

Import Translator.
Local Open Scope string_scope.

Variable GoogleTranslate : nat -> string -> option string.

Lemma last_truthy s c : Str.last s = Py.Return c -> Str.truthy s = true.
Proof. destruct s; [discriminate|reflexivity]. Qed.

Lemma ends_with_newline_truthy t b :
  ends_with_newline (Some t) = Py.Return b -> Str.truthy t = true.
Proof.
  unfold ends_with_newline. destruct (Str.last t) as [c|] eqn:E; [|discriminate].
  intros _. exact (last_truthy _ _ E).
Qed.

(** The loop never gets past its first statement: whenever it is
    entered, the call reports [AttributeError] and returns [None], the
    contract having been called once. *)
Lemma translate_first_failure fuel patience sentence t :
  Str.truthy sentence = true ->
  GoogleTranslate 0 sentence = Some t ->
  ends_with_newline (Some t) = Py.Return true ->
  patience <> 0%Z ->
  translate GoogleTranslate (S fuel) patience sentence
  = Some {| result := Py.Return None; calls := 1;
            reported := Some (Recognizer.Failure Py.AttributeError) |}.
Proof.
  intros Hs Hg Hnl Hp. unfold translate, translate_body.
  rewrite Hs, Hg, Hnl. cbn [negb retry_loop andb].
  destruct (Z.eqb_spec patience 0) as [?|_]; [contradiction|]. reflexivity.
Qed.

(** C5, as the code has it.  With [patience = 0] and a first answer that
    ends in the newline sentinel, the translator calls the contract once,
    does not enter the retry loop, whatever the fuel, and returns that
    answer; the pipeline publishes it as it is unless it is blank. *)
Theorem translator_patience_zero (fuel : nat) (action : bool) (sentence t : string) :
  Str.truthy sentence = true ->
  Str.strip sentence <> EmptyString ->
  GoogleTranslate 0 sentence = Some t ->
  ends_with_newline (Some t) = Py.Return true ->
  translate GoogleTranslate fuel 0 sentence
  = Some {| result := Py.Return (Some t); calls := 1; reported := None |} /\
  Pipeline.process_transcription GoogleTranslate fuel 0 action (Some sentence)
  = Some (if String.eqb (Str.strip t) EmptyString then []
          else Pipeline.NewTranslation t ::
               (if action then [Pipeline.Action t] else [])).
Proof.
  intros Hs Hstrip Hg Hnl.
  assert (Ht : translate GoogleTranslate fuel 0 sentence
               = Some {| result := Py.Return (Some t); calls := 1; reported := None |}).
  { unfold translate, translate_body. rewrite Hs, Hg, Hnl. cbn [negb].
    destruct fuel; reflexivity. }
  split; [exact Ht|].
  unfold Pipeline.process_transcription. rewrite Hs, Ht. cbn [andb result].
  destruct (String.eqb_spec (Str.strip sentence) EmptyString) as [?|_]; [contradiction|].
  cbn [negb]. unfold Pipeline.process_result_of_queue_processing.
  rewrite (ends_with_newline_truthy _ _ Hnl). cbn [andb].
  destruct (String.eqb (Str.strip t) EmptyString); reflexivity.
Qed.

End TranslatorFacts.

(** Scenario C: one call, the failed text returned.  When the failed
    text is blank, here an ideographic space before the sentinel, nothing
    is published. *)
Lemma translator_patience_zero_scenario :
  Translator.translate Translator.Scenario.always_fails 0 0 "hello"
  = Some {| Translator.result := Py.Return (Some (Translator.Scenario.sentinel "hallo"));
            Translator.calls := 1; Translator.reported := None |} /\
  Pipeline.process_transcription Translator.Scenario.answers_blank 0 0 true
    (Some "hello"%string) = Some [].
Proof.
  split.
  - apply (translator_patience_zero Translator.Scenario.always_fails 0 true "hello"
             (Translator.Scenario.sentinel "hallo")).
    + reflexivity.
    + discriminate.
    + reflexivity.
    + reflexivity.
  - destruct (translator_patience_zero Translator.Scenario.answers_blank 0 true "hello"
                (Translator.Scenario.sentinel Translator.Scenario.ideographic_space))
      as [_ H].
    + reflexivity.
    + discriminate.
    + reflexivity.
    + reflexivity.
    + exact H.
Defined.

(** C5, counterexample.  In scenario C ([patience = 0], every call
    fails with a sentinel-terminated text) the pipeline publishes the
    failed text. *)
Lemma pipeline_publishes_failed_text :
  Pipeline.process_transcription Translator.Scenario.always_fails 0 0 true (Some "hello"%string)
  = Some [Pipeline.NewTranslation (Translator.Scenario.sentinel "hallo");
          Pipeline.Action (Translator.Scenario.sentinel "hallo")] /\
  Pipeline.process_transcription Translator.Scenario.always_fails 0 0 true (Some "hello"%string)
  <> Some [].
Proof. split; [reflexivity|discriminate]. Qed.

(** C4, the failing input.  In scenario B (two sentinel-terminated
    failures, then a success, [patience = 2]) the translator calls the
    contract once, raises [AttributeError] at the first statement of the
    retry loop, reports it and returns [None]: no retry is made and the
    success text is never obtained. *)
Theorem translator_gives_up_on_first_failure (fuel : nat) :
  Translator.translate Translator.Scenario.fails_twice (S fuel) 2 "hello"
  = Some {| Translator.result := Py.Return None;
            Translator.calls := 1;
            Translator.reported := Some (Recognizer.Failure Py.AttributeError) |} /\
  Pipeline.process_transcription Translator.Scenario.fails_twice (S fuel) 2 true
    (Some "hello"%string) = Some [].
Proof. split; reflexivity. Qed.

(** ** The stream handler *)

Section HandlerFacts.

Import Handler.

Variable is_speech : bytes -> Py.result bool.
Variable NUM_PADDING_CHUNKS : nat.
Variable NUM_WINDOW_CHUNKS : nat.

Local Abbreviation run := (run is_speech NUM_PADDING_CHUNKS NUM_WINDOW_CHUNKS).

(** C9, as the code has it.  [run] sets the flag as its first action,
    before the processor is started, before the device stream is started
    and before any frame is read: after any non-empty part of [run] the
    flag is set, whether or not a frame has been produced; it is not set
    before [run] begins. *)
Theorem handler_initialized_first (chunks : list bytes) :
  (exists rest,
     run chunks = SetInitialized :: ProcessorStart :: StartStream :: rest) /\
  (forall done rest, run chunks = done ++ rest ->
     (initialized done = true <-> done <> [])) /\
  initialized [] = false.
Proof.
  split; [eexists; reflexivity|]. split; [|reflexivity].
  intros done rest E. destruct done as [|a done]; cbn.
  - split; [discriminate|congruence].
  - injection E as <- _. cbn. split; [discriminate|reflexivity].
Qed.

End HandlerFacts.

(** Scenario A, after the first two actions of [run]. *)
Lemma handler_initialized_first_scenario :
  Handler.initialized [Handler.SetInitialized; Handler.ProcessorStart] = true.
Proof.
  destruct (handler_initialized_first Vad.Scenario.is_speech Vad.Scenario.padding
              Vad.Scenario.window Vad.Scenario.scenario_A) as (_ & H & _).
  apply (H [Handler.SetInitialized; Handler.ProcessorStart]
           (skipn 2 (Handler.run Vad.Scenario.is_speech Vad.Scenario.padding
                       Vad.Scenario.window Vad.Scenario.scenario_A))).
  - reflexivity.
  - discriminate.
Defined.

(** C9, counterexample.  In scenario A the flag is set when no frame has
    been produced yet; on a device that produces no frame at all it is
    set all the same. *)
Lemma handler_initialized_before_first_frame :
  (exists done rest,
     Handler.run Vad.Scenario.is_speech Vad.Scenario.padding Vad.Scenario.window
       Vad.Scenario.scenario_A = done ++ rest /\
     Handler.initialized done = true /\ Handler.frames_produced done = 0) /\
  (let acts := Handler.run Vad.Scenario.is_speech Vad.Scenario.padding
                 Vad.Scenario.window [] in
   Handler.initialized acts = true /\ Handler.frames_produced acts = 0).
Proof.
  split.
  - exists [Handler.SetInitialized].
    eexists. split; [reflexivity|]. split; reflexivity.
  - split; reflexivity.
Qed.

(** * Further properties of the code *)

(** ** The segmenter on the stream *)

Section SegmenterStreamFacts.

Import Vad VadStream.

Variable is_speech : bytes -> Py.result bool.
Variable NUM_PADDING_CHUNKS : nat.
Variable NUM_WINDOW_CHUNKS : nat.

Local Abbreviation N := NUM_WINDOW_CHUNKS.
Local Abbreviation P := NUM_PADDING_CHUNKS.
Local Abbreviation step := (step is_speech NUM_PADDING_CHUNKS NUM_WINDOW_CHUNKS).
Local Abbreviation trace := (trace is_speech NUM_PADDING_CHUNKS NUM_WINDOW_CHUNKS).
Local Abbreviation run := (run is_speech NUM_PADDING_CHUNKS NUM_WINDOW_CHUNKS).
Local Abbreviation init := (init NUM_WINDOW_CHUNKS).
Local Abbreviation heard := (heard is_speech).
Local Abbreviation voiced_in_last := (voiced_in_last is_speech).
Local Abbreviation windows_ok := (windows_ok is_speech NUM_WINDOW_CHUNKS).
Local Abbreviation quiet := (quiet NUM_WINDOW_CHUNKS).
Local Abbreviation events := (events is_speech NUM_PADDING_CHUNKS NUM_WINDOW_CHUNKS).

(** *** Rings as sliding windows *)

Lemma tail_drop {A} (l : list A) k : tail (drop k l) = drop (S k) l.
Proof.
  revert l. induction k as [|k IH]; intros [|x l]; cbn; auto.
Qed.

(** Writing a ring at its index and advancing the index drops the oldest
    flag and appends the new one. *)
Lemma ring_push (fl : list nat) idx b :
  idx < length fl ->
  unrolled ((idx + 1) mod length fl) (<[idx:=b]> fl) = tail (unrolled idx fl) ++ [b].
Proof.
  intros Hlt. unfold unrolled.
  destruct (lookup_lt_is_Some_2 fl idx Hlt) as [x Hx].
  rewrite (insert_take_drop fl idx b Hlt), (drop_S fl x idx Hx). cbn [app tail].
  assert (Hlen : length (take idx fl) = idx) by (rewrite length_take; lia).
  destruct (decide (idx + 1 = length fl)) as [Heq|Hne].
  - rewrite Heq, Nat.Div0.mod_same. cbn [drop take].
    rewrite (drop_ge fl (S idx)) by lia. now rewrite app_nil_r.
  - rewrite Nat.mod_small by lia.
    rewrite drop_app_ge, take_app_ge by lia. rewrite Hlen.
    replace (idx + 1 - idx) with 1 by lia. cbn [drop take].
    now rewrite <- app_assoc.
Qed.

Lemma window_push n (hist : list nat) b :
  0 < n ->
  tail (drop (length hist) (replicate n 0 ++ hist)) ++ [b]
  = drop (length (hist ++ [b])) (replicate n 0 ++ hist ++ [b]).
Proof.
  intros Hn. rewrite tail_drop, length_app. cbn [length].
  rewrite Nat.add_1_r, (app_assoc (replicate n 0) hist [b]).
  assert (Hlen : length (replicate n 0 ++ hist) = n + length hist)
    by now rewrite length_app, length_replicate.
  rewrite (drop_app_le (replicate n 0 ++ hist)) by lia. reflexivity.
Qed.

Lemma ring_holds_push n idx fl hist b :
  ring_holds n idx fl hist ->
  ring_holds n ((idx + 1) mod n) (<[idx:=b]> fl) (hist ++ [b]).
Proof.
  intros (Hl & Hi & Hu). split; [now rewrite length_insert|]. split.
  - apply Nat.mod_upper_bound. lia.
  - rewrite <- Hl at 1. rewrite ring_push by lia. rewrite Hu.
    apply window_push. lia.
Qed.

Lemma ring_holds_init n : 0 < n -> ring_holds n 0 (replicate n 0) [].
Proof.
  intros Hn. split; [apply length_replicate|]. split; [exact Hn|].
  unfold unrolled. cbn [length]. rewrite !drop_0, take_0. reflexivity.
Qed.

(** The sum of a ring is the sum of the last flags written. *)
Lemma ring_holds_sum n idx fl hist :
  ring_holds n idx fl hist ->
  sum_list fl = sum_list (drop (length hist - n) hist).
Proof.
  intros (Hl & Hi & Hu).
  assert (Hs : sum_list fl = sum_list (unrolled idx fl)).
  { unfold unrolled. rewrite sum_list_with_app, Nat.add_comm, <- sum_list_with_app.
    now rewrite take_drop. }
  rewrite Hs, Hu. destruct (decide (length hist <= n)) as [Hle|Hgt].
  - rewrite drop_app_le by (rewrite length_replicate; lia).
    rewrite drop_replicate, sum_list_with_app, sum_list_replicate.
    replace (length hist - n) with 0 by lia. rewrite drop_0. lia.
  - rewrite drop_app_ge by (rewrite length_replicate; lia).
    now rewrite length_replicate.
Qed.

Lemma heard_active chunk active :
  is_speech chunk = Py.Return active -> heard chunk = if active then 1 else 0.
Proof. intros H. unfold VadStream.heard. now rewrite H. Qed.

Lemma windows_ok_step s chunk s' evs processed :
  windows_ok s processed -> step s chunk = Py.Return (s', evs) ->
  windows_ok s' (processed ++ [chunk]).
Proof.
  intros [H1 H2] Hstep.
  apply step_rings in Hstep as (active & Hact & _ & _ & _ & E1 & E2 & E3 & E4).
  unfold VadStream.windows_ok. rewrite E1, E2, E3, E4, fmap_app. cbn [fmap list_fmap].
  rewrite (heard_active _ _ Hact). split.
  - now apply ring_holds_push.
  - now apply ring_holds_push.
Qed.

Lemma windows_ok_init : 0 < N -> windows_ok init [].
Proof.
  intros HN. split; apply ring_holds_init; [exact HN|].
  unfold NUM_WINDOW_CHUNKS_END. lia.
Qed.

Lemma windows_ok_trace s chunks processed :
  windows_ok s processed ->
  windows_ok (final s (trace s chunks))
    (processed ++ take (length (trace s chunks)) chunks).
Proof.
  revert s processed. induction chunks as [|c rest IH]; intros s processed Hok; cbn.
  - now rewrite app_nil_r.
  - destruct (step s c) as [[s' evs]|] eqn:Hstep; cbn.
    + rewrite final_cons. cbn [fst].
      rewrite (cons_middle c), app_assoc. apply IH.
      eapply windows_ok_step; eauto.
    + now rewrite app_nil_r.
Qed.

Lemma voiced_in_last_sum n processed :
  voiced_in_last n processed
  = sum_list (drop (length (heard <$> processed) - n) (heard <$> processed)).
Proof. unfold VadStream.voiced_in_last. now rewrite fmap_drop, length_fmap. Qed.

(** X2.  After every iteration the short ring holds as many voiced flags
    as there are voiced chunks among the last [NUM_WINDOW_CHUNKS] chunks
    processed, and the long ring as many as among the last
    [NUM_WINDOW_CHUNKS_END], whatever state the machine was in: the short
    window exceeds its threshold exactly when more than 0.8 of the last
    [NUM_WINDOW_CHUNKS] chunks were voiced, the long one when fewer than
    a tenth of the last [NUM_WINDOW_CHUNKS_END] were. *)
Theorem vad_windows_slide (chunks : list bytes) pre sj evs post :
  trace init chunks = pre ++ (sj, evs) :: post ->
  let processed := take (S (length pre)) chunks in
  num_voiced sj = voiced_in_last N processed /\
  sum_list (ring_buffer_flags_end sj) = voiced_in_last (NUM_WINDOW_CHUNKS_END N) processed /\
  (short_exceeds N sj = true <-> 8 * N < 10 * voiced_in_last N processed) /\
  (long_exceeds N sj = true <->
   10 * voiced_in_last (NUM_WINDOW_CHUNKS_END N) processed < NUM_WINDOW_CHUNKS_END N).
Proof.
  intros E processed.
  destruct (trace_split _ _ _ _ _ _ _ _ E) as (chunk & Hl & Hstep & Hpre).
  assert (HN : 0 < N) by (apply step_rings in Hstep as (? & _ & HN & _); exact HN).
  pose proof (windows_ok_trace init (take (length pre) chunks) [] (windows_ok_init HN)) as Hok.
  rewrite Hpre in Hok. cbn [app] in Hok. rewrite take_take, Nat.min_id in Hok.
  pose proof (windows_ok_step _ _ _ _ _ Hok Hstep) as [H1 H2].
  rewrite <- (take_S_r _ _ _ Hl) in H1, H2. fold processed in H1, H2.
  apply ring_holds_sum in H1, H2. rewrite <- voiced_in_last_sum in H1, H2.
  assert (Hv : num_voiced sj = voiced_in_last N processed) by exact H1.
  split; [exact Hv|]. split; [exact H2|].
  unfold Vad.short_exceeds, Vad.long_exceeds, exceeds_080, exceeds_090, num_unvoiced.
  rewrite Hv, H2. rewrite !Z.ltb_lt. split; lia.
Qed.

(** *** Silence *)

Lemma quiet_step s chunk s' evs :
  quiet s -> is_speech chunk = Py.Return false ->
  step s chunk = Py.Return (s', evs) ->
  quiet s' /\ evs = [].
Proof.
  intros [Ht Hfl] Hsil Hstep.
  pose proof (step_transition _ _ _ _ _ _ _ Hstep) as [_ Htr].
  pose proof (step_frames _ _ _ _ _ _ _ Hstep) as Hfr. cbn zeta in Hfr.
  apply step_rings in Hstep as (active & Hact & _ & _ & _ & E1 & _).
  rewrite Hsil in Hact. injection Hact as <-.
  rewrite Hfl, insert_replicate in E1.
  rewrite Ht in Htr, Hfr.
  assert (Hs : Vad.short_exceeds N s' = false).
  { unfold Vad.short_exceeds, num_voiced, exceeds_080.
    rewrite E1, sum_list_replicate. apply Z.ltb_ge. lia. }
  rewrite Hs in Htr. rewrite Htr in Hfr. destruct Hfr as (_ & _ & ->).
  repeat split; assumption.
Qed.

(** X1.  On a stream of which the classifier calls no chunk voiced, the
    machine never leaves Idle, no callback is made and nothing is
    yielded, however long the stream. *)
Theorem vad_silence_never_triggers (chunks : list bytes) :
  Forall (fun chunk => is_speech chunk = Py.Return false) chunks ->
  Forall (fun x => triggered (fst x) = false /\ snd x = []) (trace init chunks) /\
  events chunks = [] /\
  vad_generator is_speech P N chunks = [].
Proof.
  intros Hsil.
  assert (H : forall s, quiet s ->
            Forall (fun x => triggered (fst x) = false /\ snd x = []) (trace s chunks)).
  { induction Hsil as [|c rest Hc _ IH]; intros s Hq; cbn; [constructor|].
    destruct (step s c) as [[s' evs]|] eqn:Hstep; [|constructor].
    destruct (quiet_step _ _ _ _ Hq Hc Hstep) as [Hq' ->].
    constructor; [split; [apply Hq'|reflexivity] | now apply IH]. }
  assert (Hq0 : quiet init) by (split; reflexivity).
  specialize (H init Hq0). split; [exact H|].
  assert (He : events chunks = []).
  { unfold VadStream.events. induction H as [|[s evs] tr [_ Hx] _ IH]; cbn; [reflexivity|].
    cbn in Hx. now rewrite Hx, IH. }
  split; [exact He|]. unfold vad_generator.
  unfold VadStream.events in He. now rewrite He.
Qed.

(** *** How long an utterance lasts at least *)

Lemma sum_list_insert_ge (l : list nat) i b :
  Forall (fun x => x <= 1) l -> sum_list l <= sum_list (<[i:=b]> l) + 1.
Proof.
  intros Hb. destruct (decide (i < length l)) as [Hlt|Hge].
  - destruct (lookup_lt_is_Some_2 l i Hlt) as [x Hx].
    assert (x <= 1) by (eapply Forall_lookup_1 in Hb; eauto).
    rewrite (insert_take_drop l i b Hlt).
    rewrite <- (take_drop_middle l i x Hx) at 1.
    rewrite !sum_list_with_app. cbn. unfold id. lia.
  - rewrite list_insert_ge by lia. lia.
Qed.

(** The long ring loses at most one voiced flag per iteration. *)
Lemma run_flags_end s tr :
  Forall (fun x => x <= 1) (ring_buffer_flags_end s) -> run s tr ->
  Forall (fun x => x <= 1) (ring_buffer_flags_end (final s tr)) /\
  sum_list (ring_buffer_flags_end s)
  <= sum_list (ring_buffer_flags_end (final s tr)) + length tr.
Proof.
  intros Hb Hrun. induction Hrun as [|s chunk s' evs tr Hstep Hrun IH].
  - split; [exact Hb|cbn; lia].
  - rewrite final_cons. cbn [fst length].
    apply step_rings in Hstep as (active & _ & _ & _ & _ & _ & _ & E3 & _).
    assert (Hb' : Forall (fun x => x <= 1) (ring_buffer_flags_end s')).
    { rewrite E3. apply Forall_insert; [exact Hb|]. destruct active; lia. }
    destruct (IH Hb') as [IH1 IH2]. split; [exact IH1|].
    pose proof (sum_list_insert_ge (ring_buffer_flags_end s) (ring_buffer_index_end s)
                  (if active then 1 else 0) Hb) as Hs.
    rewrite <- E3 in Hs. lia.
Qed.

(** X3.  From an iteration at which the short window exceeds its threshold
    to a later one at which the long window exceeds its own, more than
    0.6 [NUM_WINDOW_CHUNKS] iterations pass: an utterance is never ended
    sooner after its start. *)
Theorem vad_end_not_before (chunks : list bytes) pre si ei mid sj ej post :
  trace init chunks = pre ++ (si, ei) :: mid ++ (sj, ej) :: post ->
  short_exceeds N si = true ->
  long_exceeds N sj = true ->
  6 * N < 10 * S (length mid).
Proof.
  intros E Hs Hl. pose proof (trace_run is_speech P N init chunks) as Hrun.
  rewrite E in Hrun.
  replace (pre ++ (si, ei) :: mid ++ (sj, ej) :: post)
    with ((pre ++ [(si, ei)]) ++ ((mid ++ [(sj, ej)]) ++ post)) in Hrun
    by (rewrite <- !app_assoc; reflexivity).
  apply run_app in Hrun as [Hpre Hrest]. rewrite final_snoc in Hrest. cbn [fst] in Hrest.
  apply run_app in Hrest as [Hmid _].
  pose proof (final_rings_ok _ _ _ _ _ (rings_ok_init N) Hpre) as Hok.
  rewrite final_snoc in Hok. cbn [fst] in Hok.
  assert (Hb0 : Forall (fun x => x <= 1) (ring_buffer_flags_end init))
    by (apply Forall_replicate; lia).
  destruct (run_flags_end _ _ Hb0 Hpre) as [Hb _]. rewrite final_snoc in Hb. cbn [fst] in Hb.
  destruct (run_flags_end _ _ Hb Hmid) as [_ Hsum].
  rewrite final_snoc, length_app in Hsum. cbn [fst length] in Hsum.
  pose proof (rings_ok_sum _ _ Hok) as Hle.
  unfold Vad.short_exceeds, Vad.long_exceeds, exceeds_080, exceeds_090,
    num_voiced, num_unvoiced, NUM_WINDOW_CHUNKS_END in *.
  apply Z.ltb_lt in Hs, Hl. lia.
Qed.

(** *** The order of the callbacks *)

Lemma count_started_app evs1 evs2 :
  count_started (evs1 ++ evs2) = count_started evs1 + count_started evs2.
Proof. unfold count_started. now rewrite List.filter_app, length_app. Qed.

Lemma count_ended_app evs1 evs2 :
  count_ended (evs1 ++ evs2) = count_ended evs1 + count_ended evs2.
Proof. unfold count_ended. now rewrite List.filter_app, length_app. Qed.

Lemma run_protocol s tr :
  run s tr ->
  let evs := concat (map snd tr) in
  protocol (triggered s) evs = true /\
  count_ended evs = length (utterances_of evs) /\
  count_started evs + Nat.b2n (triggered s)
  = count_ended evs + Nat.b2n (triggered (final s tr)).
Proof.
  intros Hrun. induction Hrun as [|s chunk s' evs tr Hstep Hrun IH]; cbn zeta.
  - cbn; repeat split; lia.
  - rewrite final_cons. cbn [fst map concat snd].
    rewrite count_started_app, count_ended_app, utterances_of_app, length_app.
    cbn zeta in IH. destruct IH as (IH1 & IH2 & IH3).
    apply step_frames in Hstep. cbn zeta in Hstep.
    destruct (triggered s), (triggered s'); destruct Hstep as (_ & _ & ->);
      cbn in *; rewrite ?IH1; repeat split; lia.
Qed.

(** X4.  On every stream the generator's callbacks and yields come in
    this order: a start, then an end followed at once by the utterance,
    then a start again.  There are as many ends as utterances, and as many
    starts, plus one when the stream stops while Recording. *)
Theorem vad_events_protocol (chunks : list bytes) :
  protocol false (events chunks) = true /\
  count_ended (events chunks) = length (vad_generator is_speech P N chunks) /\
  count_started (events chunks)
  = count_ended (events chunks)
    + Nat.b2n (triggered (final init (trace init chunks))).
Proof.
  pose proof (run_protocol _ _ (trace_run is_speech P N init chunks)) as (H1 & H2 & H3).
  cbn in H3. rewrite Nat.add_0_r in H3. repeat split; assumption.
Qed.

(** *** The padding buffer *)

Lemma deque_append_length d x : length (deque_append P d x) <= P.
Proof.
  unfold deque_append. rewrite length_drop, length_app. cbn. lia.
Qed.

(** X5.  After every iteration the padding buffer holds the most recent
    chunks of the stream, at most [NUM_PADDING_CHUNKS] of them, and the
    accumulator, which is empty while Idle, holds most recent chunks
    too. *)
Theorem vad_padding_bounded (chunks : list bytes) pre sj evs post :
  trace init chunks = pre ++ (sj, evs) :: post ->
  let processed := take (S (length pre)) chunks in
  length (ring_buffer sj) <= P /\
  ring_buffer sj `suffix_of` processed /\
  voiced_frames sj `suffix_of` processed /\
  (triggered sj = false -> voiced_frames sj = []).
Proof.
  intros E processed.
  destruct (trace_split _ _ _ _ _ _ _ _ E) as (chunk & Hl & Hstep & Hpre).
  pose proof (frames_ok_trace is_speech P N init (take (length pre) chunks) []
                (frames_ok_init N)) as Hok.
  rewrite Hpre in Hok. cbn [app] in Hok. rewrite take_take, Nat.min_id in Hok.
  pose proof (frames_ok_step _ _ _ _ _ _ _ _ Hok Hstep) as [Hrb Hvf].
  rewrite <- (take_S_r _ _ _ Hl) in Hrb, Hvf. fold processed in Hrb, Hvf.
  apply step_frames in Hstep. cbn zeta in Hstep.
  split; [|split; [exact Hrb|]].
  - destruct (triggered (final init pre)), (triggered sj);
      destruct Hstep as (-> & _ & _); cbn; try apply deque_append_length; lia.
  - destruct (triggered sj); [split; [exact Hvf|discriminate]|].
    rewrite Hvf. split; [apply suffix_nil|reflexivity].
Qed.

End SegmenterStreamFacts.

Section SegmenterStreamScenarios.

Import Vad Vad.Scenario VadStream.

Local Abbreviation trace_of chunks := (trace is_speech padding window (init window) chunks).
Local Abbreviation at_ tr i := (default (init window, []) (tr !! i)).

Lemma stream_is_speech flags chunk :
  chunk ∈ stream flags -> exists active, is_speech chunk = Py.Return active.
Proof.
  intros Hc. apply list_elem_of_lookup in Hc as [i Hi]. unfold stream in Hi.
  apply list_lookup_imap_Some in Hi as (b & _ & ->). eexists. reflexivity.
Qed.

(** A hundred silent chunks: nothing is yielded. *)
Lemma vad_silence_scenario :
  vad_generator is_speech padding window silence = [].
Proof.
  apply (vad_silence_never_triggers is_speech padding window silence).
  apply Forall_forall. intros chunk Hc.
  apply list_elem_of_lookup in Hc as [i Hi]. unfold silence, stream in Hi.
  apply list_lookup_imap_Some in Hi as (b & Hb & ->).
  apply lookup_replicate in Hb as [-> _]. reflexivity.
Defined.

(** Scenario A at its 21st chunk: eleven of the last thirteen chunks are
    voiced, which the short ring holds. *)
Lemma vad_windows_scenario_A :
  num_voiced (fst (at_ (trace_of scenario_A) 20)) = 11 /\
  voiced_in_last is_speech window (take 21 scenario_A) = 11.
Proof.
  set (tr := trace_of scenario_A).
  assert (E : tr = take 20 tr ++ (fst (at_ tr 20), snd (at_ tr 20)) :: drop 21 tr)
    by (vm_compute; reflexivity).
  destruct (vad_windows_slide is_speech padding window scenario_A _ _ _ _ E) as (H & _).
  replace (S (length (take 20 tr))) with 21 in H by (vm_compute; reflexivity).
  split; [|rewrite <- H]; vm_compute; reflexivity.
Defined.

(** Scenario A: 28 iterations from the trigger to the yield, more than
    0.6 times 13. *)
Lemma vad_end_scenario_A : 6 * window < 10 * 28.
Proof.
  set (tr := trace_of scenario_A).
  assert (E : tr = take 20 tr ++ (fst (at_ tr 20), snd (at_ tr 20))
                   :: drop 21 (take 48 tr) ++ (fst (at_ tr 48), snd (at_ tr 48))
                   :: drop 49 tr)
    by (vm_compute; reflexivity).
  pose proof (vad_end_not_before is_speech padding window scenario_A _ _ _ _ _ _ _ E) as H.
  replace (S (length (drop 21 (take 48 tr)))) with 28 in H by (vm_compute; reflexivity).
  apply H; vm_compute; reflexivity.
Defined.

(** Scenario A at the yield: the padding buffer holds 28 chunks, the
    chunks recorded since the trigger. *)
Lemma vad_padding_scenario_A :
  length (ring_buffer (fst (at_ (trace_of scenario_A) 48))) <= padding.
Proof.
  set (tr := trace_of scenario_A).
  assert (E : tr = take 48 tr ++ (fst (at_ tr 48), snd (at_ tr 48)) :: drop 49 tr)
    by (vm_compute; reflexivity).
  destruct (vad_padding_bounded is_speech padding window scenario_A _ _ _ _ E) as (H & _).
  exact H.
Defined.

End SegmenterStreamScenarios.

(** ** Samples and bytes *)

Section SampleFacts.

Import Normalizer Audio.
Local Open Scope Z_scope.

Lemma byte_of_N_small n :
  (n <= 255)%N -> exists b, Byte.of_N n = Some b /\ Byte.to_N b = n.
Proof.
  intros Hn. destruct (Byte.of_N n) as [b|] eqn:E.
  - exists b. split; [reflexivity|]. now apply Byte.to_of_N.
  - apply Byte.of_N_None_iff in E. lia.
Qed.

Lemma byte_to_Z_bounded b : 0 <= Z.of_N (Byte.to_N b) < 256.
Proof. pose proof (Byte.to_N_bounded b). lia. Qed.

Lemma byte_of_to_Z b : default x00 (Byte.of_N (Z.to_N (Z.of_N (Byte.to_N b)))) = b.
Proof. now rewrite N2Z.id, Byte.of_to_N. Qed.

Lemma byte_to_of_Z z :
  0 <= z < 256 -> Z.of_N (Byte.to_N (default x00 (Byte.of_N (Z.to_N z)))) = z.
Proof.
  intros Hz. destruct (byte_of_N_small (Z.to_N z)) as (b & -> & Hb); [lia|].
  cbn. rewrite Hb. lia.
Qed.

Lemma int16_of_le_range lo hi : is_int16 (int16_of_le lo hi).
Proof.
  unfold int16_of_le, is_int16.
  pose proof (byte_to_Z_bounded lo). pose proof (byte_to_Z_bounded hi).
  cbn zeta. destruct (Z.ltb_spec (Z.of_N (Byte.to_N lo) + 256 * Z.of_N (Byte.to_N hi)) 32768); lia.
Qed.

(** The two bytes of a sample encode it again. *)
Lemma le_of_int16_of_le lo hi : le_of_int16 (int16_of_le lo hi) = [lo; hi].
Proof.
  pose proof (byte_to_Z_bounded lo) as Hlo. pose proof (byte_to_Z_bounded hi) as Hhi.
  unfold le_of_int16, int16_of_le. cbn zeta.
  set (l := Z.of_N (Byte.to_N lo)) in *. set (h := Z.of_N (Byte.to_N hi)) in *.
  assert (Hu : (if l + 256 * h <? 32768 then l + 256 * h else l + 256 * h - 65536)
               mod 65536 = l + 256 * h).
  { destruct (Z.ltb_spec (l + 256 * h) 32768);
      Z.to_euclidean_division_equations; lia. }
  rewrite Hu.
  assert (Hm : (l + 256 * h) mod 256 = l)
    by (Z.to_euclidean_division_equations; lia).
  assert (Hd : (l + 256 * h) / 256 = h)
    by (Z.to_euclidean_division_equations; lia).
  rewrite Hm, Hd. subst l h. now rewrite !byte_of_to_Z.
Qed.

(** A sample in range is what its two bytes decode to. *)
Lemma int16_of_le_of_int16 v lo hi :
  is_int16 v -> le_of_int16 v = [lo; hi] -> int16_of_le lo hi = v.
Proof.
  intros Hv. unfold le_of_int16, is_int16 in *. intros [= <- <-].
  pose proof (Z.mod_pos_bound v 65536 ltac:(lia)) as Hu.
  set (u := v mod 65536) in *.
  pose proof (Z.mod_pos_bound u 256 ltac:(lia)) as Hm.
  assert (Hq : 0 <= u / 256 < 256)
    by (split; [apply Z.div_pos; lia | apply Z.div_lt_upper_bound; lia]).
  unfold int16_of_le. rewrite !byte_to_of_Z by lia. cbn zeta.
  pose proof (Z.div_mod u 256 ltac:(lia)) as Hdm.
  replace (u mod 256 + 256 * (u / 256)) with u by lia.
  clear Hm Hq Hdm.
  destruct (Z.ltb_spec u 32768); subst u;
    Z.to_euclidean_division_equations; lia.
Qed.

(** Induction on a buffer, two bytes at a time. *)
Lemma bytes_pair_ind (Pr : bytes -> Prop) :
  Pr [] -> (forall b, Pr [b]) ->
  (forall lo hi rest, Pr rest -> Pr (lo :: hi :: rest)) ->
  forall chunk, Pr chunk.
Proof.
  intros H0 H1 H2 chunk.
  assert (H : Pr chunk /\ forall b, Pr (b :: chunk)).
  { induction chunk as [|b chunk [IH1 IH2]]; [split; auto|].
    split; [apply IH2|]. intros b'. now apply H2. }
  apply H.
Qed.

Lemma frombuffer_even (chunk : bytes) :
  Nat.even (length chunk) = true ->
  exists samples,
    frombuffer chunk = Py.Return samples /\ length chunk = (2 * length samples)%nat.
Proof.
  induction chunk as [| b | lo hi rest IH] using bytes_pair_ind.
  - exists []. auto.
  - discriminate.
  - change (Nat.even (length (lo :: hi :: rest))) with (Nat.even (length rest)).
    intros H. destruct (IH H) as (samples & Hs & Hl).
    exists (int16_of_le lo hi :: samples). cbn [frombuffer]. rewrite Hs.
    split; [reflexivity|]. cbn [length]. lia.
Qed.

Lemma frombuffer_odd (chunk : bytes) :
  Nat.even (length chunk) = false -> frombuffer chunk = Py.Raise Py.ValueError.
Proof.
  induction chunk as [| b | lo hi rest IH] using bytes_pair_ind.
  - discriminate.
  - reflexivity.
  - change (Nat.even (length (lo :: hi :: rest))) with (Nat.even (length rest)).
    intros H. cbn [frombuffer]. now rewrite (IH H).
Qed.

(** X6.  [np.frombuffer(chunk, np.int16)] decodes every buffer of even
    length, into half as many samples, all in the int16 range, whose
    bytes are the buffer again; it raises [ValueError] on every buffer of
    odd length. *)
Theorem frombuffer_decodes (chunk : bytes) :
  if Nat.even (length chunk) then
    exists samples,
      frombuffer chunk = Py.Return samples /\
      tobytes samples = chunk /\
      length chunk = (2 * length samples)%nat /\
      Forall is_int16 samples
  else frombuffer chunk = Py.Raise Py.ValueError.
Proof.
  induction chunk as [| b | lo hi rest IH] using bytes_pair_ind.
  - exists []. repeat split. constructor.
  - reflexivity.
  - change (Nat.even (length (lo :: hi :: rest))) with (Nat.even (length rest)).
    destruct (Nat.even (length rest)).
    + destruct IH as (samples & Hs & Hb & Hl & Hr).
      exists (int16_of_le lo hi :: samples). cbn [frombuffer]. rewrite Hs. cbn [Py.bind].
      split; [reflexivity|]. split; [|split].
      * unfold tobytes in *. cbn [map concat]. rewrite le_of_int16_of_le, Hb. reflexivity.
      * cbn [length]. lia.
      * constructor; [apply int16_of_le_range | exact Hr].
    + cbn [frombuffer]. now rewrite IH.
Qed.

(** X7.  Samples in the int16 range survive [tobytes] followed by
    [np.frombuffer]. *)
Theorem frombuffer_tobytes (audio_data : list Z) :
  Forall is_int16 audio_data ->
  frombuffer (tobytes audio_data) = Py.Return audio_data.
Proof.
  induction 1 as [|v l Hv _ IH]; [reflexivity|].
  unfold tobytes in *. cbn [map concat].
  destruct (le_of_int16 v) as [|lo [|hi [|]]] eqn:E; try discriminate E.
  cbn [app frombuffer]. rewrite IH. cbn [Py.bind].
  now rewrite (int16_of_le_of_int16 v lo hi Hv E).
Qed.

(** *** The down-mix *)

Lemma sum_Z_bounds lo hi (row : list Z) :
  Forall (fun v => lo <= v <= hi) row ->
  Z.of_nat (length row) * lo <= sum_Z row <= Z.of_nat (length row) * hi.
Proof.
  induction 1 as [|v row Hv _ IH]; [cbn; lia|].
  unfold sum_Z in *. cbn [foldr length]. lia.
Qed.

(** The truncated mean of a row lies between its smallest and its
    largest sample. *)
Lemma mean_int16_bounds lo hi (row : list Z) :
  row <> [] -> Forall (fun v => lo <= v <= hi) row ->
  lo <= mean_int16 row <= hi.
Proof.
  intros Hne Hb. pose proof (sum_Z_bounds lo hi row Hb) as Hs.
  unfold mean_int16.
  assert (Hc : 0 < Z.of_nat (length row)) by (destruct row; [congruence|cbn; lia]).
  set (c := Z.of_nat (length row)) in *. set (a := sum_Z row) in *.
  pose proof (Z.quot_rem' a c) as Hqr.
  destruct (Z_lt_le_dec a 0) as [Hneg|Hpos].
  - pose proof (Z.rem_bound_pos (- a) c ltac:(lia) Hc) as Hr.
    rewrite Z.rem_opp_l in Hr by lia. nia.
  - pose proof (Z.rem_bound_pos a c Hpos Hc) as Hr. nia.
Qed.

Lemma reshape_rows_full (c n : nat) (l : list Z) :
  (0 < c)%nat -> length l = (n * c)%nat ->
  Forall (fun row => length row = c) (reshape (replicate n c) l).
Proof.
  intros Hc. revert l. induction n as [|n IH]; intros l Hl; cbn; constructor.
  - rewrite length_take. cbn in Hl. lia.
  - apply IH. rewrite length_drop. cbn in Hl. lia.
Qed.

(** X8.  With more than one channel the down-mix raises [ValueError]
    when the number of samples is not a multiple of the channel count;
    otherwise it gives one sample per frame, and every sample lies
    between the smallest and the largest of the samples given: the
    int16 range is kept. *)
Theorem downmix_frames (input_channels : Z) (audio_data : list Z) :
  1 < input_channels ->
  let c := Z.to_nat input_channels in
  if (length audio_data mod c =? 0)%nat then
    exists mono,
      downmix input_channels audio_data = Py.Return mono /\
      (length mono * c)%nat = length audio_data /\
      (forall lo hi, Forall (fun v => lo <= v <= hi) audio_data ->
                     Forall (fun v => lo <= v <= hi) mono)
  else downmix input_channels audio_data = Py.Raise Py.ValueError.
Proof.
  intros Hc c. unfold downmix, reshape_rows.
  destruct (Z.ltb_spec 1 input_channels) as [_|?]; [|lia]. fold c.
  assert (Hcpos : (0 < c)%nat) by (subst c; lia).
  destruct (Nat.eqb_spec (length audio_data mod c) 0) as [Hmod|Hmod]; [|reflexivity].
  cbn [Py.bind]. eexists. split; [reflexivity|].
  assert (Hlen : length audio_data = (length audio_data / c * c)%nat).
  { pose proof (Nat.div_mod_eq (length audio_data) c). lia. }
  split.
  - rewrite length_map, length_reshape, length_replicate. lia.
  - intros lo hi Hb.
    pose proof (reshape_rows_full c _ audio_data Hcpos Hlen) as Hfull.
    pose proof (Forall_reshape _ audio_data (replicate (length audio_data / c) c) Hb) as Hrows.
    apply Forall_forall. intros m Hm.
    apply list_elem_of_In, in_map_iff in Hm as (row & <- & Hrow).
    apply list_elem_of_In in Hrow.
    apply mean_int16_bounds.
    + rewrite Forall_forall in Hfull. specialize (Hfull row Hrow).
      intros ->. cbn in Hfull. lia.
    + rewrite Forall_forall in Hrows. now apply Hrows.
Qed.

End SampleFacts.

(** Three samples, the extremes among them, through their bytes and
    back. *)
Lemma frombuffer_tobytes_extremes :
  Normalizer.frombuffer (Normalizer.tobytes [-32768; -1; 32767]%Z)
  = Py.Return [-32768; -1; 32767]%Z.
Proof.
  apply frombuffer_tobytes.
  repeat constructor; unfold Audio.is_int16; lia.
Defined.

(** Two stereo frames down-mixed: the means, truncated toward zero. *)
Lemma downmix_two_frames :
  exists mono,
    Normalizer.downmix 2 [100; 200; -1; -2]%Z = Py.Return mono /\
    length mono = 2.
Proof.
  pose proof (downmix_frames 2 [100; 200; -1; -2]%Z ltac:(lia)) as H.
  cbn in H. destruct H as (mono & Hm & Hl & _).
  exists mono. split; [exact Hm|lia].
Defined.

Section PlaybackFacts.

Import Normalizer Audio.
Local Open Scope Z_scope.

Lemma foldl_max_pos (a : Z) (l : list Z) :
  0 < foldl Z.max a l <-> 0 < a \/ Exists (fun x => 0 < x) l.
Proof.
  revert a. induction l as [|x l IH]; intros a; cbn.
  - split; [auto|]. intros [H|H]; [exact H|inversion H].
  - rewrite IH, Exists_cons.
    assert (0 < Z.max a x <-> 0 < a \/ 0 < x) by lia. tauto.
Qed.

Lemma abs_int16_pos v : is_int16 v -> (0 < abs_int16 v <-> v <> 0 /\ v <> -32768).
Proof.
  unfold is_int16, abs_int16. intros Hv.
  destruct (Z.eqb_spec v (-32768)); lia.
Qed.

(** The largest wrapped absolute value of a non-empty array is positive
    exactly when some sample is neither zero nor the most negative value. *)
Lemma np_max_abs_pos (sound : list Z) abs_max :
  Forall is_int16 sound ->
  np_max (map abs_int16 sound) = Py.Return abs_max ->
  (0 < abs_max <-> Exists (fun v => v <> 0 /\ v <> -32768) sound).
Proof.
  intros Hr. destruct sound as [|v rest]; [discriminate|].
  cbn [map np_max]. intros [= <-]. inversion Hr as [|? ? Hv Hrest]; subst.
  rewrite foldl_max_pos, Exists_cons, (abs_int16_pos v Hv).
  assert (He : Exists (fun x => 0 < x) (map abs_int16 rest)
               <-> Exists (fun v => v <> 0 /\ v <> -32768) rest).
  { clear Hr Hv. induction Hrest as [|w rest Hw _ IH]; cbn [map].
    - split; intros H; inversion H.
    - now rewrite !Exists_cons, IH, (abs_int16_pos w Hw). }
  now rewrite He.
Qed.

(** X9.  [int2float] of the detector raises [ValueError] on an empty
    array.  On int16 samples of which one at least is neither 0 nor
    -32768, every sample is divided by 32768 and lies in [-1, 1).  When
    every sample is 0 or -32768 the largest absolute value, which wraps,
    is not positive, and the samples come back unscaled: -32768 stays
    -32768. *)
Theorem int2float_scales (sound : list Z) :
  Forall is_int16 sound ->
  match sound with
  | [] => int2float sound = Py.Raise Py.ValueError
  | _ =>
      (Exists (fun v => v <> 0 /\ v <> -32768) sound ->
       int2float sound = Py.Return (map (fun v => Qmake v 32768) sound) /\
       Forall (fun v => (-1 <= Qmake v 32768)%Q /\ (Qmake v 32768 < 1)%Q) sound) /\
      (Forall (fun v => v = 0 \/ v = -32768) sound ->
       int2float sound = Py.Return (map inject_Z sound))
  end.
Proof.
  intros Hr. destruct sound as [|v rest]; [reflexivity|].
  set (sound := v :: rest) in *.
  destruct (np_max (map abs_int16 sound)) as [abs_max|] eqn:Hmax; [|discriminate].
  pose proof (np_max_abs_pos sound abs_max Hr Hmax) as Hpos.
  unfold int2float. rewrite Hmax. cbn [Py.bind]. split.
  - intros Hex. apply Hpos in Hex.
    destruct (Z.ltb_spec 0 abs_max) as [_|?]; [|lia]. split; [reflexivity|].
    eapply Forall_impl; [exact Hr|]. intros w Hw. unfold is_int16 in Hw.
    unfold Qle, Qlt. cbn. lia.
  - intros Hall.
    destruct (Z.ltb_spec 0 abs_max) as [Hlt|_]; [|reflexivity].
    apply Hpos in Hlt. apply Exists_exists in Hlt as (w & Hw & Hw0 & Hw1).
    rewrite Forall_forall in Hall. destruct (Hall w Hw); contradiction.
Qed.

End PlaybackFacts.

(** A half-scale sample becomes one half; the most negative sample alone
    comes back unscaled. *)
Lemma int2float_examples :
  Audio.int2float [16384; 0]%Z = Py.Return [Qmake 16384 32768; Qmake 0 32768] /\
  Audio.int2float [-32768; 0]%Z = Py.Return [inject_Z (-32768); inject_Z 0].
Proof.
  split.
  - apply (int2float_scales [16384; 0]%Z).
    + repeat constructor; unfold Audio.is_int16; lia.
    + left. lia.
  - apply (int2float_scales [-32768; 0]%Z).
    + repeat constructor; unfold Audio.is_int16; lia.
    + repeat constructor; lia.
Defined.

(** ** The devices and the normaliser together *)

Section DeviceSoundness.

Import Device.

Lemma first_loopback_Return wanted devices d :
  first_loopback wanted devices = Py.Return d ->
  d ∈ devices /\ contains wanted (name d) = true.
Proof.
  induction devices as [|d' devices IH]; cbn; [discriminate|].
  destruct (contains wanted (name d')) eqn:E.
  - intros [= <-]. split; [now left|exact E].
  - intros H. destruct (IH H). split; [now right|assumption].
Qed.

(** X10.  Whatever the loopback strategy selects is either the default
    output device, when that is a loopback device itself (the enumeration
    is then not looked at), or an enumerated loopback device whose name
    contains the default output device's name; the selection carries that
    device's index, its input channel count and its truncated sample
    rate. *)
Theorem loopback_selection_sound (pa : pyaudio) (sel : selection) :
  select_device LoopbackDeviceStrategy pa = Py.Return sel ->
  exists d,
    sel = {| sel_index := index d;
             channels := maxInputChannels d;
             frame_rate := int_of_float (defaultSampleRate d) |} /\
    ((isLoopbackDevice (default_output_device pa) = true /\
      d = default_output_device pa) \/
     (isLoopbackDevice (default_output_device pa) = false /\
      d ∈ loopback_devices pa /\
      contains (name (default_output_device pa)) (name d) = true)).
Proof.
  unfold select_device.
  destruct (isLoopbackDevice (default_output_device pa)) eqn:El; cbn [negb Py.bind].
  - intros [= <-]. eexists. split; [reflexivity|]. left. auto.
  - destruct (first_loopback _ _) as [d|] eqn:Ef; cbn [Py.bind]; [|discriminate].
    intros [= <-]. exists d. split; [reflexivity|]. right.
    apply first_loopback_Return in Ef. tauto.
Qed.

(** X11.  A detector that is constructed with the default strategy has
    one channel at 16 kHz, whatever the format of the default input
    device: the normaliser works from that format for every working
    rate.  At the working rate 16000, the default of the constructor,
    which [MicrophoneStreamHandler] leaves as it is, it returns every
    chunk of even length as it is, without calling the resampler, and
    raises [ValueError] on a chunk of odd length. *)
Theorem microphone_chunks_unchanged (pa : pyaudio)
    (resample : list Z -> Z -> Py.result (list Z)) (d : detector) (chunk : bytes) :
  VoiceActivityDetector DefaultDeviceStrategy pa = Py.Return d ->
  (forall RATE,
     Normalizer.resample_and_convert_chunk resample (input_channels d) (input_rate d)
       RATE chunk
     = Normalizer.resample_and_convert_chunk resample 1 16000 RATE chunk) /\
  Normalizer.resample_and_convert_chunk resample (input_channels d) (input_rate d)
    16000 chunk
  = if Nat.even (length chunk) then Py.Return chunk else Py.Raise Py.ValueError.
Proof.
  unfold VoiceActivityDetector, select_device.
  destruct (default_input_device pa) as [device|]; cbn [Py.bind]; [|discriminate].
  destruct (open pa _); [discriminate|]. intros [= <-].
  cbn [input_channels input_rate channels frame_rate].
  split; [reflexivity|].
  unfold Normalizer.resample_and_convert_chunk.
  destruct (Nat.even (length chunk)) eqn:E.
  - destruct (frombuffer_even chunk E) as (samples & -> & _). reflexivity.
  - now rewrite (frombuffer_odd chunk E).
Qed.

End DeviceSoundness.

(** With the twin listed, the selection is the twin, whose name contains
    the speakers' name. *)
Lemma loopback_selection_sound_scenario :
  exists d,
    d ∈ Device.loopback_devices Device.Scenario.with_twin /\
    Device.index d = 12%Z.
Proof.
  destruct (loopback_selection_sound Device.Scenario.with_twin
              {| Device.sel_index := 12; Device.channels := 2; Device.frame_rate := 48000 |}
              eq_refl) as (d & Hsel & [[Hl _] | (_ & Hin & _)]).
  - discriminate Hl.
  - exists d. split; [exact Hin|]. now injection Hsel as <- _ _.
Defined.

(** The microphone of the scenario has two channels at 44.1 kHz: the
    detector is constructed with one channel at 16 kHz, and a frame of
    two samples is returned as it is.  Without a default input device,
    and with a microphone that cannot be opened at 16 kHz, no detector is
    constructed. *)
Lemma microphone_chunks_unchanged_scenario :
  (exists d,
     Device.VoiceActivityDetector Device.DefaultDeviceStrategy Device.Scenario.with_twin
     = Py.Return d /\
     Normalizer.resample_and_convert_chunk Normalizer.Scenario.resample
       (Device.input_channels d) (Device.input_rate d) 16000 [x01; x00; x02; x00]
     = Py.Return [x01; x00; x02; x00]) /\
  Device.VoiceActivityDetector Device.DefaultDeviceStrategy Device.Scenario.without_microphone
  = Py.Raise (Py.Exception_ "OSError") /\
  Device.VoiceActivityDetector Device.DefaultDeviceStrategy Device.Scenario.rejected_rate
  = Py.Raise (Py.Exception_ "OSError").
Proof.
  split; [|split; reflexivity].
  exists {| Device.input_channels := 1; Device.input_rate := 16000;
            Device.input_device_index := 1 |}.
  split; [reflexivity|].
  destruct (microphone_chunks_unchanged Device.Scenario.with_twin
              Normalizer.Scenario.resample
              {| Device.input_channels := 1; Device.input_rate := 16000;
                 Device.input_device_index := 1 |}
              [x01; x00; x02; x00] eq_refl) as [_ H].
  exact H.
Defined.

(** ** The recogniser's attempts *)

Section RecognizerAttemptFacts.

Import Recognizer RecognizerAttempts.

Variable decode_utf8 : bytes -> option string.
Variable transcript_of_line : string -> option string.
Variable upper : string -> string.
Variable post : nat -> post_outcome.

Local Abbreviation attempt_loop := (attempt_loop decode_utf8 transcript_of_line upper post).
Local Abbreviation scan_lines := (scan_lines transcript_of_line upper).
Local Abbreviation recognize := (recognize decode_utf8 transcript_of_line upper post).
Local Abbreviation retried := (retried decode_utf8 transcript_of_line upper).

(** Attempts that are retried are passed over. *)
Lemma attempt_loop_skip k n i :
  (forall j, i <= j < i + k -> retried (post j)) ->
  attempt_loop (k + n) i = attempt_loop n (i + k).
Proof.
  revert i. induction k as [|k IH]; intros i Hall; cbn [Nat.add].
  - now rewrite Nat.add_0_r.
  - cbn [Recognizer.attempt_loop].
    pose proof (Hall i ltac:(lia)) as Hi. unfold RecognizerAttempts.retried in Hi.
    assert (Hrest : attempt_loop (k + n) (S i) = attempt_loop n (i + S k)).
    { rewrite IH by (intros j Hj; apply Hall; lia). f_equal. lia. }
    destruct (post i) as [e|content].
    + now rewrite Hi.
    + destruct Hi as (body & -> & ->). exact Hrest.
Qed.

Lemma attempt_loop_at k retries :
  k < Z.to_nat retries ->
  (forall j, j < k -> retried (post j)) ->
  attempt_loop (Z.to_nat retries) 0 = attempt_loop (S (Z.to_nat retries - S k)) k.
Proof.
  intros Hk Hall.
  replace (Z.to_nat retries) with (k + S (Z.to_nat retries - S k)) at 1 by lia.
  rewrite attempt_loop_skip by (intros j Hj; apply Hall; lia). reflexivity.
Qed.

(** X12.  The first attempt that brings a transcript decides: when the
    attempts before it failed in the transport or brought no transcript,
    the recogniser returns its capitalised transcript, has called the
    transport exactly that many times, and reports nothing. *)
Theorem recognizer_first_success (retries : Z) k content body text :
  k < Z.to_nat retries ->
  (forall j, j < k -> retried (post j)) ->
  post k = PostResponse content ->
  decode_utf8 content = Some body ->
  scan_lines (Str.split_lines body) = Some text ->
  recognize retries
  = {| result := Py.Return (Some text); attempts := S k; reported := None |}.
Proof.
  intros Hk Hall Hp Hd Hs. unfold Recognizer.recognize.
  rewrite (attempt_loop_at k retries Hk Hall). cbn [Recognizer.attempt_loop].
  rewrite Hp, Hd, Hs. reflexivity.
Qed.

(** X13.  A response that is not valid UTF-8, and a [KeyboardInterrupt]
    in the transport, end the attempts: the recogniser returns [None] at
    once, reporting the failure or the cancellation, and makes none of
    the attempts that are left. *)
Theorem recognizer_aborts (retries : Z) k :
  k < Z.to_nat retries ->
  (forall j, j < k -> retried (post j)) ->
  (forall content,
     post k = PostResponse content -> decode_utf8 content = None ->
     recognize retries
     = {| result := Py.Return None; attempts := S k;
          reported := Some (Failure Py.UnicodeDecodeError) |}) /\
  (post k = PostRaises Py.KeyboardInterrupt ->
   recognize retries
   = {| result := Py.Return None; attempts := S k; reported := Some Cancelling |}).
Proof.
  intros Hk Hall. unfold Recognizer.recognize.
  rewrite (attempt_loop_at k retries Hk Hall). cbn [Recognizer.attempt_loop].
  split.
  - intros content Hp Hd. rewrite Hp, Hd. reflexivity.
  - intros Hp. rewrite Hp. reflexivity.
Qed.

End RecognizerAttemptFacts.

(** The service does not answer the first attempt and answers the
    second with its two lines: the transcript of the second line is
    returned, for "hi there" and for the Russian transcript. *)
Lemma recognizer_first_success_scenario :
  Service.recognize Service.hi_there 3
  = {| Recognizer.result := Py.Return (Some "Hi there"%string);
       Recognizer.attempts := 2; Recognizer.reported := None |} /\
  Service.recognize Service.privet 3
  = {| Recognizer.result :=
         Py.Return (Some (Service.text_of [xd0; x9f; xd1; x80; xd0; xb8; xd0; xb2;
                                           xd0; xb5; xd1; x82]));
       Recognizer.attempts := 2; Recognizer.reported := None |}.
Proof.
  unfold Service.recognize. split.
  - apply (recognizer_first_success Recognizer.Scenario.decode_utf8
             (Json.transcript_of_line Service.loads) Service.upper
             (Service.post Service.hi_there) 3 1
             (Service.content Service.hi_there)
             (Service.text_of (Service.content Service.hi_there))).
    + vm_compute. lia.
    + intros j Hj. assert (j = 0) as -> by lia. reflexivity.
    + reflexivity.
    + reflexivity.
    + vm_compute. reflexivity.
  - apply (recognizer_first_success Recognizer.Scenario.decode_utf8
             (Json.transcript_of_line Service.loads) Service.upper
             (Service.post Service.privet) 3 1
             (Service.content Service.privet)
             (Service.text_of (Service.content Service.privet))).
    + vm_compute. lia.
    + intros j Hj. assert (j = 0) as -> by lia. reflexivity.
    + reflexivity.
    + reflexivity.
    + vm_compute. reflexivity.
Defined.

(** A garbled second response, and an interrupt at the second attempt:
    the third attempt, which would answer, is not made. *)
Lemma recognizer_aborts_scenarios :
  Recognizer.recognize RecognizerAttempts.Scenario.decode_strict
    Recognizer.Scenario.transcript_of_line Recognizer.Scenario.upper
    RecognizerAttempts.Scenario.post_garbled 3
  = {| Recognizer.result := Py.Return None; Recognizer.attempts := 2;
       Recognizer.reported := Some (Recognizer.Failure Py.UnicodeDecodeError) |} /\
  Recognizer.recognize RecognizerAttempts.Scenario.decode_strict
    Recognizer.Scenario.transcript_of_line Recognizer.Scenario.upper
    RecognizerAttempts.Scenario.post_interrupted 3
  = {| Recognizer.result := Py.Return None; Recognizer.attempts := 2;
       Recognizer.reported := Some Recognizer.Cancelling |}.
Proof.
  split.
  - destruct (recognizer_aborts RecognizerAttempts.Scenario.decode_strict
                Recognizer.Scenario.transcript_of_line Recognizer.Scenario.upper
                RecognizerAttempts.Scenario.post_garbled 3 1) as [H _].
    + vm_compute. lia.
    + intros j Hj. assert (j = 0) as -> by lia. reflexivity.
    + apply (H [x68; xff]); reflexivity.
  - destruct (recognizer_aborts RecognizerAttempts.Scenario.decode_strict
                Recognizer.Scenario.transcript_of_line Recognizer.Scenario.upper
                RecognizerAttempts.Scenario.post_interrupted 3 1) as [_ H].
    + vm_compute. lia.
    + intros j Hj. assert (j = 0) as -> by lia. reflexivity.
    + apply H. reflexivity.
Defined.

(** ** The transcript in a response line *)

Section JsonFacts.

Import Json.
Local Open Scope string_scope.

Lemma getitem_key_Return v key x :
  getitem_key v key = Py.Return x <->
  exists members, v = Object members /\ member key members = Some x.
Proof.
  split.
  - destruct v; cbn; try discriminate.
    destruct (member key members) eqn:E; [|discriminate].
    intros [= <-]. eauto.
  - intros (members & -> & H). cbn. now rewrite H.
Qed.

(** X14.  A parsed line gives a transcript exactly when it is an object
    whose "result" is an array that starts with an object, whose
    "alternative" is an array that starts with an object, whose
    "transcript" is a string, which is then the transcript.  The line
    with an empty "result" array, which the service sends first, gives
    none. *)
Theorem transcript_of_shape (line : value) (t : string) :
  (transcript_of line = Py.Return t <->
   exists members first rest best others,
     line = Object members /\
     member "result" members = Some (Array (Object first :: rest)) /\
     member "alternative" first = Some (Array (Object best :: others)) /\
     member "transcript" best = Some (Str t)) /\
  transcript_of Scenario.no_result = Py.Raise Py.IndexError /\
  transcript_of Scenario.one_result = Py.Return "hi there".
Proof.
  split; [|split; reflexivity]. unfold transcript_of. split.
  - destruct (getitem_key line "result") as [result|] eqn:E1; [|discriminate].
    apply getitem_key_Return in E1 as (members & -> & Hr). cbn [Py.bind].
    destruct (getitem_index result 0) as [first|] eqn:E2; [|discriminate].
    cbn [Py.bind].
    destruct (getitem_key first "alternative") as [alternative|] eqn:E3; [|discriminate].
    apply getitem_key_Return in E3 as (fm & -> & Ha). cbn [Py.bind].
    destruct (getitem_index alternative 0) as [best|] eqn:E4; [|discriminate].
    cbn [Py.bind].
    destruct (getitem_key best "transcript") as [transcript|] eqn:E5; [|discriminate].
    apply getitem_key_Return in E5 as (bm & -> & Ht). cbn [Py.bind].
    destruct transcript; try discriminate. intros [= ->].
    destruct result as [| | | s | items |]; cbn in E2; try discriminate.
    { destruct (Str.chars s); discriminate. }
    destruct items as [|x rest]; cbn in E2; [discriminate|]. injection E2 as ->.
    destruct alternative as [| | | s | items |]; cbn in E4; try discriminate.
    { destruct (Str.chars s); discriminate. }
    destruct items as [|y others]; cbn in E4; [discriminate|]. injection E4 as ->.
    exists members, fm, rest, bm, others. auto.
  - intros (members & first & rest & best & others & -> & Hr & Ha & Ht).
    cbn. rewrite Hr. cbn. rewrite Ha. cbn. now rewrite Ht.
Qed.

End JsonFacts.

(** ** The second recogniser *)

Section RecognizerV2Facts.

Import RecognizerV2.

(** X15.  [SpeechRecognizer_V2] calls the service at most once whatever
    [retries] is, and its outcome is decided by that one call: it returns
    the first transcript of the response, as it is, and [None] in every
    other case.  When the call raises an [Exception], what is reported is
    the [UnboundLocalError] of the handler, which prints a response that
    was never bound. *)
Theorem recognizer_v2_single_attempt (client_recognize : nat -> recognize_outcome)
    (retries : Z) :
  let o := recognize client_recognize retries in
  Recognizer.attempts o <= 1 /\
  (forall other, other 0 = client_recognize 0 ->
                 recognize other retries = o) /\
  (forall t, Recognizer.result o = Py.Return (Some t) <->
             (0 < retries)%Z /\
             exists results,
               client_recognize 0 = RecognizeResponse results /\
               first_transcript results = Py.Return t) /\
  (forall e, (0 < retries)%Z -> client_recognize 0 = RecognizeRaises e ->
             Py.is_Exception e = true ->
             Recognizer.result o = Py.Return None /\
             Recognizer.reported o
             = Some (Recognizer.Failure (Py.Exception_ "UnboundLocalError"))).
Proof.
  cbn zeta. unfold recognize, attempt_loop.
  destruct (Z.to_nat retries) as [|n] eqn:En.
  - cbn. split; [lia|]. split; [reflexivity|]. split.
    + intros t. split; [discriminate|]. intros [H _]. lia.
    + intros e H. lia.
  - assert (Hr : (0 < retries)%Z) by lia.
    split; [|split; [|split]].
    + destruct (client_recognize 0) as [e|results].
      * destruct (Py.is_Exception e) eqn:He; [cbn; lia|].
        destruct e; try discriminate He; cbn; lia.
      * destruct (first_transcript results); cbn; lia.
    + intros other ->. reflexivity.
    + intros t. destruct (client_recognize 0) as [e|results].
      * split.
        -- destruct (Py.is_Exception e) eqn:He; [discriminate|].
           destruct e; discriminate.
        -- intros (_ & results & H & _). discriminate.
      * destruct (first_transcript results) as [t'|e'] eqn:Ef; cbn.
        -- split.
           ++ intros [= ->]. split; [exact Hr|]. eauto.
           ++ intros (_ & results' & [= <-] & Hf). congruence.
        -- split; [discriminate|].
           intros (_ & results' & [= <-] & Hf). congruence.
    + intros e _ -> He. rewrite He. cbn. split; reflexivity.
Qed.

End RecognizerV2Facts.

(** A service that is down on the first call and would answer on the
    second: the second call is not made. *)
Lemma recognizer_v2_scenario :
  Recognizer.result
    (RecognizerV2.recognize
       (fun i => match i with
                 | 0 => RecognizerV2.RecognizeRaises (Py.Exception_ "ServiceUnavailable")
                 | _ => RecognizerV2.RecognizeResponse [["hi"%string]]
                 end) 3)
  = Py.Return None.
Proof.
  destruct (recognizer_v2_single_attempt
              (fun i => match i with
                        | 0 => RecognizerV2.RecognizeRaises (Py.Exception_ "ServiceUnavailable")
                        | _ => RecognizerV2.RecognizeResponse [["hi"%string]]
                        end) 3) as (_ & _ & _ & H).
  apply (H (Py.Exception_ "ServiceUnavailable")); [lia|reflexivity|reflexivity].
Defined.

(** ** The translator's single call *)

Section TranslatorCallFacts.

Import Translator.
Local Open Scope string_scope.

Variable GoogleTranslate : nat -> string -> option string.

Lemma translate_ext (other : nat -> string -> option string) fuel patience sentence :
  other 0 sentence = GoogleTranslate 0 sentence ->
  translate other fuel patience sentence
  = translate GoogleTranslate fuel patience sentence.
Proof. unfold translate, translate_body. intros ->. reflexivity. Qed.

Lemma ends_with_newline_raises t e :
  ends_with_newline (Some t) = Py.Raise e -> t = EmptyString /\ e = Py.IndexError.
Proof.
  unfold ends_with_newline. destruct (Str.last t) as [c|e'] eqn:E; cbn; [discriminate|].
  intros [= ->]. revert E. induction t as [|a t IH]; cbn.
  - intros [= <-]. auto.
  - destruct t as [|b t]; [discriminate|]. intros E. now destruct (IH E).
Qed.

(** What the call gives, by the sentence, the first answer and the
    patience. *)
Lemma translate_cases fuel patience sentence :
  translate GoogleTranslate (S fuel) patience sentence
  = Some
      (if negb (Str.truthy sentence)
       then {| result := Py.Return None; calls := 0; reported := None |}
       else match GoogleTranslate 0 sentence with
            | None => {| result := Py.Return None; calls := 1;
                         reported := Some (Recognizer.Failure Py.TypeError) |}
            | Some t =>
                match ends_with_newline (Some t) with
                | Py.Raise _ => {| result := Py.Return None; calls := 1;
                                   reported := Some (Recognizer.Failure Py.IndexError) |}
                | Py.Return fail_to_translate =>
                    if fail_to_translate && negb (patience =? 0)%Z
                    then {| result := Py.Return None; calls := 1;
                            reported := Some (Recognizer.Failure Py.AttributeError) |}
                    else {| result := Py.Return (Some t); calls := 1; reported := None |}
                end
            end).
Proof.
  unfold translate, translate_body.
  destruct (Str.truthy sentence); cbn [negb]; [|reflexivity].
  destruct (GoogleTranslate 0 sentence) as [t|]; [|reflexivity].
  destruct (ends_with_newline (Some t)) as [b|e] eqn:Hn.
  - cbn [retry_loop]. destruct (b && negb (patience =? 0)%Z); reflexivity.
  - apply ends_with_newline_raises in Hn as [_ ->]. reflexivity.
Qed.

(** X16.  [SentenceTranslator.__call__] returns for every sentence and
    every patience, the endless patience -1 included, after at most one
    call of [GoogleTranslate], on the sentence itself; it never raises an
    exception of its own.  It returns a text exactly when the sentence is
    not empty and that call answered with a non-empty text that does not
    end in a newline, or that does while the patience is 0; the text is
    that answer.  In every other case it returns [None]. *)
Theorem translator_single_call (fuel : nat) (patience : Z) (sentence : string) :
  exists o,
    translate GoogleTranslate (S fuel) patience sentence = Some o /\
    calls o <= 1 /\
    (forall other, other 0 sentence = GoogleTranslate 0 sentence ->
       translate other (S fuel) patience sentence = Some o) /\
    (forall t, result o = Py.Return (Some t) <->
       sentence <> EmptyString /\ GoogleTranslate 0 sentence = Some t /\
       (ends_with_newline (Some t) = Py.Return false \/
        ends_with_newline (Some t) = Py.Return true /\ patience = 0%Z)) /\
    (result o = Py.Return None \/ exists t, result o = Py.Return (Some t)).
Proof.
  eexists. split; [apply translate_cases|].
  split; [|split; [intros other Ho; rewrite (translate_ext other _ _ _ Ho);
                   apply translate_cases|]].
  - destruct (Str.truthy sentence); cbn [negb]; [|cbn; lia].
    destruct (GoogleTranslate 0 sentence) as [t|]; [|cbn; lia].
    destruct (ends_with_newline (Some t)) as [b|e]; [|cbn; lia].
    destruct (b && negb (patience =? 0)%Z); cbn; lia.
  - destruct sentence as [|a sentence]; cbn [Str.truthy negb].
    { split; [|now left]. intros t. cbn [result]. split; [discriminate|]. now intros [? _]. }
    set (s := String a sentence).
    assert (Hs : s <> EmptyString) by discriminate.
    destruct (GoogleTranslate 0 s) as [t|].
    2:{ split; [|now left]. intros t. cbn [result]. split; [discriminate|]. now intros (_ & ? & _). }
    destruct (ends_with_newline (Some t)) as [b|e] eqn:Hn.
    2:{ split; [|now left]. intros t'. cbn [result]. split; [discriminate|].
        intros (_ & [= <-] & [H|[H _]]); congruence. }
    destruct b; cbn [andb].
    + destruct (Z.eqb_spec patience 0) as [Hp|Hp]; cbn [negb].
      * split; [|right; eauto]. intros t'. cbn [result]. split.
        -- intros [= <-]. auto.
        -- intros (_ & [= <-] & _). reflexivity.
      * split; [|now left]. intros t'. cbn [result]. split; [discriminate|].
        intros (_ & [= <-] & [H|[_ H]]); congruence.
    + split; [|right; eauto]. intros t'. cbn [result]. split.
      * intros [= <-]. auto.
      * intros (_ & [= <-] & _). reflexivity.
Qed.

Lemma strip_truthy s : Str.strip s <> EmptyString -> Str.truthy s = true.
Proof. destruct s; [intros H; now destruct H | reflexivity]. Qed.

Lemma ends_with_newline_Return t :
  Str.truthy t = true -> exists b, ends_with_newline (Some t) = Py.Return b.
Proof.
  intros Ht. destruct (ends_with_newline (Some t)) as [b|e] eqn:E; [eauto|].
  apply ends_with_newline_raises in E as [-> _]. discriminate.
Qed.

(** X17.  What an item of the processor's queue publishes once it is
    transcribed: nothing, or one [new_translation_signal] followed, when
    [on_translated] is set, by one call of it with the same text.  A
    text is published exactly when the transcription is not blank and the
    first answer of [GoogleTranslate] to it is not blank and does not end
    in a newline unless the patience is 0; the text is that answer, as it
    is. *)
Theorem pipeline_publication (fuel : nat) (patience : Z) (action : bool)
    (transcription : option string) :
  exists out,
    Pipeline.process_transcription GoogleTranslate (S fuel) patience action transcription
    = Some out /\
    (out = [] \/
     exists t, out = Pipeline.NewTranslation t ::
                     (if action then [Pipeline.Action t] else [])) /\
    (forall t, In (Pipeline.NewTranslation t) out <->
       exists text,
         transcription = Some text /\ Str.strip text <> EmptyString /\
         GoogleTranslate 0 text = Some t /\ Str.strip t <> EmptyString /\
         (ends_with_newline (Some t) = Py.Return true -> patience = 0%Z)).
Proof.
  unfold Pipeline.process_transcription.
  destruct transcription as [text|].
  2:{ exists []. split; [reflexivity|]. split; [now left|].
      intros t. split; [intros []|]. now intros (? & ? & _). }
  rewrite translate_cases.
  destruct (String.eqb_spec (Str.strip text) EmptyString) as [Hb|Hb].
  { rewrite andb_false_r. exists []. split; [reflexivity|]. split; [now left|].
    intros t. split; [intros []|]. intros (? & [= <-] & ? & _). contradiction. }
  rewrite (strip_truthy _ Hb). cbn [andb negb].
  destruct (GoogleTranslate 0 text) as [t|] eqn:Hg.
  2:{ exists []. split; [reflexivity|]. split; [now left|].
      intros t. split; [intros []|]. intros (? & [= <-] & _ & ? & _). congruence. }
  destruct (ends_with_newline (Some t)) as [b|e] eqn:Hn.
  2:{ apply ends_with_newline_raises in Hn as [-> _].
      exists []. split; [reflexivity|]. split; [now left|].
      intros t. split; [intros []|].
      intros (? & [= <-] & _ & Hg' & Hs & _). rewrite Hg in Hg'. injection Hg' as <-.
      now destruct Hs. }
  destruct (b && negb (patience =? 0)%Z) eqn:Hbp; cbn [result].
  { apply andb_true_iff in Hbp as [-> Hp]. apply negb_true_iff, Z.eqb_neq in Hp.
    exists []. split; [reflexivity|]. split; [now left|].
    intros t'. split; [intros []|].
    intros (? & [= <-] & _ & Hg' & _ & Hz). rewrite Hg in Hg'. injection Hg' as <-.
    now apply Hp, Hz. }
  assert (Hz : ends_with_newline (Some t) = Py.Return true -> patience = 0%Z).
  { rewrite Hn. intros [= ->]. cbn in Hbp. apply negb_false_iff, Z.eqb_eq in Hbp. exact Hbp. }
  unfold Pipeline.process_result_of_queue_processing.
  rewrite (ends_with_newline_truthy _ _ Hn). cbn [andb].
  destruct (String.eqb_spec (Str.strip t) EmptyString) as [Ht|Ht]; cbn [negb].
  { exists []. split; [reflexivity|]. split; [now left|].
    intros t'. split; [intros []|].
    intros (? & [= <-] & _ & Hg' & Hs & _). rewrite Hg in Hg'. injection Hg' as <-.
    contradiction. }
  eexists. split; [reflexivity|]. split; [right; eauto|].
  intros t'. split.
  - intros Hin. assert (t' = t) as ->.
    { destruct action; cbn in Hin; intuition congruence. }
    exists text. rewrite Hn in Hz. rewrite Hn. auto.
  - intros (? & [= <-] & _ & Hg' & _). rewrite Hg in Hg'. injection Hg' as <-. now left.
Qed.

End TranslatorCallFacts.

(** ** The translation request *)

Section TranslateRequestFacts.

Import TranslateRequest.
Local Open Scope string_scope.

Variable is_ConnectionError : Py.exc -> bool.

Lemma string_app_assoc (a b c : string) : (a ++ b) ++ c = a ++ (b ++ c).
Proof. induction a as [|x a IH]; cbn; [reflexivity|]. now rewrite IH. Qed.

Lemma string_app_empty (a : string) : a ++ EmptyString = a.
Proof. induction a as [|x a IH]; cbn; [reflexivity|]. now rewrite IH. Qed.

(** The loop over a run of well-formed segments appends their texts. *)
Lemma join_segments_run (segs : list Json.value) (parts : list string) :
  Forall2 segment_of segs parts ->
  forall (pre rest : list Json.value) (translation : string),
    join_segments (Json.Array (pre ++ segs ++ rest)%list) translation
      (length pre) (length segs)
    = Py.Return (translation ++ joined parts).
Proof.
  induction 1 as [|segment s segs parts [others ->] _ IH]; intros pre rest translation.
  - cbn. now rewrite string_app_empty.
  - cbn [length join_segments Json.getitem_index].
    rewrite nth_error_app2 by lia. rewrite Nat.sub_diag. cbn [app nth_error Py.bind add].
    specialize (IH (pre ++ [Json.Array (Json.Str s :: others)])%list rest (translation ++ s)).
    rewrite length_app, Nat.add_1_r, <- app_assoc in IH. cbn [app] in IH.
    cbn [Json.getitem_index nth_error Py.bind add].
    rewrite IH. cbn [joined foldr]. now rewrite string_app_assoc.
Qed.

(** X18.  [GoogleTranslate] on the outcome of its request.  A status
    other than 200 gives [None] without a report, the body not being
    looked at.  A 200 response whose JSON starts with an array of
    segments, each an array that starts with a string, gives these
    strings joined in order, whatever follows them; no segment gives the
    empty string.  An [Exception] in the request gives [None].  A text is
    returned only from a 200 response with a JSON body. *)
Theorem google_translate_response (o : get_outcome) :
  (forall status_code json,
     o = GetResponse status_code json -> status_code <> 200%Z ->
     GoogleTranslate is_ConnectionError o = (Py.Return None, None)) /\
  (forall segs others parts,
     o = GetResponse 200 (Py.Return (Json.Array (Json.Array segs :: others))) ->
     Forall2 segment_of segs parts ->
     GoogleTranslate is_ConnectionError o = (Py.Return (Some (joined parts)), None)) /\
  (forall e, o = GetRaises e -> Py.is_Exception e = true ->
             fst (GoogleTranslate is_ConnectionError o) = Py.Return None) /\
  (forall t, fst (GoogleTranslate is_ConnectionError o) = Py.Return (Some t) ->
             exists parsed, o = GetResponse 200 (Py.Return parsed)).
Proof.
  unfold GoogleTranslate. split; [|split; [|split]].
  - intros status_code json -> Hs. cbn.
    destruct (Z.eqb_spec status_code 200) as [?|_]; [contradiction|]. reflexivity.
  - intros segs others parts -> Hsegs. cbn [body Z.eqb Pos.eqb Py.bind].
    cbn [Json.getitem_index nth_error Py.bind len].
    pose proof (join_segments_run segs parts Hsegs [] [] EmptyString) as H.
    cbn [app length] in H. rewrite app_nil_r in H. rewrite H. reflexivity.
  - intros e -> He. cbn [body handlers].
    destruct (is_ConnectionError e); [reflexivity|].
    destruct e; try discriminate He; reflexivity.
  - intros t. destruct o as [e|status_code json]; cbn [body handlers].
    + destruct (is_ConnectionError e); [discriminate|].
      destruct e; cbn; discriminate.
    + destruct (Z.eqb_spec status_code 200) as [->|_]; [|discriminate].
      destruct json as [parsed|e]; [eauto|]. cbn [Py.bind handlers].
      destruct (is_ConnectionError e); [discriminate|].
      destruct e; cbn; discriminate.
Qed.

End TranslateRequestFacts.

(** A response of two segments: the translations are joined, the
    source texts and the rest of the body are left out. *)
Lemma google_translate_two_segments :
  TranslateRequest.GoogleTranslate (fun _ => false)
    (TranslateRequest.GetResponse 200 (Py.Return TranslateRequest.Scenario.two_segments))
  = (Py.Return (Some "Hallo. Wie geht's?"%string), None) /\
  TranslateRequest.GoogleTranslate (fun _ => false)
    (TranslateRequest.GetResponse 429 (Py.Raise Py.ValueError))
  = (Py.Return None, None).
Proof.
  split.
  - destruct (google_translate_response (fun _ => false)
                (TranslateRequest.GetResponse 200
                   (Py.Return TranslateRequest.Scenario.two_segments))) as (_ & H & _).
    apply (H _ _ ["Hallo. "; "Wie geht's?"]%string eq_refl).
    repeat constructor; eexists; reflexivity.
  - destruct (google_translate_response (fun _ => false)
                (TranslateRequest.GetResponse 429 (Py.Raise Py.ValueError))) as (H & _).
    apply (H _ _ eq_refl). lia.
Defined.

(** ** The voice of a language *)

Section EdgeTTSFacts.

Import EdgeTTS.
Local Open Scope string_scope.

Variable tts_result : Type.
Variable convert : string -> string -> Py.result tts_result.

(** X19.  The voice that [EdgeTTSEngine.text_to_speech] uses for a
    non-empty language code, the mapping being a JSON object: the "male"
    entry of the language when the language is mapped, and
    "en-US-SteffanNeural" when it is not; a language that is mapped
    without a "male" entry raises [KeyError], the default is not used for
    it.  Without a language the method returns [None] without a
    conversion, and that is the only case in which it returns [None]. *)
Theorem edge_tts_voice (entries : list (string * Json.value)) (text lang : string) :
  lang <> EmptyString ->
  (forall v, voice_of (Json.Object entries) (Some lang) = Py.Return (Some v) <->
             (Json.member lang entries = None /\ v = Json.Str "en-US-SteffanNeural") \/
             (exists voices, Json.member lang entries = Some (Json.Object voices) /\
                             Json.member "male" voices = Some v)) /\
  (forall voices, Json.member lang entries = Some (Json.Object voices) ->
                  Json.member "male" voices = None ->
                  text_to_speech tts_result convert (Json.Object entries) text (Some lang)
                  = Py.Raise (Py.Exception_ "KeyError")) /\
  (forall v, voice_of (Json.Object entries) (Some lang) = Py.Return (Some (Json.Str v)) ->
             text_to_speech tts_result convert (Json.Object entries) text (Some lang)
             = Py.bind (convert text v) (fun r => Py.Return (Some r))) /\
  (forall mapping l,
     text_to_speech tts_result convert mapping text l = Py.Return None <->
     l = None \/ l = Some EmptyString).
Proof.
  intros Hl. assert (Ht : Str.truthy lang = true) by (destruct lang; [now destruct Hl | reflexivity]).
  split; [|split; [|split]].
  - intros v. unfold voice_of. rewrite Ht. cbn [dict_get Py.bind].
    destruct (Json.member lang entries) as [entry|] eqn:E.
    + split.
      * destruct (Json.getitem_key entry "male") as [voice|] eqn:Ev; [|discriminate].
        apply getitem_key_Return in Ev as (voices & -> & Hm). intros [= <-]. right. eauto.
      * intros [[? _]|(voices & [= ->] & Hm)]; [discriminate|]. cbn. now rewrite Hm.
    + cbn. split.
      * intros [= <-]. now left.
      * intros [[_ ->]|(voices & ? & _)]; [reflexivity|discriminate].
  - intros voices Hm Hv. unfold text_to_speech, voice_of. rewrite Ht.
    cbn [dict_get Py.bind]. rewrite Hm. cbn. now rewrite Hv.
  - intros v Hv. unfold text_to_speech. now rewrite Hv.
  - intros mapping l. unfold text_to_speech, voice_of. split.
    + destruct l as [l|]; [|now left].
      destruct l as [|a l]; [now right|]. cbn [Str.truthy].
      destruct (dict_get mapping (String a l) default_voices) as [entry|]; [|discriminate].
      cbn [Py.bind].
      destruct (Json.getitem_key entry "male") as [voice|]; [|discriminate].
      cbn [Py.bind]. destruct voice; try discriminate.
      destruct (convert text s); discriminate.
    + intros [->| ->]; reflexivity.
Qed.

End EdgeTTSFacts.

Section EdgeTTSScenarios.

Local Open Scope string_scope.

(** German is mapped, Spanish is not, and French has no "male" voice. *)
Lemma edge_tts_voice_scenario :
  EdgeTTS._load_voice_mapping EdgeTTS.Scenario.settings
  = Py.Return (Json.Object EdgeTTS.Scenario.entries) /\
  EdgeTTS.text_to_speech _ EdgeTTS.Scenario.convert
    (Json.Object EdgeTTS.Scenario.entries) "Hallo" (Some "de")
  = Py.Return (Some ("Hallo", "de-DE-ConradNeural")) /\
  EdgeTTS.text_to_speech _ EdgeTTS.Scenario.convert
    (Json.Object EdgeTTS.Scenario.entries) "Hola" (Some "es")
  = Py.Return (Some ("Hola", "en-US-SteffanNeural")) /\
  EdgeTTS.text_to_speech _ EdgeTTS.Scenario.convert
    (Json.Object EdgeTTS.Scenario.entries) "Salut" (Some "fr")
  = Py.Raise (Py.Exception_ "KeyError").
Proof.
  split; [reflexivity|]. split; [|split].
  - destruct (edge_tts_voice _ EdgeTTS.Scenario.convert EdgeTTS.Scenario.entries
                "Hallo" "de" ltac:(discriminate)) as (_ & _ & H & _).
    rewrite (H "de-DE-ConradNeural" eq_refl). reflexivity.
  - destruct (edge_tts_voice _ EdgeTTS.Scenario.convert EdgeTTS.Scenario.entries
                "Hola" "es" ltac:(discriminate)) as (_ & _ & H & _).
    rewrite (H "en-US-SteffanNeural" eq_refl). reflexivity.
  - destruct (edge_tts_voice _ EdgeTTS.Scenario.convert EdgeTTS.Scenario.entries
                "Salut" "fr" ltac:(discriminate)) as (_ & H & _).
    apply (H [("female", Json.Str "fr-FR-DeniseNeural")]); reflexivity.
Defined.

End EdgeTTSScenarios.

(** ** The stream handler and the generator *)

Section StreamHandlerFacts.

Import Vad StreamHandler.

Variable is_speech : bytes -> Py.result bool.
Variable P N : nat.

Local Abbreviation step := (Vad.step is_speech P N).
Local Abbreviation trace := (Vad.trace is_speech P N).
Local Abbreviation run := (StreamHandler.run is_speech P N).

Lemma frombuffer_Return_even (chunk : bytes) samples :
  Normalizer.frombuffer chunk = Py.Return samples -> even_length chunk.
Proof.
  unfold even_length. intros H. destruct (Nat.even (length chunk)) eqn:E; [reflexivity|].
  rewrite (frombuffer_odd chunk E) in H. discriminate.
Qed.

Lemma process_wav_data_even (u : bytes) :
  even_length u ->
  exists r, process_wav_data u = Py.Return r /\
            (u <> [] -> exists samples, r = Some samples /\
                                        length u = 2 * length samples).
Proof.
  intros H. destruct u as [|b u].
  - exists None. split; [reflexivity|]. congruence.
  - destruct (frombuffer_even _ H) as (samples & Hs & Hl). exists (Some samples).
    unfold process_wav_data. rewrite Hs. split; [reflexivity|eauto].
Qed.

Lemma even_length_concat (frames : list bytes) :
  Forall even_length frames -> even_length (concat frames).
Proof.
  unfold even_length. induction 1 as [|c l Hc _ IH]; cbn; [reflexivity|].
  rewrite length_app, Nat.even_add, Hc, IH. reflexivity.
Qed.

Lemma even_length_deque_append maxlen (d : list bytes) (x : bytes) :
  Forall even_length d -> even_length x -> Forall even_length (deque_append maxlen d x).
Proof.
  intros Hd Hx. unfold deque_append. apply Forall_drop, Forall_app. auto.
Qed.

(** Frames of even length leave buffers of such frames, and utterances
    of even length; frames that are not empty leave no empty utterance. *)
Lemma step_even s chunk s' evs :
  Forall even_length (ring_buffer s) -> Forall even_length (voiced_frames s) ->
  even_length chunk ->
  step s chunk = Py.Return (s', evs) ->
  Forall even_length (ring_buffer s') /\ Forall even_length (voiced_frames s') /\
  Forall even_length (utterances_of evs) /\
  (chunk <> [] -> Forall (fun u => u <> []) (utterances_of evs)).
Proof.
  intros Hrb Hvf Hc Hstep. pose proof (step_frames _ _ _ _ _ _ _ Hstep) as H. cbn zeta in H.
  pose proof (even_length_deque_append P _ _ Hrb Hc) as Hd.
  assert (Hnil : Forall even_length (@nil bytes)) by constructor.
  assert (Hnil' : Forall (fun u : bytes => u <> []) (@nil bytes)) by constructor.
  destruct (triggered s), (triggered s'); destruct H as (Hr & Hv & He);
    rewrite Hr, Hv, He; cbn.
  - repeat split; auto. apply Forall_app. auto.
  - split; [exact Hd|]. split; [exact Hnil|]. split.
    + constructor; [|exact Hnil]. apply even_length_concat, Forall_app. auto.
    + intros Hne. constructor; [|exact Hnil']. intros E.
      apply (f_equal length) in E. rewrite concat_app, length_app in E. cbn in E.
      rewrite app_nil_r in E. destruct chunk; [congruence|cbn in E; lia].
  - repeat split; auto. apply Forall_app. auto.
  - repeat split; auto.
Qed.

Lemma trace_even chunks s :
  Forall even_length (ring_buffer s) -> Forall even_length (voiced_frames s) ->
  Forall even_length chunks ->
  Forall even_length (utterances_of (concat (map snd (trace s chunks)))) /\
  (Forall (fun c => c <> []) chunks ->
   Forall (fun u => u <> []) (utterances_of (concat (map snd (trace s chunks))))).
Proof.
  intros Hrb Hvf Hch. revert s Hrb Hvf.
  induction Hch as [|c rest Hc _ IH]; intros s Hrb Hvf; cbn.
  - split; [constructor|]. intros _. constructor.
  - destruct (Vad.step is_speech P N s c) as [[s' evs]|] eqn:Hstep; cbn.
    + destruct (step_even _ _ _ _ Hrb Hvf Hc Hstep) as (Hrb' & Hvf' & Hu & Hne).
      destruct (IH s' Hrb' Hvf') as [IH1 IH2].
      rewrite utterances_of_app. split.
      * apply Forall_app. auto.
      * intros Hall. apply Forall_cons in Hall as [Hc0 Hrest]. apply Forall_app. auto.
    + split; [constructor|]. intros _. constructor.
Qed.

Lemma deliver_even evs :
  Forall even_length (utterances_of evs) ->
  deliver evs = (map Handler.action_of_event evs, None).
Proof.
  induction evs as [|e evs IH]; cbn; [reflexivity|].
  destruct e as [| |u]; cbn.
  - intros H. now rewrite (IH H).
  - intros H. now rewrite (IH H).
  - intros H. apply Forall_cons in H as [Hu H].
    destruct (process_wav_data_even u Hu) as (r & -> & _). now rewrite (IH H).
Qed.

Lemma generator_actions_even chunks s :
  Forall even_length (ring_buffer s) -> Forall even_length (voiced_frames s) ->
  Forall even_length chunks ->
  StreamHandler.generator_actions is_speech P N s chunks
  = Handler.generator_actions is_speech P N s chunks.
Proof.
  intros Hrb Hvf Hch. revert s Hrb Hvf.
  induction Hch as [|c rest Hc _ IH]; intros s Hrb Hvf; cbn; [reflexivity|].
  destruct (Vad.step is_speech P N s c) as [[s' evs]|] eqn:Hstep; [|reflexivity].
  destruct (step_even _ _ _ _ Hrb Hvf Hc Hstep) as (Hrb' & Hvf' & Hu & _).
  rewrite (deliver_even _ Hu), (IH s' Hrb' Hvf'). reflexivity.
Qed.

Lemma sentences_app a b : sentences (a ++ b) = sentences a ++ sentences b.
Proof. apply omap_app. Qed.

Lemma chunks_read_app a b : chunks_read (a ++ b) = chunks_read a ++ chunks_read b.
Proof. apply omap_app. Qed.

Lemma sentences_events evs :
  sentences (map Handler.action_of_event evs) = utterances_of evs.
Proof.
  induction evs as [|e evs IH]; [reflexivity|].
  destruct e; cbn; unfold sentences, utterances_of in IH; now rewrite ?IH.
Qed.

Lemma sentences_generator chunks s :
  sentences (Handler.generator_actions is_speech P N s chunks)
  = utterances_of (concat (map snd (trace s chunks))).
Proof.
  revert s. induction chunks as [|c rest IH]; intros s; cbn; [reflexivity|].
  destruct (Vad.step is_speech P N s c) as [[s' evs]|]; cbn; [|reflexivity].
  change (sentences (map Handler.action_of_event evs
                     ++ Handler.generator_actions is_speech P N s' rest)
          = utterances_of (evs ++ concat (map snd (trace s' rest)))).
  now rewrite sentences_app, sentences_events, IH, utterances_of_app.
Qed.

Lemma chunks_read_deliver evs : chunks_read (fst (deliver evs)) = [].
Proof.
  induction evs as [|e evs IH]; [reflexivity|].
  destruct e as [| |u]; cbn.
  - destruct (deliver evs); exact IH.
  - destruct (deliver evs); exact IH.
  - destruct (process_wav_data u); [|reflexivity]. destruct (deliver evs); exact IH.
Qed.

Lemma chunks_read_generator chunks s :
  chunks_read (StreamHandler.generator_actions is_speech P N s chunks) `prefix_of` chunks.
Proof.
  revert s. induction chunks as [|c rest IH]; intros s; cbn; [reflexivity|].
  change (c :: chunks_read
                 match Vad.step is_speech P N s c with
                 | Py.Return (s', evs) =>
                     match deliver evs with
                     | (actions, None) =>
                         actions ++ StreamHandler.generator_actions is_speech P N s' rest
                     | (actions, Some e) => actions ++ [Handler.PrintException e]
                     end
                 | Py.Raise e => [Handler.PrintException e]
                 end `prefix_of` c :: rest).
  apply prefix_cons.
  destruct (Vad.step is_speech P N s c) as [[s' evs]|]; [|apply prefix_nil].
  pose proof (chunks_read_deliver evs) as Hd.
  destruct (deliver evs) as [actions [e|]]; cbn [fst] in Hd; rewrite chunks_read_app, Hd.
  - apply prefix_nil.
  - apply IH.
Qed.

(** X20.  The stream handler on frames of even length, which is what
    the normaliser returns: [process_wav_data] does not raise, so that
    the loop of [run] is left only when the generator ends; the sentences
    handed to [process_wav_data] are the utterances that the generator
    yields, in their order; the chunks that were read are an initial part
    of the stream; and the last thing [run] does is [stop_processing]. *)
Theorem handler_delivers_utterances (chunks : list bytes) :
  Forall even_length chunks ->
  run chunks = Handler.run is_speech P N chunks /\
  sentences (run chunks) = vad_generator is_speech P N chunks /\
  chunks_read (run chunks) `prefix_of` chunks /\
  last (run chunks) = Some Handler.StopProcessing.
Proof.
  intros Hch.
  assert (Hgen : StreamHandler.generator_actions is_speech P N (init N) chunks
                 = Handler.generator_actions is_speech P N (init N) chunks)
    by (apply generator_actions_even; [constructor|constructor|exact Hch]).
  split; [|split; [|split]].
  - unfold StreamHandler.run, Handler.run. now rewrite Hgen.
  - unfold StreamHandler.run. rewrite Hgen. cbn. rewrite sentences_app, sentences_generator.
    cbn. now rewrite app_nil_r.
  - unfold StreamHandler.run. cbn. rewrite chunks_read_app. cbn. rewrite app_nil_r.
    apply chunks_read_generator.
  - unfold StreamHandler.run.
    change (last ([Handler.SetInitialized; Handler.ProcessorStart; Handler.StartStream]
                  ++ StreamHandler.generator_actions is_speech P N (init N) chunks
                  ++ [Handler.StopProcessing]) = Some Handler.StopProcessing).
    rewrite app_assoc. apply last_snoc.
Qed.

Lemma normalized_even resample input_channels input_rate RATE (raw chunk : bytes) :
  Normalizer.resample_and_convert_chunk resample input_channels input_rate RATE raw
  = Py.Return chunk ->
  even_length chunk.
Proof.
  unfold Normalizer.resample_and_convert_chunk.
  destruct (Normalizer.frombuffer raw) as [a|] eqn:Hb; cbn [Py.bind]; [|discriminate].
  destruct (Normalizer.downmix input_channels a) as [m|]; cbn [Py.bind]; [|discriminate].
  destruct (negb (input_rate =? RATE)%Z).
  - destruct (Normalizer.py_int_div _ _) as [num|]; cbn [Py.bind]; [|discriminate].
    destruct (resample m num) as [out|]; cbn [Py.bind]; [|discriminate]. intros [= <-].
    unfold even_length. rewrite length_tobytes, Nat.even_mul. reflexivity.
  - intros [= <-]. exact (frombuffer_Return_even _ _ Hb).
Qed.

(** X21.  Every utterance that the generator yields from chunks that
    [resample_and_convert_chunk] returned has an even number of bytes:
    [process_wav_data] decodes it without raising, whatever the device's
    channels and rate are; when no chunk is empty, no utterance is, and
    each is decoded into half as many samples as it has bytes. *)
Theorem utterances_decodable (resample : list Z -> Z -> Py.result (list Z))
    (input_channels input_rate RATE : Z) (chunks : list bytes) :
  Forall (fun chunk => exists raw,
            Normalizer.resample_and_convert_chunk resample input_channels input_rate
              RATE raw = Py.Return chunk) chunks ->
  Forall (fun u => exists r, process_wav_data u = Py.Return r)
         (vad_generator is_speech P N chunks) /\
  (Forall (fun chunk => chunk <> []) chunks ->
   Forall (fun u => exists samples,
             process_wav_data u = Py.Return (Some samples) /\
             length u = 2 * length samples)
          (vad_generator is_speech P N chunks)).
Proof.
  intros Hn.
  assert (Hch : Forall even_length chunks).
  { eapply Forall_impl; [exact Hn|]. intros c [raw Hr]. exact (normalized_even _ _ _ _ _ _ Hr). }
  destruct (trace_even chunks (init N) ltac:(constructor) ltac:(constructor) Hch)
    as [Heven Hne].
  unfold vad_generator. split.
  - eapply Forall_impl; [exact Heven|]. intros u Hu.
    destruct (process_wav_data_even u Hu) as (r & Hr & _). eauto.
  - intros Hall. specialize (Hne Hall).
    assert (Hboth : Forall (fun u : bytes => even_length u /\ u <> [])
                      (utterances_of (concat (map snd (trace (init N) chunks)))))
      by (apply Forall_and; auto).
    eapply Forall_impl; [exact Hboth|]. intros u [Hu Hu0].
    destruct (process_wav_data_even u Hu) as (r & Hr & Hs).
    destruct (Hs Hu0) as (samples & -> & Hl). eauto.
Qed.

Lemma Forall_of_forallb {A : Type} (f : A -> bool) (l : list A) :
  forallb f l = true -> Forall (fun x => f x = true) l.
Proof.
  induction l as [|x l IH]; cbn; [constructor|].
  intros H. apply andb_true_iff in H as [Hx Hl]. constructor; auto.
Qed.

End StreamHandlerFacts.

Section StreamHandlerScenarios.

Import Vad.Scenario.

Lemma scenario_A_even : Forall StreamHandler.even_length scenario_A.
Proof.
  apply (Forall_of_forallb (fun c : bytes => Nat.even (length c))).
  vm_compute. reflexivity.
Qed.

Lemma scenario_A_nonempty : Forall (fun c : bytes => c <> []) scenario_A.
Proof.
  eapply Forall_impl;
    [apply (Forall_of_forallb (fun c : bytes => negb (Nat.eqb (length c) 0)));
     vm_compute; reflexivity|].
  intros c Hc ->. discriminate.
Qed.

(** Scenario A: the one utterance of the stream reaches
    [process_wav_data], and [run] ends with [stop_processing]. *)
Lemma handler_delivers_scenario_A :
  StreamHandler.sentences (StreamHandler.run is_speech padding window scenario_A)
  = Vad.vad_generator is_speech padding window scenario_A /\
  length (StreamHandler.sentences
            (StreamHandler.run is_speech padding window scenario_A)) = 1 /\
  last (StreamHandler.run is_speech padding window scenario_A)
  = Some Handler.StopProcessing.
Proof.
  destruct (handler_delivers_utterances is_speech padding window scenario_A
              scenario_A_even) as (_ & H1 & _ & H2).
  split; [exact H1|]. split; [|exact H2].
  rewrite H1. vm_compute. reflexivity.
Defined.

(** Scenario A on the microphone path, one channel at 16 kHz: the
    utterance is decoded. *)
Lemma utterances_decodable_scenario_A :
  Forall (fun u => exists samples,
            StreamHandler.process_wav_data u = Py.Return (Some samples) /\
            length u = 2 * length samples)
         (Vad.vad_generator is_speech padding window scenario_A).
Proof.
  refine (proj2 (utterances_decodable is_speech padding window
                   Normalizer.Scenario.resample 1 16000 16000 scenario_A _)
            scenario_A_nonempty).
  eapply Forall_impl; [exact scenario_A_even|]. intros c Hc. exists c.
  unfold Normalizer.resample_and_convert_chunk.
  destruct (frombuffer_even c Hc) as (samples & -> & _). reflexivity.
Defined.

End StreamHandlerScenarios.
